(** * The demo package of mcp-jetbrains-lsp: registry, facade and cache

    A shallow embedding of [python-demo-project/demo]: [user.py],
    [user_service.py], [api_controller.py] and [data_processor.py].

    Python objects are records, methods are computations in a state and
    exception monad over the object they mutate, dictionaries are
    association lists kept in insertion order (the order Python iterates
    them in), and the wall clock is an oracle that is consulted once per
    call of [datetime.now()], [datetime.utcnow()] or [time.time()].

    Points in time are integers, in microseconds.  A float is the
    rational number it stands for: the age of an entry is the double
    nearest to its age in seconds, as [timedelta.total_seconds()]
    returns it, and a time to live is the value of the float or int
    passed; the two are compared exactly, as Python compares them.
    Exceptions are those below [Exception], which [except Exception]
    catches, and [KeyboardInterrupt], [SystemExit] and [GeneratorExit],
    which it lets through.  A listener or a validator is what it answers
    when called; the calls made to them are recorded.  Names that
    a module uses without importing them ([deprecated] in user.py,
    [AsyncIterator] in data_processor.py) are taken to be in scope. *)

From Stdlib Require Import ZArith QArith List String Ascii Bool Lia.
From Stdlib Require Import DecimalString.
Import ListNotations.

Local Open Scope string_scope.
Local Open Scope Z_scope.

(** ** The Python runtime the package relies on *)

Module Py.

(** Exceptions: [Exception], [ValueError] and [KeyError] are below
    [Exception]; [KeyboardInterrupt], [SystemExit] and [GeneratorExit]
    derive from [BaseException] only.  [str(e)] is the carried message. *)
Inductive Exn : Type :=
| Exception (msg : string)
| ValueError (msg : string)
| KeyError (key : string)
| KeyboardInterrupt
| SystemExit
| GeneratorExit.

Definition str_exn (e : Exn) : string :=
  match e with
  | Exception msg => msg
  | ValueError msg => msg
  | KeyError key => "'" ++ key ++ "'"
  | KeyboardInterrupt | SystemExit | GeneratorExit => ""
  end.

(** [isinstance(e, Exception)] *)
Definition below_Exception (e : Exn) : bool :=
  match e with
  | Exception _ | ValueError _ | KeyError _ => true
  | KeyboardInterrupt | SystemExit | GeneratorExit => false
  end.

Inductive Result (A : Type) : Type :=
| Returned (a : A)
| Raised (e : Exn).

Arguments Returned {A} a.
Arguments Raised {A} e.

(** A method body: what was mutated before a [raise] stays mutated. *)
Definition M (S A : Type) : Type := S -> Result A * S.

Definition ret {S A} (a : A) : M S A := fun s => (Returned a, s).

Definition bind {S A B} (m : M S A) (k : A -> M S B) : M S B :=
  fun s =>
    match m s with
    | (Returned a, s') => k a s'
    | (Raised e, s') => (Raised e, s')
    end.

Definition raise {S A} (e : Exn) : M S A := fun s => (Raised e, s).

(** [try: m  except Exception as e: h e]: an exception that is not
    below [Exception] passes through. *)
Definition try_except {S A} (m : M S A) (h : Exn -> M S A) : M S A :=
  fun s =>
    match m s with
    | (Returned a, s') => (Returned a, s')
    | (Raised e, s') => if below_Exception e then h e s' else (Raised e, s')
    end.

Definition get {S} : M S S := fun s => (Returned s, s).
Definition gets {S A} (f : S -> A) : M S A := fun s => (Returned (f s), s).
Definition modify {S} (f : S -> S) : M S unit := fun s => (Returned tt, f s).

(** Run a method of an object held inside the state. *)
Definition zoom {S S' A} (prj : S -> S') (inj : S' -> S -> S) (m : M S' A)
  : M S A :=
  fun s => let (r, s') := m (prj s) in (r, inj s' s).

(** [for x in l: body x] *)
Fixpoint for_each {S A} (l : list A) (body : A -> M S unit) : M S unit :=
  match l with
  | [] => ret tt
  | x :: l' => bind (body x) (fun _ => for_each l' body)
  end.

(** [[x for x in l if test x]] with an effectful test. *)
Fixpoint comprehension_if {S A} (l : list A) (test : A -> M S bool)
  : M S (list A) :=
  match l with
  | [] => ret []
  | x :: l' =>
      bind (test x) (fun keep =>
      bind (comprehension_if l' test) (fun rest =>
      ret (if keep then x :: rest else rest)))
  end.

(** The wall clock: [reading n] is what the [n]-th consultation returns,
    in microseconds (the resolution of [datetime]). *)
Record Clock : Type := { reading : nat -> Z; reads : nat }.

Definition tick (c : Clock) : Clock :=
  {| reading := reading c; reads := S (reads c) |}.

Definition current (c : Clock) : Z := reading c (reads c).

Class Clocked (S : Type) : Type :=
  { clock_of : S -> Clock; with_clock : Clock -> S -> S }.

Definition now {S} `{Clocked S} : M S Z :=
  fun s => (Returned (current (clock_of s)), with_clock (tick (clock_of s)) s).

(** [f"{n}"] for an int. *)
Definition str_int (n : Z) : string := NilZero.string_of_int (Z.to_int n).

Definition len {A} (l : list A) : Z := Z.of_nat (List.length l).

(** *** float: IEEE 754 binary64, a double being the rational it stands for *)

(** [n / d] rounded to the nearest integer, a tie going to the even one. *)
Definition round_half_even (n d : Z) : Z :=
  let q := n / d in
  let r := n mod d in
  if 2 * r <? d then q
  else if d <? 2 * r then q + 1
  else if Z.even q then q else q + 1.

(** The [b] with [2^b <= a / d < 2^(b+1)], for [a] and [d] positive. *)
Definition binade (a d : Z) : Z :=
  let k := Z.log2 a - Z.log2 d in
  if a * 2 ^ Z.max 0 (- k) <? d * 2 ^ Z.max 0 k then k - 1 else k.

(** The double nearest to [x]: a significand of 53 bits (fewer below
    [2^-1022]) at the exponent of [x], rounded half to even.  This is
    what the true division of two ints returns, and what [float] makes
    of a literal; no number met here is large enough to overflow. *)
Definition nearest_double (x : Q) : Q :=
  let n := Qnum x in
  let d := Zpos (Qden x) in
  if n =? 0 then 0%Q
  else
    let e := Z.max (binade (Z.abs n) d - 52) (- 1074) in
    let m := round_half_even (n * 2 ^ Z.max 0 (- e)) (d * 2 ^ Z.max 0 e) in
    Qmake (m * 2 ^ Z.max 0 e) (Z.to_pos (2 ^ Z.max 0 (- e))).

(** [timedelta.total_seconds()] of a difference of [microseconds]:
    [microseconds / 10**6] in true division. *)
Definition total_seconds (microseconds : Z) : Q :=
  nearest_double (microseconds # 1000000).

(** *** repr and str of strings and lists; a character is a code point
    below 256 *)

Definition hex_digit (n : N) : ascii :=
  match n with
  | 0 => "0" | 1 => "1" | 2 => "2" | 3 => "3" | 4 => "4" | 5 => "5"
  | 6 => "6" | 7 => "7" | 8 => "8" | 9 => "9" | 10 => "a" | 11 => "b"
  | 12 => "c" | 13 => "d" | 14 => "e" | _ => "f"
  end%N%char.

(** [str.isprintable] of one character. *)
Definition printable (c : ascii) : bool :=
  let n := N_of_ascii c in
  ((32 <=? n) && (n <? 127) || (161 <=? n) && negb (n =? 173))%N.

(** [repr(s)] for a string: single quotes unless the string holds some
    and no double quote (character 34); the quote, the backslash and what
    does not print are escaped. *)
Definition repr_char (quote c : ascii) : string :=
  if Ascii.eqb c quote || Ascii.eqb c "\" then String "\" (String c "")
  else if Ascii.eqb c "009" then "\t"
  else if Ascii.eqb c "010" then "\n"
  else if Ascii.eqb c "013" then "\r"
  else if printable c then String c ""
  else String "\" (String "x" (String (hex_digit (N_of_ascii c / 16))
                                  (String (hex_digit (N_of_ascii c mod 16)) ""))).

Definition repr_str (s : string) : string :=
  let has c := existsb (Ascii.eqb c) (list_ascii_of_string s) in
  let quote := if has "'"%char && negb (has "034"%char) then "034"%char else "'"%char in
  String quote
    (String.concat "" (map (repr_char quote) (list_ascii_of_string s))
     ++ String quote "").

(** [str(l)] for a list of strings. *)
Definition str_of_list (l : list string) : string :=
  "[" ++ String.concat ", " (map repr_str l) ++ "]".

(** *** dict: string keys, insertion order *)

Definition dict (V : Type) : Type := list (string * V).

Section Dict.
Context {V : Type}.

(** [d.get(k)] *)
Fixpoint dict_get (k : string) (d : dict V) : option V :=
  match d with
  | [] => None
  | (k', v) :: d' => if String.eqb k k' then Some v else dict_get k d'
  end.

(** [k in d] *)
Definition dict_in (k : string) (d : dict V) : bool :=
  match dict_get k d with Some _ => true | None => false end.

(** [d[k] = v]: an existing key keeps its place, a new one goes last. *)
Fixpoint dict_set (k : string) (v : V) (d : dict V) : dict V :=
  match d with
  | [] => [(k, v)]
  | (k', v') :: d' =>
      if String.eqb k k' then (k, v) :: d' else (k', v') :: dict_set k v d'
  end.

(** [del d[k]]; [None] stands for the [KeyError] of an absent key. *)
Fixpoint dict_del (k : string) (d : dict V) : option (dict V) :=
  match d with
  | [] => None
  | (k', v') :: d' =>
      if String.eqb k k' then Some d'
      else option_map (cons (k', v')) (dict_del k d')
  end.

Definition keys (d : dict V) : list string := map fst d.
Definition values (d : dict V) : list V := map snd d.

(** Keys of a dict are unique. *)
Definition dict_wf (d : dict V) : Prop := NoDup (keys d).

(** [d] without the entries whose key is in [ks]. *)
Definition without (ks : list string) (d : dict V) : dict V :=
  filter (fun kv => negb (existsb (String.eqb (fst kv)) ks)) d.

End Dict.

(** [min(l, key=f)]: the first of the minimal elements. *)
Fixpoint min_from {A} (key : A -> Z) (best : A) (l : list A) : A :=
  match l with
  | [] => best
  | x :: l' => min_from key (if key x <? key best then x else best) l'
  end.

Definition py_min {A} (key : A -> Z) (l : list A) : option A :=
  match l with
  | [] => None
  | x :: l' => Some (min_from key x l')
  end.

(** [l[a:b]] for any two ints. *)
Definition slice_bound (n i : Z) : Z :=
  if i <? 0 then Z.max (i + n) 0 else Z.min i n.

Definition py_slice {A} (l : list A) (a b : Z) : list A :=
  let lo := slice_bound (len l) a in
  let hi := slice_bound (len l) b in
  firstn (Z.to_nat (hi - lo)) (skipn (Z.to_nat lo) l).

(** [[f x for x in l]] with an effectful [f]. *)
Fixpoint comprehension {S A B} (l : list A) (f : A -> M S B) : M S (list B) :=
  match l with
  | [] => ret []
  | x :: l' =>
      bind (f x) (fun y =>
      bind (comprehension l' f) (fun rest =>
      ret (y :: rest)))
  end.

(** [for x in l: acc = body acc x], for a loop that updates a local. *)
Fixpoint for_fold {S A B} (l : list A) (acc : B) (body : B -> A -> M S B)
  : M S B :=
  match l with
  | [] => ret acc
  | x :: l' => bind (body acc x) (fun acc' => for_fold l' acc' body)
  end.

(** [list(range(start, stop, step))]; [None] stands for the
    [ValueError] of a zero step. *)
Definition py_range (start stop step : Z) : option (list Z) :=
  if step =? 0 then None
  else
    let count :=
      if 0 <? step then (stop - start + step - 1) / step
      else (start - stop - step - 1) / (- step) in
    Some (map (fun i => start + Z.of_nat i * step) (seq 0 (Z.to_nat count))).

(** [c in s] for a string [c] of one character. *)
Definition contains_char (c : ascii) (s : string) : bool :=
  existsb (Ascii.eqb c) (list_ascii_of_string s).

End Py.

Import Py.

Declare Scope py_scope.
Delimit Scope py_scope with py.
Notation "x <- m ;; k" := (bind m (fun x => k))
  (at level 61, m at next level, right associativity) : py_scope.
Notation "m ;; k" := (bind m (fun _ => k))
  (at level 61, right associativity) : py_scope.
Local Open Scope py_scope.

(** ** data_processor.py *)

Module data_processor.

Definition MAX_CACHE_SIZE : Z := 1000.
Definition DEFAULT_BATCH_SIZE : Z := 100.
Definition CACHE_TTL_SECONDS : Q := 3600.

(** What [process] asks of its input type and of the standard library:
    [str(data)], the per-process [hash] of a string and the hex digest of
    [hashlib.md5]. *)
Class Input (T : Type) : Type :=
  { str : T -> string;
    hash : string -> Z;
    md5_hexdigest : string -> string }.

(** [class DataValidator(Protocol)] *)
Class DataValidator (V T : Type) : Type :=
  { validate : V -> T -> bool;
    get_validation_errors : V -> T -> list string }.

Section Processor.
Context {T V : Type} `{Input T} `{DataValidator V T}.

(** [@dataclass ProcessedData]; [timestamp] is a clock reading and
    [processing_time] a difference of two, in microseconds. *)
Record ProcessedData : Type :=
  { id : string;
    original_data : T;
    processed_data : string;
    processing_time : Z;
    timestamp : Z }.

Record CacheStats : Type :=
  { hits : Z; misses : Z; evictions : Z; size : Z }.

Record DataProcessor : Type :=
  { _processing_count : Z;
    _cache : dict ProcessedData;
    _stats : CacheStats;
    _validator : option V;
    _max_cache_size : Z }.

(** Calls that leave the processor: to the injected validator and to
    the transformation. *)
Inductive Call : Type :=
| CallValidate (data : T)
| CallGetValidationErrors (data : T)
| CallDoProcessing (data : T).

Record World : Type :=
  { self : DataProcessor; clock : Clock; calls : list Call }.

#[export] Instance World_Clocked : Clocked World :=
  { clock_of := clock;
    with_clock c w := {| self := self w; clock := c; calls := calls w |} }.

Definition on_self (f : DataProcessor -> DataProcessor) : M World unit :=
  modify (fun w => {| self := f (self w); clock := clock w; calls := calls w |}).

Definition record (c : Call) : M World unit :=
  modify (fun w => {| self := self w; clock := clock w; calls := calls w ++ [c] |}).

Definition set_cache (c : dict ProcessedData) (p : DataProcessor) : DataProcessor :=
  {| _processing_count := _processing_count p; _cache := c; _stats := _stats p;
     _validator := _validator p; _max_cache_size := _max_cache_size p |}.

Definition set_stats (s : CacheStats) (p : DataProcessor) : DataProcessor :=
  {| _processing_count := _processing_count p; _cache := _cache p; _stats := s;
     _validator := _validator p; _max_cache_size := _max_cache_size p |}.

Definition add_hit (s : CacheStats) : CacheStats :=
  {| hits := hits s + 1; misses := misses s; evictions := evictions s; size := size s |}.

Definition add_miss (s : CacheStats) : CacheStats :=
  {| hits := hits s; misses := misses s + 1; evictions := evictions s; size := size s |}.

Definition add_evictions (n : Z) (s : CacheStats) : CacheStats :=
  {| hits := hits s; misses := misses s; evictions := evictions s + n; size := size s |}.

(** [DataProcessor.__init__] *)
Definition init (validator : option V) (cache_size : Z) : DataProcessor :=
  {| _processing_count := 0;
     _cache := [];
     _stats := {| hits := 0; misses := 0; evictions := 0; size := 0 |};
     _validator := validator;
     _max_cache_size := cache_size |}.

(** The age in seconds of an entry when the clock reads [t]:
    [(t - timestamp).total_seconds()], a float. *)
Definition age_at (t : Z) (d : ProcessedData) : Q :=
  total_seconds (t - timestamp d).

(** [ProcessedData.age_seconds]: consults the clock. *)
Definition age_seconds (d : ProcessedData) : M World Q :=
  t <- now ;; ret (age_at t d).

(** [ProcessedData.is_expired]: [age_seconds > ttl_seconds], the float
    against the float or int passed. *)
Definition is_expired (d : ProcessedData) (ttl_seconds : Q) : M World bool :=
  age <- age_seconds d ;; ret (negb (Qle_bool age ttl_seconds)).

(** [BaseProcessor.pre_process] *)
Definition pre_process (data : T) : M World T :=
  on_self (fun p =>
    {| _processing_count := _processing_count p + 1; _cache := _cache p;
       _stats := _stats p; _validator := _validator p;
       _max_cache_size := _max_cache_size p |}) ;;
  ret data.

(** [BaseProcessor.post_process] *)
Definition post_process (data : ProcessedData) : M World ProcessedData :=
  ret data.

(** [DataProcessor._get_cache_key] *)
Definition _get_cache_key (data : T) : string :=
  "data_" ++ str_int (hash (str data)).

(** [DataProcessor._do_processing] *)
Definition _do_processing (data : T) : M World string :=
  record (CallDoProcessing data) ;;
  ret ("processed_" ++ md5_hexdigest (str data)).

(** [DataProcessor._add_to_cache]; the key function of [min] reads the
    timestamp of the entry stored under each key, and the message of the
    [ValueError] that [min] raises on an empty cache is that of
    CPython 3.11. *)
Definition _add_to_cache (key : string) (data : ProcessedData) : M World unit :=
  p <- gets self ;;
  (if _max_cache_size p <=? len (_cache p) then
     match py_min (fun kv => timestamp (snd kv)) (_cache p) with
     | None => raise (ValueError "min() arg is an empty sequence")
     | Some (oldest_key, _) =>
         match dict_del oldest_key (_cache p) with
         | None => raise (KeyError oldest_key)
         | Some c =>
             on_self (set_cache c) ;;
             on_self (fun p => set_stats (add_evictions 1 (_stats p)) p)
         end
     end
   else ret tt) ;;
  on_self (fun p => set_cache (dict_set key data (_cache p)) p).

(** [DataProcessor.process] *)
Definition process (data : T) : M World ProcessedData :=
  data <- pre_process data ;;
  let cache_key := _get_cache_key data in
  p <- gets self ;;
  match dict_get cache_key (_cache p) with
  | Some cached =>
      on_self (fun p => set_stats (add_hit (_stats p)) p) ;;
      ret cached
  | None =>
      on_self (fun p => set_stats (add_miss (_stats p)) p) ;;
      (match _validator p with
       | Some v =>
           record (CallValidate data) ;;
           if validate v data then ret tt
           else
             record (CallGetValidationErrors data) ;;
             raise (ValueError
                      ("Invalid data: " ++ str_of_list (get_validation_errors v data)))
       | None => ret tt
       end) ;;
      start_time <- now ;;
      processed <- _do_processing data ;;
      end_time <- now ;;
      created <- now ;;
      let result :=
        {| id := cache_key; original_data := data; processed_data := processed;
           processing_time := end_time - start_time; timestamp := created |} in
      _add_to_cache cache_key result ;;
      post_process result
  end.

(** [DataProcessor.remove_expired] *)
Definition remove_expired (ttl_seconds : Q) : M World Z :=
  p <- gets self ;;
  expired <- comprehension_if (_cache p) (fun kv => is_expired (snd kv) ttl_seconds) ;;
  let expired_keys := keys expired in
  for_each expired_keys (fun key =>
    p <- gets self ;;
    match dict_del key (_cache p) with
    | None => raise (KeyError key)
    | Some c =>
        on_self (set_cache c) ;;
        on_self (fun p => set_stats (add_evictions 1 (_stats p)) p)
    end) ;;
  ret (len expired_keys).

(** The entries that a scan of [d] finds expired ([want = true]) or not
    ([want = false]) when its [i]-th test reads the clock at [now (n + i)]. *)
Fixpoint scan (want : bool) (now : nat -> Z) (ttl_seconds : Q) (n : nat)
  (d : dict ProcessedData) : dict ProcessedData :=
  match d with
  | [] => []
  | kv :: d' =>
      if Bool.eqb (negb (Qle_bool (age_at (now n) (snd kv)) ttl_seconds)) want
      then kv :: scan want now ttl_seconds (S n) d'
      else scan want now ttl_seconds (S n) d'
  end.

(** The world after [n] more consultations of the clock. *)
Definition later (n : nat) (w : World) : World :=
  {| self := self w;
     clock := {| reading := reading (clock w); reads := (reads (clock w) + n)%nat |};
     calls := calls w |}.

(** [DataProcessor.iter_valid_data], run to exhaustion. *)
Definition iter_valid_data (ttl_seconds : Q) : M World (list ProcessedData) :=
  p <- gets self ;;
  kept <- comprehension_if (values (_cache p))
            (fun d => b <- is_expired d ttl_seconds ;; ret (negb b)) ;;
  ret kept.

(** [DataProcessor.cache_stats]: the size is filled in on reading. *)
Definition cache_stats : M World CacheStats :=
  on_self (fun p =>
    set_stats {| hits := hits (_stats p); misses := misses (_stats p);
                 evictions := evictions (_stats p); size := len (_cache p) |} p) ;;
  gets (fun w => _stats (self w)).

(** [DataProcessor.cache_size] *)
Definition cache_size (p : DataProcessor) : Z := len (_cache p).

(** [DataProcessor.clear_cache] *)
Definition clear_cache : M World unit :=
  on_self (set_cache []) ;;
  on_self (fun p => set_stats (add_evictions (size (_stats p)) (_stats p)) p) ;;
  on_self (fun p =>
    set_stats {| hits := hits (_stats p); misses := misses (_stats p);
                 evictions := evictions (_stats p); size := 0 |} p).

(** [DataProcessor._create_batches], run to exhaustion. *)
Definition _create_batches {S} (data_list : list T) (batch_size : Z)
  : M S (list (list T)) :=
  match py_range 0 (len data_list) batch_size with
  | None => raise (ValueError "range() arg 3 must not be zero")
  | Some starts =>
      ret (map (fun i => py_slice data_list i (i + batch_size)) starts)
  end.

(** [DataProcessor.process_batch] *)
Definition process_batch (data_list : list T) (batch_size : Z)
  : M World (list ProcessedData) :=
  batches <- _create_batches data_list batch_size ;;
  for_fold batches [] (fun results batch =>
    batch_results <- comprehension batch process ;;
    ret (results ++ batch_results)%list).

(** [DataProcessor.iter_processed_data], run to exhaustion. *)
Definition iter_processed_data : M World (list ProcessedData) :=
  gets (fun w => values (_cache (self w))).

(** [DataProcessor.__validate_internal_state] *)
Definition _DataProcessor__validate_internal_state (p : DataProcessor) : bool :=
  (0 <? _max_cache_size p)
  && (len (_cache p) <=? _max_cache_size p)
  && (size (_stats p) =? len (_cache p)).

(** The entry that [process] builds for [data] on a miss, when the clock
    has been read [n] times before. *)
Definition fresh_entry (reading : nat -> Z) (n : nat) (data : T) : ProcessedData :=
  {| id := _get_cache_key data;
     original_data := data;
     processed_data := "processed_" ++ md5_hexdigest (str data);
     processing_time := reading (S n) - reading n;
     timestamp := reading (S (S n)) |}.

End Processor.

Arguments ProcessedData T : clear implicits.
Arguments DataProcessor T V : clear implicits.
Arguments Call T : clear implicits.
Arguments World T V : clear implicits.

End data_processor.

(** ** The fragment of [re] used by user.py *)

Module re.

(** Patterns over character classes. *)
Inductive Pattern : Type :=
| Never
| Epsilon
| Class (p : ascii -> bool)
| Seq (r1 r2 : Pattern)
| Alt (r1 r2 : Pattern)
| Star (r : Pattern).

(** [r+] *)
Definition Plus (r : Pattern) : Pattern := Seq r (Star r).

(** [r{2,}] *)
Definition AtLeast2 (r : Pattern) : Pattern := Seq r (Seq r (Star r)).

Definition Lit (c : ascii) : Pattern := Class (Ascii.eqb c).

(** A final [$]: the end of the string, or just before a newline that
    ends the string. *)
Definition Dollar : Pattern := Alt Epsilon (Lit "010"%char).

Fixpoint nullable (r : Pattern) : bool :=
  match r with
  | Never => false
  | Epsilon => true
  | Class _ => false
  | Seq r1 r2 => nullable r1 && nullable r2
  | Alt r1 r2 => nullable r1 || nullable r2
  | Star _ => true
  end.

Definition seq (r1 r2 : Pattern) : Pattern :=
  match r1 with
  | Never => Never
  | Epsilon => r2
  | _ => Seq r1 r2
  end.

Definition alt (r1 r2 : Pattern) : Pattern :=
  match r1, r2 with
  | Never, _ => r2
  | _, Never => r1
  | _, _ => Alt r1 r2
  end.

(** What is left of [r] after reading [c]. *)
Fixpoint after (c : ascii) (r : Pattern) : Pattern :=
  match r with
  | Never => Never
  | Epsilon => Never
  | Class p => if p c then Epsilon else Never
  | Seq r1 r2 =>
      alt (seq (after c r1) r2) (if nullable r1 then after c r2 else Never)
  | Alt r1 r2 => alt (after c r1) (after c r2)
  | Star r1 => seq (after c r1) (Star r1)
  end.

Fixpoint fullmatch (r : Pattern) (s : string) : bool :=
  match s with
  | EmptyString => nullable r
  | String c s' => fullmatch (after c r) s'
  end.

(** [bool(re.match(r, s))] for a pattern of the shape [^r$]. *)
Definition match_anchored (r : Pattern) (s : string) : bool :=
  fullmatch (Seq r Dollar) s.

Definition between (lo hi c : ascii) : bool :=
  (nat_of_ascii lo <=? nat_of_ascii c)%nat && (nat_of_ascii c <=? nat_of_ascii hi)%nat.

Definition one_of (cs : string) (c : ascii) : bool :=
  existsb (Ascii.eqb c) (list_ascii_of_string cs).

(** The strings a pattern stands for. *)
Inductive Matches : Pattern -> string -> Prop :=
| MEpsilon : Matches Epsilon ""
| MClass p c : p c = true -> Matches (Class p) (String c "")
| MSeq r1 r2 s1 s2 :
    Matches r1 s1 -> Matches r2 s2 -> Matches (Seq r1 r2) (s1 ++ s2)
| MAltL r1 r2 s : Matches r1 s -> Matches (Alt r1 r2) s
| MAltR r1 r2 s : Matches r2 s -> Matches (Alt r1 r2) s
| MStarNil r : Matches (Star r) ""
| MStarMore r s1 s2 :
    Matches r s1 -> Matches (Star r) s2 -> Matches (Star r) (s1 ++ s2).

(** Every character of [s] is in the class [p]. *)
Definition all_in (p : ascii -> bool) (s : string) : bool :=
  forallb p (list_ascii_of_string s).

End re.

(** ** user.py *)

Module user.

(** [@dataclass User(BaseEntity)]; [created_at] and [updated_at] come
    from [BaseEntity]. *)
Record User : Type :=
  { OLD_DEFAULT_ROLE : string;
    id : string;
    name : string;
    email : string;
    role : string;
    age : option Z;
    _internal_id : option string;
    _User__secret : string;
    created_at : option Z;
    updated_at : option Z }.

(** A user object together with the clock its methods consult. *)
Record Object : Type := { this : User; clock : Clock }.

#[export] Instance Object_Clocked : Clocked Object :=
  { clock_of := clock;
    with_clock c o := {| this := this o; clock := c |} }.

Definition on_this (f : User -> User) : M Object unit :=
  modify (fun o => {| this := f (this o); clock := clock o |}).

Definition with_name (v : string) (u : User) : User :=
  {| OLD_DEFAULT_ROLE := OLD_DEFAULT_ROLE u; id := id u; name := v;
     email := email u; role := role u; age := age u;
     _internal_id := _internal_id u; _User__secret := _User__secret u;
     created_at := created_at u; updated_at := updated_at u |}.

Definition with_email (v : string) (u : User) : User :=
  {| OLD_DEFAULT_ROLE := OLD_DEFAULT_ROLE u; id := id u; name := name u;
     email := v; role := role u; age := age u;
     _internal_id := _internal_id u; _User__secret := _User__secret u;
     created_at := created_at u; updated_at := updated_at u |}.

Definition with_role (v : string) (u : User) : User :=
  {| OLD_DEFAULT_ROLE := OLD_DEFAULT_ROLE u; id := id u; name := name u;
     email := email u; role := v; age := age u;
     _internal_id := _internal_id u; _User__secret := _User__secret u;
     created_at := created_at u; updated_at := updated_at u |}.

Definition with_age (v : option Z) (u : User) : User :=
  {| OLD_DEFAULT_ROLE := OLD_DEFAULT_ROLE u; id := id u; name := name u;
     email := email u; role := role u; age := v;
     _internal_id := _internal_id u; _User__secret := _User__secret u;
     created_at := created_at u; updated_at := updated_at u |}.

Definition with_updated_at (v : option Z) (u : User) : User :=
  {| OLD_DEFAULT_ROLE := OLD_DEFAULT_ROLE u; id := id u; name := name u;
     email := email u; role := role u; age := age u;
     _internal_id := _internal_id u; _User__secret := _User__secret u;
     created_at := created_at u; updated_at := v |}.

(** [User(id=..., name=..., email=..., role=...)] followed by
    [__post_init__], which consults the clock for [created_at]. *)
Definition new {S} `{Clocked S} (id name email role : string) : M S User :=
  t <- now ;;
  ret {| OLD_DEFAULT_ROLE := "guest"; id := id; name := name; email := email;
         role := role; age := None;
         _internal_id := Some ("internal_" ++ id); _User__secret := "";
         created_at := Some t; updated_at := None |}.

(** [BaseEntity.update_timestamp] *)
Definition update_timestamp : M Object unit :=
  t <- now ;; on_this (with_updated_at (Some t)).

(** [r'^[a-zA-Z0-9._%+-]+@[a-zA-Z0-9.-]+\.[a-zA-Z]{2,}$'] *)
Definition letter (c : ascii) : bool :=
  re.between "a" "z" c || re.between "A" "Z" c.

Definition alnum (c : ascii) : bool :=
  letter c || re.between "0" "9" c.

Definition pattern : re.Pattern :=
  re.Seq (re.Plus (re.Class (fun c => alnum c || re.one_of "._%+-" c)))
 (re.Seq (re.Lit "@")
 (re.Seq (re.Plus (re.Class (fun c => alnum c || re.one_of ".-" c)))
 (re.Seq (re.Lit ".")
         (re.AtLeast2 (re.Class letter))))).

(** [User._validate_email] *)
Definition _validate_email (email : string) : bool :=
  re.match_anchored pattern email.

(** [User.set_name] *)
Definition set_name (name : string) : M Object unit :=
  if String.eqb name "" then raise (ValueError "Name cannot be empty")
  else on_this (with_name name) ;; update_timestamp.

(** [User.set_email] *)
Definition set_email (email : string) : M Object unit :=
  if negb (_validate_email email) then raise (ValueError "Invalid email format")
  else on_this (with_email email) ;; update_timestamp.

(** [User.set_age] *)
Definition set_age (age : option Z) : M Object unit :=
  if match age with Some a => a <? 0 | None => false end
  then raise (ValueError "Age cannot be negative")
  else on_this (with_age age).

(** A value that [json.dumps] accepts. *)
#[local] Unset Elimination Schemes.
Inductive Json : Type :=
| JNone
| JStr (s : string)
| JInt (n : Z)
| JList (l : list Json)
| JDict (d : list (string * Json)).
#[local] Set Elimination Schemes.

(** [User.to_dict] *)
Definition to_dict (u : User) : Json :=
  JDict [ ("id", JStr (id u)); ("name", JStr (name u)); ("email", JStr (email u));
          ("role", JStr (role u));
          ("age", match age u with Some a => JInt a | None => JNone end) ].

Definition with_id (v : string) (u : User) : User :=
  {| OLD_DEFAULT_ROLE := OLD_DEFAULT_ROLE u; id := v; name := name u;
     email := email u; role := role u; age := age u;
     _internal_id := _internal_id u; _User__secret := _User__secret u;
     created_at := created_at u; updated_at := updated_at u |}.

Definition with__internal_id (v : option string) (u : User) : User :=
  {| OLD_DEFAULT_ROLE := OLD_DEFAULT_ROLE u; id := id u; name := name u;
     email := email u; role := role u; age := age u;
     _internal_id := v; _User__secret := _User__secret u;
     created_at := created_at u; updated_at := updated_at u |}.

(** [User.set_id] *)
Definition set_id (id : string) : M Object unit :=
  on_this (with_id id) ;;
  on_this (with__internal_id (Some ("internal_" ++ id))).

(** [User.is_adult] *)
Definition is_adult (u : User) : bool :=
  match age u with
  | Some a => 18 <=? a
  | None => false
  end.

(** [User.has_email] *)
Definition has_email (u : User) : bool :=
  negb (String.eqb (email u) "") && contains_char "@" (email u).

(** [User.is_valid] *)
Definition is_valid (u : User) : bool :=
  negb (String.eqb (id u) "") && negb (String.eqb (name u) "")
  && _validate_email (email u).

(** [User.__eq__], on two users. *)
Definition __eq__ (u other : User) : bool := String.eqb (id u) (id other).

(** [validate_user_data] *)
Definition validate_user_data (user : User) : bool * option string :=
  if String.eqb (id user) "" then (false, Some "User ID is required")
  else if String.eqb (name user) "" then (false, Some "User name is required")
  else if String.eqb (email user) "" then (false, Some "User email is required")
  else if negb (_validate_email (email user)) then (false, Some "Invalid email format")
  else (true, None).

End user.

(** ** user_service.py *)

Module user_service.

Definition DEFAULT_ROLE : string := "user".
Definition MAX_USERS : Z := 1000.

Inductive UserRole : Type := ADMIN | USER | GUEST.

Inductive UserEvent : Type := USER_ADDED | USER_REMOVED | USER_UPDATED.

(** [@dataclass User] of this module. *)
Record User : Type :=
  { id : string;
    name : string;
    email : string;
    role : UserRole;
    created_timestamp : option Z }.

(** The service reads nothing of a user but its [id]. *)
Class Identified (U : Type) : Type := { id_of : U -> string }.

#[global] Instance User_Identified : Identified User := { id_of := id }.
#[global] Instance user_User_Identified : Identified user.User :=
  { id_of := user.id }.

(** [class UserListener(Protocol)]: a call returns or raises, and what
    it raises need not be below [Exception]. *)
Class UserListener (L U : Type) : Type :=
  { on_user_event : L -> UserEvent -> U -> Result unit }.

(** Listeners whose calls raise nothing but exceptions below
    [Exception], for which [except Exception] catches every failure. *)
Class Caught (L U : Type) `{UserListener L U} : Prop :=
  caught : forall listener event user e,
    on_user_event listener event user = Raised e -> below_Exception e = true.

Section Service.
Context {U L : Type} `{Identified U} `{UserListener L U}.

Record UserService : Type :=
  { _users : dict U;
    _UserService__listeners : list L;
    max_users : Z }.

(** What the service does to the outside: the listener calls it makes
    and the lines it sends to its logger, oldest first. *)
Inductive Effect : Type :=
| Notified (listener : L) (event : UserEvent) (user : U)
| LoggedError (line : string).

Record World : Type := { self : UserService; effects : list Effect }.

Definition on_self (f : UserService -> UserService) : M World unit :=
  modify (fun w => {| self := f (self w); effects := effects w |}).

Definition emit (e : Effect) : M World unit :=
  modify (fun w => {| self := self w; effects := effects w ++ [e] |}).

Definition set_users (d : dict U) (s : UserService) : UserService :=
  {| _users := d; _UserService__listeners := _UserService__listeners s;
     max_users := max_users s |}.

(** [UserService.__init__] *)
Definition init (max_users : Z) : UserService :=
  {| _users := []; _UserService__listeners := []; max_users := max_users |}.

(** [UserService._notify_listeners] *)
Definition _notify_listeners (event : UserEvent) (user : U) : M World unit :=
  s <- gets self ;;
  for_each (_UserService__listeners s) (fun listener =>
    try_except
      (emit (Notified listener event user) ;;
       fun w => (on_user_event listener event user, w))
      (fun e => emit (LoggedError ("Error notifying listener: " ++ str_exn e)))).

(** What notifying [listeners] of [event] leaves behind when every
    failure is caught: every listener is called in turn, and a line is
    logged after each one that raised. *)
Definition deliveries (listeners : list L) (event : UserEvent) (user : U)
  : list Effect :=
  flat_map (fun listener =>
    Notified listener event user ::
    match on_user_event listener event user with
    | Returned _ => []
    | Raised e => [LoggedError ("Error notifying listener: " ++ str_exn e)]
    end) listeners.


(** [UserService.add_user] *)
Definition add_user (user : U) : M World bool :=
  s <- gets self ;;
  if dict_in (id_of user) (_users s) then ret false
  else if max_users s <=? len (_users s) then
    raise (ValueError "Maximum users reached")
  else
    on_self (fun s => set_users (dict_set (id_of user) user (_users s)) s) ;;
    _notify_listeners USER_ADDED user ;;
    ret true.

(** [UserService.find_user] *)
Definition find_user (user_id : string) : M World (option U) :=
  s <- gets self ;; ret (dict_get user_id (_users s)).

(** [UserService.remove_user] *)
Definition remove_user (user_id : string) : M World bool :=
  s <- gets self ;;
  match dict_get user_id (_users s) with
  | Some user =>
      match dict_del user_id (_users s) with
      | None => raise (KeyError user_id)
      | Some d =>
          on_self (set_users d) ;;
          _notify_listeners USER_REMOVED user ;;
          ret true
      end
  | None => ret false
  end.

(** [UserService.user_count] *)
Definition user_count (s : UserService) : Z := len (_users s).

(** [UserService.get_all_users] *)
Definition get_all_users : M World (list U) :=
  s <- gets self ;; ret (values (_users s)).

(** [UserService.add_listener] *)
Definition add_listener (listener : L) : M World unit :=
  on_self (fun s =>
    {| _users := _users s;
       _UserService__listeners := _UserService__listeners s ++ [listener];
       max_users := max_users s |}).

End Service.

Arguments UserService U L : clear implicits.
Arguments Effect U L : clear implicits.
Arguments World U L : clear implicits.

End user_service.

(** ** api_controller.py *)

Module api_controller.

Import user.

Definition STATUS_SUCCESS : string := "success".
Definition STATUS_ERROR : string := "error".
Definition API_VERSION : string := "1.0".

(** Standard library calls of the module: [datetime.isoformat] and
    [int] of a string. *)
Class Runtime : Type :=
  { isoformat : Z -> string;
    int : string -> Result Z }.

(** [@dataclass ApiResponse] *)
Record ApiResponse : Type :=
  { status : string;
    message : string;
    data : option Json;
    timestamp : string }.

(** [class CreateUserRequest(TypedDict)]; [None] is a missing key. *)
Record CreateUserRequest : Type :=
  { cr_name : option string;
    cr_email : option string;
    cr_role : option string }.

(** [class UpdateUserRequest(TypedDict, total=False)] *)
Record UpdateUserRequest : Type :=
  { up_name : option string;
    up_email : option string;
    up_role : option string;
    up_age : option Z }.

Section Controller.
Context {L : Type} `{user_service.UserListener L User} `{Runtime}.

Definition Service : Type := user_service.World User L.

Record ApiController : Type :=
  { user_service : Service;
    _request_count : Z }.

(** The controller, the clock, the source of [uuid.uuid4().hex] and
    what was printed. *)
Record World : Type :=
  { self : ApiController;
    clock : Clock;
    uuid4_hex : nat -> string;
    drawn : nat;
    stdout : list string }.

#[export] Instance World_Clocked : Clocked World :=
  { clock_of := clock;
    with_clock c w :=
      {| self := self w; clock := c; uuid4_hex := uuid4_hex w;
         drawn := drawn w; stdout := stdout w |} }.

Definition on_self (f : ApiController -> ApiController) : M World unit :=
  modify (fun w =>
    {| self := f (self w); clock := clock w; uuid4_hex := uuid4_hex w;
       drawn := drawn w; stdout := stdout w |}).

Definition print (line : string) : M World unit :=
  modify (fun w =>
    {| self := self w; clock := clock w; uuid4_hex := uuid4_hex w;
       drawn := drawn w; stdout := stdout w ++ [line] |}).

Definition uuid4 : M World string :=
  fun w =>
    (Returned (uuid4_hex w (drawn w)),
     {| self := self w; clock := clock w; uuid4_hex := uuid4_hex w;
        drawn := S (drawn w); stdout := stdout w |}).

(** [self.user_service.<method>(...)] *)
Definition in_service {A} (m : M Service A) : M World A :=
  zoom (fun w => user_service (self w))
       (fun s w =>
          {| self := {| user_service := s;
                        _request_count := _request_count (self w) |};
             clock := clock w; uuid4_hex := uuid4_hex w;
             drawn := drawn w; stdout := stdout w |})
       m.

Definition put_user (user_id : string) (u : User) (s : Service) : Service :=
  {| user_service.self :=
       user_service.set_users
         (dict_set user_id u (user_service._users (user_service.self s)))
         (user_service.self s);
     user_service.effects := user_service.effects s |}.

(** Methods called on [user], the object that [find_user] returned for
    [user_id]: the registry holds that same object, so what the methods
    leave behind, also when they raise, is what the registry then holds
    under [user_id]. *)
Definition on_user {A} (user_id : string) (user : User) (m : M user.Object A)
  : M World A :=
  fun w =>
    let (r, o) := m {| user.this := user; user.clock := clock w |} in
    (r, {| self := {| user_service := put_user user_id (user.this o) (user_service (self w));
                      _request_count := _request_count (self w) |};
           clock := user.clock o; uuid4_hex := uuid4_hex w;
           drawn := drawn w; stdout := stdout w |}).

(** [ApiResponse(status, message, data)] and [__post_init__] *)
Definition ApiResponse_new (status message : string) (data : option Json)
  (timestamp : string) : M World ApiResponse :=
  if String.eqb timestamp "" then
    t <- now ;;
    ret {| status := status; message := message; data := data;
           timestamp := isoformat t |}
  else
    ret {| status := status; message := message; data := data;
           timestamp := timestamp |}.

(** [ApiResponse.success] *)
Definition success (message : string) (data : option Json) : M World ApiResponse :=
  ApiResponse_new STATUS_SUCCESS message data "".

(** [ApiResponse.error] *)
Definition error (message : string) (data : option Json) : M World ApiResponse :=
  ApiResponse_new STATUS_ERROR message data "".

(** [@log_request] *)
Definition log_request {A} (func_name : string) (func : M World A) : M World A :=
  on_self (fun c =>
    {| user_service := user_service c; _request_count := _request_count c + 1 |}) ;;
  print ("API request: " ++ func_name) ;;
  func.

(** [ApiController._generate_user_id] *)
Definition _generate_user_id (name : string) : M World string :=
  h <- uuid4 ;; ret ("user_" ++ substring 0 8 h).

Definition truthy (s : option string) : bool :=
  match s with
  | Some v => negb (String.eqb v "")
  | None => false
  end.

(** [ApiController.create_user] *)
Definition create_user (request : CreateUserRequest) : M World ApiResponse :=
  log_request "create_user"
    (try_except
       (match cr_name request, cr_email request with
        | Some name, Some email =>
            if String.eqb name "" || String.eqb email ""
            then error "Name and email are required" None
            else
              uid <- _generate_user_id name ;;
              user <- user.new uid name email
                        (match cr_role request with Some r => r | None => "user" end) ;;
              added <- in_service (user_service.add_user user) ;;
              if added then success "User created" (Some (to_dict user))
              else error "User already exists" None
        | _, _ => error "Name and email are required" None
        end)
       (fun e => error ("Internal error: " ++ str_exn e) None)).

(** [ApiController.get_user] *)
Definition get_user (user_id : string) : M World ApiResponse :=
  log_request "get_user"
    (found <- in_service (user_service.find_user user_id) ;;
     match found with
     | Some user => success "User found" (Some (to_dict user))
     | None => error "User not found" None
     end).

(** The [# Update fields] part of [update_user], run on [user]. *)
Definition update_fields (request : UpdateUserRequest) : M user.Object unit :=
  (match up_name request with
   | Some v => set_name v
   | None => ret tt
   end) ;;
  (match up_email request with
   | Some v => set_email v
   | None => ret tt
   end) ;;
  (match up_role request with
   | Some v => user.on_this (with_role v)
   | None => ret tt
   end) ;;
  (match up_age request with
   | Some v => set_age (Some v)
   | None => ret tt
   end).

(** [ApiController.update_user] *)
Definition update_user (user_id : string) (request : UpdateUserRequest)
  : M World ApiResponse :=
  log_request "update_user"
    (found <- in_service (user_service.find_user user_id) ;;
     match found with
     | None => error "User not found" None
     | Some user =>
         d <- on_user user_id user
                (update_fields request ;;
                 gets (fun o => to_dict (user.this o))) ;;
         success "User updated" (Some d)
     end).

(** [ApiController.delete_user] *)
Definition delete_user (user_id : string) : M World ApiResponse :=
  log_request "delete_user"
    (removed <- in_service (user_service.remove_user user_id) ;;
     if removed then success "User deleted" None
     else error "User not found" None).

(** [ApiController.list_users] *)
Definition list_users (role : option string) (limit offset : Z)
  : M World ApiResponse :=
  users <- in_service user_service.get_all_users ;;
  let users :=
    if truthy role
    then filter (fun u => match role with
                          | Some r => String.eqb (user.role u) r
                          | None => false
                          end) users
    else users in
  let paginated := py_slice users offset (offset + limit) in
  success ("Found " ++ str_int (len paginated) ++ " users")
    (Some (JDict [ ("users", JList (map to_dict paginated));
                   ("total", JInt (len users));
                   ("limit", JInt limit);
                   ("offset", JInt offset) ])).

(** The records [list_users] selects from. *)
Definition listed (role : option string) (w : World) : list User :=
  let users := values (user_service._users (user_service.self (user_service (self w)))) in
  if truthy role
  then filter (fun u => match role with
                        | Some r => String.eqb (user.role u) r
                        | None => false
                        end) users
  else users.

(** The registry behind the facade. *)
Definition users_of (w : World) : dict User :=
  user_service._users (user_service.self (user_service (self w))).

(** The name, email and age of a request pass the checks of
    [set_name], [set_email] and [set_age]. *)
Definition acceptable (request : UpdateUserRequest) : bool :=
  match up_name request with Some v => negb (String.eqb v "") | None => true end
  && match up_email request with Some v => _validate_email v | None => true end
  && match up_age request with Some v => 0 <=? v | None => true end.

(** [query_params.get(key, default)] *)
Definition get_or (key default : string) (query_params : dict string) : string :=
  match dict_get key query_params with
  | Some v => v
  | None => default
  end.

(** [parse_pagination_params] *)
Definition parse_pagination_params {S} (query_params : dict string) : M S (Z * Z) :=
  limit <- (fun s => (int (get_or "limit" "100" query_params), s)) ;;
  offset <- (fun s => (int (get_or "offset" "0" query_params), s)) ;;
  let limit := Z.min (Z.max 1 limit) 1000 in
  let offset := Z.max 0 offset in
  ret (limit, offset).

(** [resp.data[key]], for a response whose data is a dict. *)
Definition data_at (key : string) (resp : ApiResponse) : option Json :=
  match data resp with
  | Some (JDict d) => dict_get key d
  | _ => None
  end.

(** The response built from these parts when the clock of [w] is read
    for its timestamp. *)
Definition answer (status message : string) (data : option Json) (w : World)
  : ApiResponse :=
  {| status := status; message := message; data := data;
     timestamp := isoformat (current (clock w)) |}.

(** [w] after a decorated method [func_name] that left [service] behind
    and built one response. *)
Definition after_request (func_name : string) (service : Service) (w : World)
  : World :=
  {| self := {| user_service := service;
                _request_count := _request_count (self w) + 1 |};
     clock := tick (clock w); uuid4_hex := uuid4_hex w; drawn := drawn w;
     stdout := stdout w ++ ["API request: " ++ func_name] |}.

(** The user that [create_user] builds from a name, an email and a role
    in [w]. *)
Definition created (name email : string) (role : option string) (w : World)
  : User :=
  {| OLD_DEFAULT_ROLE := "guest";
     id := "user_" ++ substring 0 8 (uuid4_hex w (drawn w));
     name := name; email := email;
     role := match role with Some r => r | None => "user" end;
     age := None;
     _internal_id :=
       Some ("internal_" ++ "user_" ++ substring 0 8 (uuid4_hex w (drawn w)));
     _User__secret := "";
     created_at := Some (current (clock w)); updated_at := None |}.

End Controller.

Arguments ApiController L : clear implicits.
Arguments World L : clear implicits.

End api_controller.

(** ** Sample objects *)

Module samples.

(** Inputs are strings; the stand-in for [hash] is the length and the
    stand-in for the digest is the string itself. *)
#[global] Instance string_Input : data_processor.Input string :=
  { data_processor.str := fun s => s;
    data_processor.hash := fun s => Z.of_nat (String.length s);
    data_processor.md5_hexdigest := fun s => s }.

(** A validator that accepts everything or nothing. *)
#[global] Instance flag_DataValidator : data_processor.DataValidator bool string :=
  { data_processor.validate := fun accept _ => accept;
    data_processor.get_validation_errors :=
      fun accept _ => if accept then [] else ["rejected"] }.

Definition entry (data : string) (created : Z) : data_processor.ProcessedData string :=
  {| data_processor.id := data_processor._get_cache_key data;
     data_processor.original_data := data;
     data_processor.processed_data := "processed_" ++ data;
     data_processor.processing_time := 0;
     data_processor.timestamp := created |}.

(** A processor with the given validator, bound and cache, no statistics
    yet, under a clock that always reads [t]. *)
Definition processor (validator : option bool) (cache_size : Z)
  (cache : dict (data_processor.ProcessedData string)) (t : Z)
  : data_processor.World string bool :=
  {| data_processor.self :=
       data_processor.set_cache cache (data_processor.init validator cache_size);
     data_processor.clock := {| reading := fun _ => t; reads := 0 |};
     data_processor.calls := [] |}.

(** Two entries, created 2 s and 7 s after the epoch, in a cache of two,
    at 10 s. *)
Definition full_cache : data_processor.World string bool :=
  processor None 2
    [ ("data_1", entry "a" 7000000); ("data_2", entry "bb" 2000000) ]
    10000000.

(** One entry created at the epoch in a cache of one, three hours later. *)
Definition stale_cache : data_processor.World string bool :=
  processor None 1 [ ("data_1", entry "a" 0) ] 10800000000.

Definition empty_cache : data_processor.World string bool :=
  processor None 2 [] 10000000.

Definition rejecting : data_processor.World string bool :=
  processor (Some false) 2 [] 10000000.

(** Listeners: one that returns and one that raises. *)
Inductive Listener : Type := Quiet | Faulty.

#[global] Instance Listener_UserListener {U : Type}
  : user_service.UserListener Listener U :=
  { user_service.on_user_event := fun l _ _ =>
      match l with
      | Quiet => Returned tt
      | Faulty => Raised (Exception "listener failed")
      end }.

(** Listeners of another kind: one that returns and one that is
    interrupted from the keyboard while it runs. *)
Inductive Signal : Type := Steady | Interrupted.

#[global] Instance Signal_UserListener {U : Type}
  : user_service.UserListener Signal U :=
  { user_service.on_user_event := fun l _ _ =>
      match l with
      | Steady => Returned tt
      | Interrupted => Raised KeyboardInterrupt
      end }.

Definition person (id name email role : string) : user.User :=
  {| user.OLD_DEFAULT_ROLE := "guest"; user.id := id; user.name := name;
     user.email := email; user.role := role; user.age := None;
     user._internal_id := Some ("internal_" ++ id); user._User__secret := "";
     user.created_at := Some 0; user.updated_at := None |}.

Definition alice : user.User := person "user_1" "Alice" "alice@example.com" "admin".
Definition bob : user.User := person "user_2" "Bob" "bob@example.com" "user".
Definition carol : user.User := person "user_3" "Carol" "carol@example.com" "user".

(** A registry of at most [max_users] records with a faulty listener
    registered before a quiet one. *)
Definition registry (max_users : Z) (users : dict user.User)
  : user_service.World user.User Listener :=
  {| user_service.self :=
       {| user_service._users := users;
          user_service._UserService__listeners := [Faulty; Quiet];
          user_service.max_users := max_users |};
     user_service.effects := [] |}.

#[global] Instance sample_Runtime : api_controller.Runtime :=
  { api_controller.isoformat := str_int;
    api_controller.int := fun s =>
      match NilZero.int_of_string s with
      | Some i => Returned (Z.of_int i)
      | None =>
          Raised (ValueError ("invalid literal for int() with base 10: '" ++ s ++ "'"))
      end }.

(** A facade over [registry max_users users]. *)
Definition facade (max_users : Z) (users : dict user.User)
  : api_controller.World Listener :=
  {| api_controller.self :=
       {| api_controller.user_service := registry max_users users;
          api_controller._request_count := 0 |};
     api_controller.clock := {| reading := fun n => Z.of_nat n; reads := 0 |};
     api_controller.uuid4_hex := fun _ => "0123456789abcdef0123456789abcdef";
     api_controller.drawn := 0;
     api_controller.stdout := [] |}.

Definition dave : user.User := person "user_4" "Dave" "dave@example.com" "guest".
Definition erin : user.User := person "user_5" "Erin" "erin@example.com" "user".

Definition three_users : dict user.User :=
  [ ("user_1", alice); ("user_2", bob); ("user_3", carol) ].

Definition five_users : dict user.User :=
  (three_users ++ [ ("user_4", dave); ("user_5", erin) ])%list.

(** A request to change the role and nothing else. *)
Definition only_role (r : string) : api_controller.UpdateUserRequest :=
  {| api_controller.up_name := None; api_controller.up_email := None;
     api_controller.up_role := Some r; api_controller.up_age := None |}.

End samples.

(** * Properties *)

Local Open Scope list_scope.

(** ** Running a method body *)

Lemma bind_Returned {S A B} (m : M S A) (k : A -> M S B) s b s' :
  bind m k s = (Returned b, s') ->
  exists a s1, m s = (Returned a, s1) /\ k a s1 = (Returned b, s').
Proof.
  unfold bind. destruct (m s) as [[a|ex] s1]; [eauto|discriminate].
Qed.

Ltac bind_inv H :=
  let a := fresh "a" in
  let s := fresh "s" in
  let Hm := fresh "Hm" in
  apply bind_Returned in H; destruct H as (a & s & Hm & H).

Lemma bind_cases {S A B} (m : M S A) (k : A -> M S B) s r s' :
  bind m k s = (r, s') ->
  (exists ex, m s = (Raised ex, s') /\ r = Raised ex) \/
  (exists a s1, m s = (Returned a, s1) /\ k a s1 = (r, s')).
Proof.
  unfold bind. destruct (m s) as [[a|ex] s1]; [eauto|].
  intros [= <- <-]. eauto.
Qed.

Ltac pure_step H :=
  let ex := fresh "ex" in
  let a := fresh "a" in
  let s := fresh "s" in
  let Hm := fresh "Hm" in
  apply bind_cases in H as [(ex & Hm & ->)|(a & s & Hm & H)];
  [ discriminate Hm | injection Hm as <- <- ].

(** ** Dictionaries, [min] and slices *)

Section DictFacts.
Context {V : Type}.
Implicit Types (d : dict V) (k : string) (v : V).

Lemma dict_get_None d k : dict_get k d = None <-> ~ In k (keys d).
Proof.
  induction d as [|[k' v'] d IH]; simpl; [tauto|].
  destruct (String.eqb_spec k k') as [->|Hne]; split; intros Hx.
  - discriminate.
  - exfalso. apply Hx. now left.
  - intros [Heq|Hin]; [congruence|]. now apply IH in Hx.
  - apply IH. intros Hin. apply Hx. now right.
Qed.

Lemma dict_get_set_same d k v : dict_get k (dict_set k v d) = Some v.
Proof.
  induction d as [|[k' v'] d IH]; simpl.
  - now rewrite String.eqb_refl.
  - destruct (String.eqb_spec k k') as [->|Hne]; simpl.
    + now rewrite String.eqb_refl.
    + destruct (String.eqb_spec k k'); [contradiction|exact IH].
Qed.

Lemma dict_set_new d k v : dict_get k d = None -> dict_set k v d = d ++ [(k, v)].
Proof.
  induction d as [|[k' v'] d IH]; simpl; [reflexivity|].
  destruct (String.eqb_spec k k'); [discriminate|].
  intros Hg. now rewrite IH.
Qed.

Lemma dict_del_split d k v :
  dict_wf d -> In (k, v) d ->
  exists l1 l2, d = l1 ++ (k, v) :: l2 /\ dict_del k d = Some (l1 ++ l2).
Proof.
  unfold dict_wf.
  induction d as [|[k' v'] d IH]; simpl; [tauto|].
  intros Hnd Hin. inversion Hnd as [|? ? Hk' Hd]; subst.
  destruct Hin as [Heq|Hin].
  - inversion Heq; subst. exists [], d. simpl. now rewrite String.eqb_refl.
  - destruct (String.eqb_spec k k') as [->|Hne].
    + exfalso. apply Hk'. change k' with (fst (k', v)). now apply in_map.
    + destruct (IH Hd Hin) as (l1 & l2 & -> & Hdel).
      exists ((k', v') :: l1), l2. simpl. now rewrite Hdel.
Qed.

Lemma dict_set_keys_incl d k v : incl (keys (dict_set k v d)) (k :: keys d).
Proof.
  induction d as [|[k' v'] d IH]; simpl.
  - apply incl_refl.
  - destruct (String.eqb_spec k k') as [->|Hne]; simpl.
    + intros x [<-|Hx]; [now left|]. right. now right.
    + intros x [<-|Hx]; [right; now left|].
      destruct (IH x Hx) as [<-|Hx']; [now left|]. right. now right.
Qed.

Lemma dict_set_wf d k v : dict_wf d -> dict_wf (dict_set k v d).
Proof.
  unfold dict_wf.
  induction d as [|[k' v'] d IH]; simpl; intros Hnd.
  - constructor; [intros []|constructor].
  - inversion Hnd as [|? ? Hk' Hd]; subst.
    destruct (String.eqb_spec k k') as [->|Hne]; simpl.
    + now constructor.
    + constructor; [|auto].
      intros Hin. apply dict_set_keys_incl in Hin.
      destruct Hin as [Heq|Hin]; [congruence|contradiction].
Qed.

Lemma dict_del_keys_incl d k d' :
  dict_del k d = Some d' -> incl (keys d') (keys d).
Proof.
  revert d'. induction d as [|[k' v'] d IH]; simpl; intros d'; [discriminate|].
  destruct (String.eqb k k').
  - intros [= <-]. intros x Hx. now right.
  - destruct (dict_del k d) as [c|]; [|discriminate].
    intros [= <-]. simpl. intros x [<-|Hx]; [now left|]. right. now apply (IH c).
Qed.

Lemma dict_del_wf d k d' : dict_wf d -> dict_del k d = Some d' -> dict_wf d'.
Proof.
  unfold dict_wf.
  revert d'. induction d as [|[k' v'] d IH]; simpl; intros d' Hnd; [discriminate|].
  inversion Hnd as [|? ? Hk' Hd]; subst.
  destruct (String.eqb k k').
  - now intros [= <-].
  - destruct (dict_del k d) as [c|] eqn:Hdel; [|discriminate].
    intros [= <-]. simpl. constructor; [|now apply (IH c)].
    intros Hin. apply Hk'. now apply (dict_del_keys_incl d k c Hdel).
Qed.

End DictFacts.

Lemma dict_get_None_remove {A} (l1 l2 : dict A) k x :
  dict_get k (l1 ++ x :: l2) = None -> dict_get k (l1 ++ l2) = None.
Proof.
  rewrite !dict_get_None. unfold keys. rewrite !map_app. simpl.
  rewrite !in_app_iff. simpl. tauto.
Qed.

Lemma dict_in_false {A} (d : dict A) k : dict_in k d = false -> dict_get k d = None.
Proof. unfold dict_in. now destruct (dict_get k d). Qed.

Lemma dict_get_split {A} (d : dict A) k v :
  dict_get k d = Some v ->
  exists l1 l2, d = l1 ++ (k, v) :: l2 /\ dict_get k l1 = None /\
                dict_del k d = Some (l1 ++ l2).
Proof.
  induction d as [|[k' v'] d IH]; simpl; [discriminate|].
  destruct (String.eqb_spec k k') as [->|Hne].
  - intros [= ->]. exists [], d. auto.
  - intros Hg. destruct (IH Hg) as (l1 & l2 & -> & Hn & Hd).
    exists ((k', v') :: l1), l2. simpl.
    destruct (String.eqb_spec k k'); [contradiction|]. now rewrite Hd.
Qed.

Lemma dict_set_keys {A} (d : dict A) k v v0 :
  dict_get k d = Some v0 -> keys (dict_set k v d) = keys d.
Proof.
  induction d as [|[k' v'] d IH]; simpl; [discriminate|].
  destruct (String.eqb_spec k k') as [->|Hne]; simpl; [reflexivity|].
  intros Hg. now rewrite IH.
Qed.

Lemma py_slice_in_range {A} (l : list A) (offset limit : Z) :
  0 <= offset -> 0 <= limit ->
  py_slice l offset (offset + limit) =
    firstn (Z.to_nat limit) (skipn (Z.to_nat offset) l).
Proof.
  intros Ho Hl. unfold py_slice, slice_bound.
  destruct (Z.ltb_spec offset 0); [lia|].
  destruct (Z.ltb_spec (offset + limit) 0); [lia|].
  destruct (Z.le_gt_cases (len l) offset) as [Hbig|Hsmall].
  - rewrite (Z.min_r offset) by lia.
    rewrite !(skipn_all2 l) by (unfold len in *; lia).
    now rewrite !firstn_nil.
  - rewrite (Z.min_l offset) by lia.
    destruct (Z.le_gt_cases (offset + limit) (len l)).
    + rewrite Z.min_l by lia. f_equal. lia.
    + rewrite Z.min_r by lia.
      rewrite !firstn_all2; try reflexivity;
        rewrite length_skipn; unfold len in *; lia.
Qed.

Section MinFacts.
Context {A : Type} (key : A -> Z).

Lemma min_from_In (l : list A) (best : A) :
  min_from key best l = best \/ In (min_from key best l) l.
Proof.
  revert best. induction l as [|x l IH]; intros best; simpl; [now left|].
  destruct (IH (if key x <? key best then x else best)) as [Heq|Hin].
  - rewrite Heq. destruct (key x <? key best); auto.
  - auto.
Qed.

Lemma min_from_le (l : list A) (best : A) :
  key (min_from key best l) <= key best /\
  forall y, In y l -> key (min_from key best l) <= key y.
Proof.
  revert best. induction l as [|x l IH]; intros best; simpl.
  - split; [lia|tauto].
  - destruct (IH (if key x <? key best then x else best)) as [Hb Hl].
    destruct (Z.ltb_spec (key x) (key best)); split; try lia.
    + intros y [->|Hy]; [lia|auto].
    + intros y [->|Hy]; [lia|auto].
Qed.

Lemma py_min_spec (l : list A) (m : A) :
  py_min key l = Some m -> In m l /\ forall y, In y l -> key m <= key y.
Proof.
  destruct l as [|x l]; simpl; [discriminate|].
  intros [= <-]. split.
  - destruct (min_from_In l x) as [->|Hin]; auto.
  - destruct (min_from_le l x) as [Hb Hl].
    intros y [->|Hy]; auto.
Qed.

Lemma py_min_None (l : list A) : py_min key l = None <-> l = [].
Proof. destruct l; simpl; split; congruence. Qed.

End MinFacts.

(** ** The cache of data_processor.py *)

(** ** Floats *)

Section Floats.

Lemma round_half_even_near (n d : Z) :
  0 < d -> 2 * Z.abs (round_half_even n d * d - n) <= d.
Proof.
  intros Hd. unfold round_half_even.
  pose proof (Z.div_mod n d ltac:(lia)) as Hdm.
  pose proof (Z.mod_pos_bound n d Hd) as Hr.
  destruct (Z.ltb_spec (2 * (n mod d)) d); [nia|].
  destruct (Z.ltb_spec d (2 * (n mod d))); [nia|].
  destruct (Z.even (n / d)); nia.
Qed.

Lemma round_half_even_le (n d z : Z) :
  0 < d -> n <= z * d -> round_half_even n d <= z.
Proof.
  intros Hd Hn. pose proof (round_half_even_near n d Hd) as Hnear.
  assert (round_half_even n d * d < (z + 1) * d) by nia.
  nia.
Qed.

Lemma round_half_even_ge (n d z : Z) :
  0 < d -> z * d <= n -> z <= round_half_even n d.
Proof.
  intros Hd Hn. pose proof (round_half_even_near n d Hd) as Hnear.
  assert ((z - 1) * d < round_half_even n d * d) by nia.
  nia.
Qed.

Lemma binade_lower (a d : Z) :
  0 < a -> 0 < d ->
  d * 2 ^ Z.max 0 (binade a d) <= a * 2 ^ Z.max 0 (- binade a d).
Proof.
  intros Ha Hd. unfold binade.
  set (k := Z.log2 a - Z.log2 d).
  destruct (Z.ltb_spec (a * 2 ^ Z.max 0 (- k)) (d * 2 ^ Z.max 0 k)) as [Hlt|Hge];
    [|exact Hge].
  pose proof (Z.log2_spec a Ha) as [Hla _].
  pose proof (Z.log2_spec d Hd) as [_ Hld].
  pose proof (Z.log2_nonneg a). pose proof (Z.log2_nonneg d).
  rewrite Z.pow_succ_r in Hld by lia.
  (* d < 2 * 2^ld, 2^la <= a *)
  destruct (Z.le_gt_cases 1 k) as [Hk|Hk].
  - replace (Z.max 0 (k - 1)) with (k - 1) by lia.
    replace (Z.max 0 (- (k - 1))) with 0 by lia.
    rewrite Z.pow_0_r, Z.mul_1_r.
    assert (E : 2 ^ Z.log2 a = 2 ^ (k - 1) * (2 * 2 ^ Z.log2 d)).
    { rewrite <- Z.pow_succ_r, <- Z.pow_add_r by lia. f_equal. unfold k. lia. }
    pose proof (Z.pow_pos_nonneg 2 (k - 1) ltac:(lia) ltac:(lia)).
    nia.
  - replace (Z.max 0 (k - 1)) with 0 by lia.
    replace (Z.max 0 (- (k - 1))) with (1 - k) by lia.
    rewrite Z.pow_0_r, Z.mul_1_r.
    assert (E : 2 ^ Z.log2 a * 2 ^ (1 - k) = 2 * 2 ^ Z.log2 d).
    { rewrite <- Z.pow_succ_r, <- Z.pow_add_r by lia. f_equal. unfold k. lia. }
    pose proof (Z.pow_pos_nonneg 2 (1 - k) ltac:(lia) ltac:(lia)).
    nia.
Qed.

Lemma binade_upper (a d : Z) :
  0 < a -> 0 < d ->
  a * 2 ^ Z.max 0 (- binade a d) < 2 * (d * 2 ^ Z.max 0 (binade a d)).
Proof.
  intros Ha Hd. unfold binade.
  set (k := Z.log2 a - Z.log2 d).
  pose proof (Z.log2_spec a Ha) as [_ Hla].
  pose proof (Z.log2_spec d Hd) as [Hld _].
  pose proof (Z.log2_nonneg a). pose proof (Z.log2_nonneg d).
  rewrite Z.pow_succ_r in Hla by lia.
  destruct (Z.ltb_spec (a * 2 ^ Z.max 0 (- k)) (d * 2 ^ Z.max 0 k)) as [Hlt|Hge].
  - destruct (Z.le_gt_cases 1 k) as [Hk|Hk].
    + replace (Z.max 0 (- k)) with 0 in Hlt by lia.
      replace (Z.max 0 k) with k in Hlt by lia.
      replace (Z.max 0 (k - 1)) with (k - 1) by lia.
      replace (Z.max 0 (- (k - 1))) with 0 by lia.
      replace (2 ^ k) with (2 * 2 ^ (k - 1)) in Hlt
        by (rewrite <- Z.pow_succ_r by lia; f_equal; lia).
      lia.
    + replace (Z.max 0 (- k)) with (- k) in Hlt by lia.
      replace (Z.max 0 k) with 0 in Hlt by lia.
      replace (Z.max 0 (k - 1)) with 0 by lia.
      replace (Z.max 0 (- (k - 1))) with (1 - k) by lia.
      replace (2 ^ (1 - k)) with (2 * 2 ^ (- k))
        by (rewrite <- Z.pow_succ_r by lia; f_equal; lia).
      lia.
  - destruct (Z.le_gt_cases 0 k) as [Hk|Hk].
    + replace (Z.max 0 (- k)) with 0 by lia.
      replace (Z.max 0 k) with k by lia.
      assert (E : 2 ^ Z.log2 a = 2 ^ k * 2 ^ Z.log2 d).
      { rewrite <- Z.pow_add_r by lia. f_equal. unfold k. lia. }
      pose proof (Z.pow_pos_nonneg 2 k ltac:(lia) Hk).
      nia.
    + replace (Z.max 0 (- k)) with (- k) by lia.
      replace (Z.max 0 k) with 0 by lia.
      assert (E : 2 ^ Z.log2 a * 2 ^ (- k) = 2 ^ Z.log2 d).
      { rewrite <- Z.pow_add_r by lia. f_equal. unfold k. lia. }
      pose proof (Z.pow_pos_nonneg 2 (- k) ltac:(lia) ltac:(lia)).
      nia.
Qed.

(** Against a whole number of seconds, and for less than [2^34] seconds
    (544 years), the rounding of [total_seconds] does not show. *)
Lemma total_seconds_le_whole (us k : Z) :
  Z.abs us < 2 ^ 34 * 1000000 ->
  (total_seconds us <= inject_Z k)%Q <-> us <= k * 1000000.
Proof.
  intros Hus. unfold total_seconds, nearest_double.
  cbn [Qnum Qden].
  destruct (Z.eqb_spec us 0) as [->|Hne].
  - unfold Qle. simpl. lia.
  - set (b := binade (Z.abs us) 1000000).
    assert (Hb : b <= 33).
    { pose proof (binade_lower (Z.abs us) 1000000 ltac:(lia) ltac:(lia)) as Hl.
      fold b in Hl.
      destruct (Z.le_gt_cases b 33) as [|Hgt]; [assumption|exfalso].
      replace (Z.max 0 b) with b in Hl by lia.
      replace (Z.max 0 (- b)) with 0 in Hl by lia.
      assert (2 ^ 34 <= 2 ^ b) by (apply Z.pow_le_mono_r; lia).
      lia. }
    set (e := Z.max (b - 52) (- 1074)).
    assert (He : e <= - 19) by lia.
    replace (Z.max 0 e) with 0 by lia.
    replace (Z.max 0 (- e)) with (- e) by lia.
    set (s := 2 ^ (- e)).
    assert (Hs : 2 ^ 19 <= s) by (apply Z.pow_le_mono_r; lia).
    rewrite Z.pow_0_r, !Z.mul_1_r.
    unfold Qle. cbn [Qnum Qden inject_Z].
    rewrite Z2Pos.id by lia. rewrite Z.mul_1_r.
    pose proof (round_half_even_near (us * s) 1000000 ltac:(lia)) as Hnear.
    split.
    + intros Hle.
      destruct (Z.le_gt_cases us (k * 1000000)) as [|Hgt]; [assumption|exfalso].
      change (2 ^ 19) with 524288 in Hs. nia.
    + intros Hle. apply round_half_even_le; [lia|]. nia.
Qed.

Lemma nearest_double_significand (a d : Z) :
  0 < a -> 0 < d ->
  let e := binade a d - 52 in
  2 ^ 52 <= round_half_even (a * 2 ^ Z.max 0 (- e)) (d * 2 ^ Z.max 0 e) <= 2 ^ 53.
Proof.
  intros Ha Hd e.
  pose proof (binade_lower a d Ha Hd) as Hlo.
  pose proof (binade_upper a d Ha Hd) as Hup.
  set (b := binade a d) in *.
  assert (Hscale : 2 ^ 52 * (d * 2 ^ Z.max 0 e) <= a * 2 ^ Z.max 0 (- e)
                   < 2 ^ 53 * (d * 2 ^ Z.max 0 e)).
  { unfold e. destruct (Z.le_gt_cases 52 b) as [Hb|Hb].
    - replace (Z.max 0 (b - 52)) with (b - 52) by lia.
      replace (Z.max 0 (- (b - 52))) with 0 by lia.
      replace (Z.max 0 b) with b in * by lia.
      replace (Z.max 0 (- b)) with 0 in * by lia.
      replace (2 ^ b) with (2 ^ 52 * 2 ^ (b - 52)) in *
        by (rewrite <- Z.pow_add_r by lia; f_equal; lia).
      change (2 ^ 53) with (2 * 2 ^ 52). lia.
    - replace (Z.max 0 (b - 52)) with 0 by lia.
      replace (Z.max 0 (- (b - 52))) with (52 - b) by lia.
      rewrite Z.pow_0_r, Z.mul_1_r.
      destruct (Z.le_gt_cases 0 b) as [Hb0|Hb0].
      + replace (Z.max 0 b) with b in * by lia.
        replace (Z.max 0 (- b)) with 0 in * by lia.
        rewrite Z.pow_0_r, Z.mul_1_r in *.
        assert (E : 2 ^ 52 = 2 ^ b * 2 ^ (52 - b))
          by (rewrite <- Z.pow_add_r by lia; f_equal; lia).
        pose proof (Z.pow_pos_nonneg 2 (52 - b) ltac:(lia) ltac:(lia)).
        change (2 ^ 53) with (2 * 2 ^ 52). rewrite E. nia.
      + replace (Z.max 0 b) with 0 in * by lia.
        replace (Z.max 0 (- b)) with (- b) in * by lia.
        rewrite Z.pow_0_r, Z.mul_1_r in *.
        assert (E : 2 ^ (52 - b) = 2 ^ 52 * 2 ^ (- b))
          by (rewrite <- Z.pow_add_r by lia; f_equal; lia).
        change (2 ^ 53) with (2 * 2 ^ 52). rewrite E. nia. }
  assert (0 < d * 2 ^ Z.max 0 e)
    by (apply Z.mul_pos_pos; [lia|apply Z.pow_pos_nonneg; lia]).
  split.
  - apply round_half_even_ge; [assumption|lia].
  - apply round_half_even_le; [assumption|lia].
Qed.

Lemma round_half_even_tie (n d : Z) :
  0 < d -> 2 * (n mod d) = d -> Z.even (round_half_even n d) = true.
Proof.
  intros Hd Htie. unfold round_half_even.
  destruct (Z.ltb_spec (2 * (n mod d)) d); [lia|].
  destruct (Z.ltb_spec d (2 * (n mod d))); [lia|].
  destruct (Z.even (n / d)) eqn:E; [exact E|].
  rewrite Z.even_add, E. reflexivity.
Qed.

End Floats.

Section CacheFacts.
Import data_processor.
Context {T V : Type} `{Input T} `{DataValidator V T}.
Implicit Types (w : World T V) (data : T) (e : ProcessedData T).

Lemma init_wf (validator : option V) (cache_size : Z) :
  dict_wf (_cache (@init T V validator cache_size)).
Proof. constructor. Qed.

Lemma add_to_cache_below w key e :
  len (_cache (self w)) < _max_cache_size (self w) ->
  _add_to_cache key e w =
    (Returned tt,
     {| self := set_cache (dict_set key e (_cache (self w))) (self w);
        clock := clock w; calls := calls w |}).
Proof.
  intros Hlt. unfold _add_to_cache, bind, gets, on_self, modify, ret. simpl.
  destruct (Z.leb_spec (_max_cache_size (self w)) (len (_cache (self w)))); [lia|].
  reflexivity.
Qed.

(** At an empty cache whose bound is not positive, [min] has nothing to
    choose from: the call raises and inserts nothing. *)
Lemma add_to_cache_empty w key e :
  _cache (self w) = [] -> _max_cache_size (self w) <= 0 ->
  _add_to_cache key e w =
    (Raised (ValueError "min() arg is an empty sequence"), w).
Proof.
  intros Hnil Hcap. unfold _add_to_cache, bind, gets, raise. simpl.
  rewrite Hnil. simpl.
  change (len (@nil (string * ProcessedData T))) with 0.
  destruct (Z.leb_spec (_max_cache_size (self w)) 0); [reflexivity|lia].
Qed.

Lemma add_to_cache_full w key e :
  dict_wf (_cache (self w)) ->
  _max_cache_size (self w) <= len (_cache (self w)) ->
  _cache (self w) <> [] ->
  exists l1 oldest_key oldest l2,
    _cache (self w) = l1 ++ (oldest_key, oldest) :: l2 /\
    (forall k' e', In (k', e') (_cache (self w)) -> timestamp oldest <= timestamp e') /\
    _add_to_cache key e w =
      (Returned tt,
       {| self := set_cache (dict_set key e (l1 ++ l2))
                    (set_stats (add_evictions 1 (_stats (self w))) (self w));
          clock := clock w; calls := calls w |}).
Proof.
  intros Hwf Hcap Hne.
  destruct (py_min (fun kv => timestamp (snd kv)) (_cache (self w)))
    as [[ok oe]|] eqn:Hmin.
  2:{ apply py_min_None in Hmin. contradiction. }
  destruct (py_min_spec _ _ _ Hmin) as [Hin Hle].
  destruct (dict_del_split _ _ _ Hwf Hin) as (l1 & l2 & Hsplit & Hdel).
  exists l1, ok, oe, l2. split; [exact Hsplit|]. split.
  - intros k' e' Hin'. exact (Hle (k', e') Hin').
  - unfold _add_to_cache, bind, gets, on_self, modify, ret. simpl.
    destruct (Z.leb_spec (_max_cache_size (self w)) (len (_cache (self w)))); [|lia].
    rewrite Hmin, Hdel. reflexivity.
Qed.

Lemma add_to_cache_stores w key e w' :
  _add_to_cache key e w = (Returned tt, w') ->
  dict_get key (_cache (self w')) = Some e /\
  clock w' = clock w /\ calls w' = calls w /\
  hits (_stats (self w')) = hits (_stats (self w)) /\
  misses (_stats (self w')) = misses (_stats (self w)).
Proof.
  unfold _add_to_cache, bind, gets, on_self, modify, ret, raise. simpl.
  destruct (_max_cache_size (self w) <=? len (_cache (self w))).
  - destruct (py_min _ _) as [[ok oe]|]; [|discriminate].
    destruct (dict_del ok _); [|discriminate].
    intros [= <-]. simpl. now rewrite dict_get_set_same.
  - intros [= <-]. simpl. now rewrite dict_get_set_same.
Qed.

End CacheFacts.

Section Insertion.
Import data_processor.
Context {T V : Type} `{Input T} `{DataValidator V T}.
Implicit Types (w : World T V) (data : T) (e : ProcessedData T).

Lemma add_to_cache_evicts w key e :
  dict_wf (_cache (self w)) ->
  dict_get key (_cache (self w)) = None ->
  _max_cache_size (self w) <= len (_cache (self w)) ->
  _cache (self w) <> [] ->
  exists l1 oldest_key oldest l2 w',
    _add_to_cache key e w = (Returned tt, w') /\
    _cache (self w) = l1 ++ (oldest_key, oldest) :: l2 /\
    (forall k' e', In (k', e') (_cache (self w)) ->
                   timestamp oldest <= timestamp e') /\
    _cache (self w') = l1 ++ l2 ++ [(key, e)] /\
    evictions (_stats (self w')) = evictions (_stats (self w)) + 1.
Proof.
  intros Hwf Hnew Hcap Hne.
  destruct (add_to_cache_full w key e Hwf Hcap Hne)
    as (l1 & ok & oe & l2 & Hsplit & Hmin & Hrun).
  eexists l1, ok, oe, l2, _. split; [exact Hrun|].
  split; [exact Hsplit|]. split; [exact Hmin|]. simpl. split; [|reflexivity].
  rewrite Hsplit in Hnew. apply dict_get_None_remove in Hnew.
  rewrite (dict_set_new _ _ _ Hnew). now rewrite app_assoc.
Qed.

(** C1. Whenever [_add_to_cache] inserts a new entry into a cache that
    holds at least [_max_cache_size] entries, exactly one entry has been
    removed first: one whose [timestamp] is the earliest among all cached
    entries.  Every other entry is kept where it was, the new entry comes
    last, and the eviction counter has grown by one.  The insert takes
    place whenever the cache holds an entry at all.  (A cache can be at
    capacity and empty only under a bound that is not positive; [min]
    then raises and nothing is inserted, see [add_to_cache_empty].) *)
Theorem add_to_cache_evicts_oldest w key e :
  dict_wf (_cache (self w)) ->
  dict_get key (_cache (self w)) = None ->
  _max_cache_size (self w) <= len (_cache (self w)) ->
  (_cache (self w) <> [] ->
   exists w', _add_to_cache key e w = (Returned tt, w')) /\
  (forall w',
     _add_to_cache key e w = (Returned tt, w') ->
     exists l1 oldest_key oldest l2,
       _cache (self w) = l1 ++ (oldest_key, oldest) :: l2 /\
       (forall k' e', In (k', e') (_cache (self w)) ->
                      timestamp oldest <= timestamp e') /\
       _cache (self w') = l1 ++ l2 ++ [(key, e)] /\
       evictions (_stats (self w')) = evictions (_stats (self w)) + 1).
Proof.
  intros Hwf Hnew Hcap. split.
  - intros Hne.
    destruct (add_to_cache_evicts w key e Hwf Hnew Hcap Hne)
      as (_ & _ & _ & _ & w' & Hrun & _). eauto.
  - intros w' Hrun.
    assert (Hd : _cache (self w) = [] \/ _cache (self w) <> [])
      by (destruct (_cache (self w)); [left|right]; congruence).
    destruct Hd as [Hc|Hne].
    + rewrite add_to_cache_empty in Hrun; [discriminate|exact Hc|].
      rewrite Hc in Hcap. exact Hcap.
    + destruct (add_to_cache_evicts w key e Hwf Hnew Hcap Hne)
        as (l1 & ok & oe & l2 & w2 & Hrun2 & Hrest).
      rewrite Hrun2 in Hrun. injection Hrun as <-.
      exists l1, ok, oe, l2. exact Hrest.
Qed.

Lemma process_hit w data e :
  dict_get (_get_cache_key data) (_cache (self w)) = Some e ->
  exists w',
    process data w = (Returned e, w') /\
    _cache (self w') = _cache (self w) /\
    hits (_stats (self w')) = hits (_stats (self w)) + 1 /\
    misses (_stats (self w')) = misses (_stats (self w)) /\
    evictions (_stats (self w')) = evictions (_stats (self w)) /\
    calls w' = calls w /\ clock w' = clock w.
Proof.
  intros Hget. eexists. split.
  - unfold process, pre_process, bind, gets, on_self, modify, ret. simpl.
    rewrite Hget. reflexivity.
  - simpl. repeat split; reflexivity.
Qed.

Lemma process_returns_cached w data e w1 :
  process data w = (Returned e, w1) ->
  dict_get (_get_cache_key data) (_cache (self w1)) = Some e.
Proof.
  destruct (dict_get (_get_cache_key data) (_cache (self w))) as [c|] eqn:Hget.
  - destruct (process_hit w data c Hget) as (w' & Hrun & Hc & _).
    rewrite Hrun. intros [= <- <-]. now rewrite Hc.
  - intros Hrun. unfold process in Hrun.
    bind_inv Hrun. unfold pre_process, bind, on_self, modify, ret in Hm.
    injection Hm as <- <-.
    bind_inv Hrun. injection Hm as <- <-. simpl in Hrun. rewrite Hget in Hrun.
    do 6 bind_inv Hrun. bind_inv Hrun.
    unfold post_process, ret in Hrun. injection Hrun as <- <-.
    destruct a5. now apply add_to_cache_stores in Hm5.
Qed.

(** C2 (amended). Whenever a call of [process] returns an entry, that
    entry is the one cached under the input's key, and calling [process]
    again with the same input returns that very entry: one more hit, no
    more misses, the cache untouched, and no further call to the
    validator or to the transformation. *)
Theorem process_twice_hits w data e w1 :
  process data w = (Returned e, w1) ->
  dict_get (_get_cache_key data) (_cache (self w1)) = Some e /\
  exists w2,
    process data w1 = (Returned e, w2) /\
    hits (_stats (self w2)) = hits (_stats (self w1)) + 1 /\
    misses (_stats (self w2)) = misses (_stats (self w1)) /\
    _cache (self w2) = _cache (self w1) /\
    calls w2 = calls w1.
Proof.
  intros Hrun. pose proof (process_returns_cached _ _ _ _ Hrun) as Hc.
  split; [exact Hc|].
  destruct (process_hit w1 data e Hc) as (w2 & Hrun2 & Hcache & Hh & Hm & _ & Hcalls & _).
  exists w2. auto.
Qed.

End Insertion.

Section Expiry.
Import data_processor.
Context {T V : Type} `{Input T} `{DataValidator V T}.
Implicit Types (w : World T V) (e : ProcessedData T) (d : dict (ProcessedData T)).

Lemma later_0 w : later 0 w = w.
Proof.
  destruct w as [p [r n] c]. unfold later. simpl. now rewrite Nat.add_0_r.
Qed.

Lemma is_expired_run e ttl w :
  is_expired e ttl w =
    (Returned (negb (Qle_bool (age_at (current (clock w)) e) ttl)), later 1 w).
Proof.
  unfold is_expired, age_seconds, bind, now, ret, later, tick. simpl.
  now rewrite Nat.add_1_r.
Qed.

Lemma scan_expired ttl d : forall w,
  comprehension_if d (fun kv => is_expired (snd kv) ttl) w =
    (Returned (scan true (reading (clock w)) ttl (reads (clock w)) d),
     later (List.length d) w).
Proof.
  induction d as [|kv d IH]; intros w; simpl.
  - unfold ret. now rewrite later_0.
  - unfold bind at 1. rewrite is_expired_run.
    unfold bind at 1. rewrite IH. unfold ret, later, current. simpl.
    rewrite Nat.add_1_r, Nat.add_succ_r. simpl.
    now destruct (negb (Qle_bool _ ttl)).
Qed.

Lemma dict_del_filter d k :
  dict_wf d -> In k (keys d) ->
  dict_del k d = Some (without [k] d).
Proof.
  unfold dict_wf, without.
  induction d as [|[k' v'] d IH]; simpl; [tauto|].
  intros Hnd Hin. inversion Hnd as [|? ? Hk' Hd]; subst.
  rewrite (String.eqb_sym k' k).
  destruct (String.eqb_spec k k') as [->|Hne]; simpl.
  - f_equal. symmetry. apply forallb_filter_id. apply forallb_forall.
    intros [k1 v1] Hin1. simpl.
    destruct (String.eqb_spec k1 k') as [->|]; [|reflexivity].
    exfalso. apply Hk'. change k' with (fst (k', v1)). now apply in_map.
  - destruct Hin as [Heq|Hin]; [congruence|]. now rewrite (IH Hd Hin).
Qed.

Lemma without_keys ks d : incl (keys (without ks d)) (keys d).
Proof.
  unfold without, keys. intros k Hin. apply in_map_iff in Hin.
  destruct Hin as (kv & <- & Hin). apply filter_In in Hin. apply in_map. tauto.
Qed.

Lemma without_wf ks d : dict_wf d -> dict_wf (without ks d).
Proof.
  unfold dict_wf, without, keys.
  induction d as [|kv d IH]; simpl; [auto|].
  intros Hnd. inversion Hnd as [|? ? Hk Hd]; subst.
  destruct (negb _); [|auto]. simpl. constructor; [|auto].
  intros Hin. apply Hk. apply (without_keys ks d). exact Hin.
Qed.

Lemma without_cons k ks d : without (k :: ks) d = without ks (without [k] d).
Proof.
  unfold without. induction d as [|kv d IH]; simpl in *; [reflexivity|].
  destruct (String.eqb (fst kv) k); simpl; [exact IH|].
  destruct (existsb _ ks); simpl; now rewrite IH.
Qed.

Lemma In_keys_without k k' d :
  In k (keys d) -> k <> k' -> In k (keys (without [k'] d)).
Proof.
  unfold without, keys. intros Hin Hne. apply in_map_iff in Hin.
  destruct Hin as ([k1 v1] & Hk & Hin). simpl in Hk. subst k1.
  apply in_map_iff. exists (k, v1). split; [reflexivity|].
  apply filter_In. split; [exact Hin|]. simpl.
  destruct (String.eqb_spec k k'); [contradiction|reflexivity].
Qed.

Lemma delete_each_run ks : forall w,
  dict_wf (_cache (self w)) -> NoDup ks -> incl ks (keys (_cache (self w))) ->
  for_each ks (fun key =>
    p <- gets self ;;
    match dict_del key (_cache p) with
    | None => raise (KeyError key)
    | Some c =>
        on_self (set_cache c) ;;
        on_self (fun p => set_stats (add_evictions 1 (_stats p)) p)
    end) w =
    (Returned tt,
     {| self := set_cache (without ks (_cache (self w)))
                  (set_stats (add_evictions (len ks) (_stats (self w))) (self w));
        clock := clock w; calls := calls w |}).
Proof.
  induction ks as [|k ks IH]; intros w Hwf Hnd Hincl; simpl.
  - unfold ret, without, add_evictions, set_stats, set_cache. simpl.
    rewrite forallb_filter_id by (apply forallb_forall; reflexivity).
    destruct w as [[n c [h m ev sz] v mx] cl cs]. simpl.
    now rewrite Z.add_0_r.
  - inversion Hnd as [|? ? Hk Hks]; subst.
    unfold bind at 1 2. unfold gets at 1.
    rewrite (dict_del_filter _ k Hwf) by (apply Hincl; now left).
    unfold bind at 1. unfold on_self, modify.
    rewrite IH; simpl.
    + rewrite <- without_cons.
      unfold set_stats, add_evictions, set_cache. simpl.
      replace (evictions (_stats (self w)) + 1 + len ks)
        with (evictions (_stats (self w)) + len (k :: ks)); [reflexivity|].
      unfold len. simpl List.length. lia.
    + now apply without_wf.
    + exact Hks.
    + intros k1 Hk1. apply In_keys_without.
      * apply Hincl. now right.
      * intros ->. contradiction.
Qed.

Lemma scan_keys b r ttl d : forall n, incl (keys (scan b r ttl n d)) (keys d).
Proof.
  induction d as [|kv d IH]; intros n; simpl; [apply incl_refl|].
  destruct (Bool.eqb _ b); simpl.
  - intros k [<-|Hin]; [now left|]. right. now apply (IH (S n)).
  - intros k Hin. right. now apply (IH (S n)).
Qed.

Lemma scan_wf b r ttl d : forall n, dict_wf d -> dict_wf (scan b r ttl n d).
Proof.
  unfold dict_wf.
  induction d as [|kv d IH]; intros n Hnd; simpl; [constructor|].
  inversion Hnd as [|? ? Hk Hd]; subst.
  destruct (Bool.eqb _ b); simpl; [|auto].
  constructor; [|auto]. intros Hin. apply Hk. now apply (scan_keys b r ttl d (S n)).
Qed.

Lemma scan_In b r ttl d kv : forall n,
  In kv (scan b r ttl n d) <->
  exists i, nth_error d i = Some kv /\
            negb (Qle_bool (age_at (r (n + i)%nat) (snd kv)) ttl) = b.
Proof.
  induction d as [|x d IH]; intros n; simpl.
  - split; [tauto|]. intros [[|i] [Hi _]]; discriminate.
  - destruct (Bool.eqb _ b) eqn:E; simpl; rewrite IH; split.
    + intros [->|(i & Hi & Hb)].
      * exists 0%nat. rewrite Nat.add_0_r. split; [reflexivity|].
        now apply Bool.eqb_prop.
      * exists (S i). now rewrite Nat.add_succ_r.
    + intros ([|i] & Hi & Hb); simpl in Hi.
      * left. congruence.
      * right. exists i. now rewrite Nat.add_succ_r in Hb.
    + intros (i & Hi & Hb). exists (S i). now rewrite Nat.add_succ_r.
    + intros ([|i] & Hi & Hb); simpl in Hi.
      * injection Hi as ->. rewrite Nat.add_0_r in Hb. rewrite Hb in E.
        now rewrite Bool.eqb_reflx in E.
      * exists i. now rewrite Nat.add_succ_r in Hb.
Qed.

Lemma scan_length r ttl d : forall n,
  len (scan true r ttl n d) + len (scan false r ttl n d) = len d.
Proof.
  unfold len.
  induction d as [|kv d IH]; intros n; simpl List.length; [reflexivity|].
  specialize (IH (S n)). simpl scan.
  destruct (negb _); simpl Bool.eqb; cbv iota; simpl List.length; lia.
Qed.

Lemma without_absent k ks d :
  ~ In k (keys d) -> without (k :: ks) d = without ks d.
Proof.
  unfold without. intros Hk. apply filter_ext_in. intros [k1 v1] Hin. simpl.
  destruct (String.eqb_spec k1 k) as [->|]; [|reflexivity].
  exfalso. apply Hk. change k with (fst (k, v1)). now apply in_map.
Qed.

Lemma without_keep ks k e d :
  ~ In k ks -> without ks ((k, e) :: d) = (k, e) :: without ks d.
Proof.
  unfold without. intros Hk. simpl.
  destruct (existsb (String.eqb k) ks) eqn:E; [|reflexivity].
  apply existsb_exists in E. destruct E as (k1 & Hin & Heq).
  apply String.eqb_eq in Heq. subst k1. contradiction.
Qed.

Lemma without_scan r ttl d : forall n,
  dict_wf d -> without (keys (scan true r ttl n d)) d = scan false r ttl n d.
Proof.
  unfold dict_wf.
  induction d as [|[k e] d IH]; intros n Hnd; [reflexivity|].
  inversion Hnd as [|? ? Hk Hd]; subst. simpl scan.
  destruct (negb _); simpl Bool.eqb; cbv iota.
  - rewrite <- (IH (S n) Hd), <- (without_absent k _ d Hk).
    unfold without, keys. simpl. now rewrite String.eqb_refl.
  - rewrite without_keep.
    + f_equal. now apply IH.
    + intros Hin. apply Hk. now apply (scan_keys true r ttl d (S n)).
Qed.

Lemma wf_nth_error_inj d i j k e e' :
  dict_wf d -> nth_error d i = Some (k, e) -> nth_error d j = Some (k, e') ->
  i = j.
Proof.
  unfold dict_wf, keys. intros Hnd Hi Hj.
  apply (proj1 (NoDup_nth_error (map fst d)) Hnd).
  - rewrite length_map. apply nth_error_Some. congruence.
  - rewrite !nth_error_map, Hi, Hj. reflexivity.
Qed.

Lemma remove_expired_run w ttl :
  dict_wf (_cache (self w)) ->
  remove_expired ttl w =
    (Returned (len (scan true (reading (clock w)) ttl (reads (clock w)) (_cache (self w)))),
     {| self :=
          set_cache (scan false (reading (clock w)) ttl (reads (clock w)) (_cache (self w)))
            (set_stats
               (add_evictions
                  (len (scan true (reading (clock w)) ttl (reads (clock w))
                          (_cache (self w))))
                  (_stats (self w)))
               (self w));
        clock := clock (later (List.length (_cache (self w))) w);
        calls := calls w |}).
Proof.
  intros Hwf.
  unfold remove_expired. unfold bind at 1. unfold gets at 1.
  unfold bind at 1. rewrite scan_expired.
  unfold bind at 1. rewrite delete_each_run.
  - unfold ret, later. simpl. rewrite without_scan by exact Hwf.
    unfold keys, len. now rewrite length_map.
  - exact Hwf.
  - apply (scan_wf true). exact Hwf.
  - apply scan_keys.
Qed.

Lemma remove_expired_keeps_wf w ttl :
  dict_wf (_cache (self w)) ->
  dict_wf (_cache (self (snd (remove_expired ttl w)))).
Proof.
  intros Hwf. rewrite (remove_expired_run w ttl Hwf). simpl. now apply scan_wf.
Qed.

Lemma scan_kept_from r ttl d : forall n k,
  scan false r ttl (n + k) d =
    map snd (filter (fun ie =>
                       Qle_bool (total_seconds (r (n + fst ie)%nat
                                                - timestamp (snd (snd ie)))) ttl)
               (combine (seq k (List.length d)) d)).
Proof.
  induction d as [|kv d IH]; intros n k; [reflexivity|].
  simpl. unfold age_at.
  specialize (IH n (S k)). rewrite Nat.add_succ_r in IH.
  destruct (Qle_bool (total_seconds (r (n + k)%nat - timestamp (snd kv))) ttl);
    simpl; now rewrite IH.
Qed.

Lemma scan_kept_positions r ttl d n :
  scan false r ttl n d =
    map snd (filter (fun ie =>
                       Qle_bool (total_seconds (r (n + fst ie)%nat
                                                - timestamp (snd (snd ie)))) ttl)
               (combine (seq 0 (List.length d)) d)).
Proof.
  rewrite <- (scan_kept_from r ttl d n 0). now rewrite Nat.add_0_r.
Qed.

Lemma later_later a b w : later a (later b w) = later (b + a) w.
Proof.
  unfold later. simpl. now rewrite Nat.add_assoc.
Qed.

Lemma valid_values_from ttl (l : list (ProcessedData T)) : forall w n k,
  reads (clock w) = (n + k)%nat ->
  comprehension_if l (fun x => b <- is_expired x ttl ;; ret (negb b)) w =
    (Returned
       (map snd (filter (fun ie =>
                           Qle_bool (total_seconds
                                       (reading (clock w) (n + fst ie)%nat
                                        - timestamp (snd ie))) ttl)
                   (combine (seq k (List.length l)) l))),
     later (List.length l) w).
Proof.
  induction l as [|x l IH]; intros w n k Hn.
  - simpl. unfold ret. now rewrite later_0.
  - simpl comprehension_if. unfold bind at 1 2. rewrite is_expired_run.
    unfold ret at 1. unfold bind at 1.
    rewrite (IH (later 1 w) n (S k)) by (simpl; lia).
    rewrite later_later. unfold ret. simpl.
    unfold current, age_at. rewrite Hn, Bool.negb_involutive.
    destruct (Qle_bool (total_seconds (reading (clock w) (n + k)%nat - timestamp x)) ttl);
      reflexivity.
Qed.

Lemma valid_values_run ttl (l : list (ProcessedData T)) w :
  comprehension_if l (fun x => b <- is_expired x ttl ;; ret (negb b)) w =
    (Returned
       (map snd (filter (fun ie =>
                           Qle_bool (total_seconds
                                       (reading (clock w) (reads (clock w) + fst ie)%nat
                                        - timestamp (snd ie))) ttl)
                   (combine (seq 0 (List.length l)) l))),
     later (List.length l) w).
Proof.
  apply valid_values_from. now rewrite Nat.add_0_r.
Qed.

(** C3 (amended). [remove_expired ttl] scans the cache once.  The age
    of an entry is what [timedelta.total_seconds()] makes of the clock's
    reading at its turn minus its [timestamp]: the double nearest to that
    number of seconds.  The call returns, and afterwards the cache holds,
    in their order, exactly the entries whose age did not exceed [ttl];
    the others are gone.  Against a time to live of whole seconds, and
    for entries younger than [2^34] seconds, those are exactly the
    entries for which the reading minus the [timestamp] did not exceed
    it.  The eviction counter has grown by the number of entries removed,
    which is the value returned; hits and misses are as they were. *)
Theorem remove_expired_removes_expired w ttl :
  dict_wf (_cache (self w)) ->
  let cache := _cache (self w) in
  let now (i : nat) := reading (clock w) (reads (clock w) + i)%nat in
  let age (i : nat) (e : ProcessedData T) := total_seconds (now i - timestamp e) in
  let kept :=
    map snd (filter (fun ie => Qle_bool (age (fst ie) (snd (snd ie))) ttl)
               (combine (seq 0 (List.length cache)) cache)) in
  exists w',
    remove_expired ttl w = (Returned (len cache - len kept), w') /\
    _cache (self w') = kept /\
    (forall i k e, nth_error cache i = Some (k, e) ->
       (In (k, e) (_cache (self w')) <-> (age i e <= ttl)%Q)) /\
    (forall i k e seconds,
       nth_error cache i = Some (k, e) ->
       (ttl == inject_Z seconds)%Q ->
       Z.abs (now i - timestamp e) < 2 ^ 34 * 1000000 ->
       (In (k, e) (_cache (self w')) <->
        now i - timestamp e <= seconds * 1000000)) /\
    evictions (_stats (self w')) =
      evictions (_stats (self w)) + (len cache - len kept) /\
    hits (_stats (self w')) = hits (_stats (self w)) /\
    misses (_stats (self w')) = misses (_stats (self w)).
Proof.
  intros Hwf cache now age kept.
  pose proof (remove_expired_run w ttl Hwf) as Hrun.
  set (r := reading (clock w)) in *. set (n := reads (clock w)) in *.
  fold cache in Hrun.
  pose proof (scan_length r ttl cache n) as Hlen.
  assert (Hkept : scan false r ttl n cache = kept) by apply scan_kept_positions.
  rewrite Hkept in Hrun, Hlen.
  match type of Hrun with _ = (_, ?w') => exists w' end.
  assert (Hin : forall i k e, nth_error cache i = Some (k, e) ->
                  (In (k, e) kept <-> (age i e <= ttl)%Q)).
  { rewrite <- Hkept. intros i k e Hi. rewrite scan_In. split.
    - intros (j & Hj & Hb).
      rewrite (wf_nth_error_inj cache i j k e e Hwf Hi Hj).
      simpl in Hb. apply Bool.negb_false_iff in Hb. now apply Qle_bool_iff.
    - intros Hle. exists i. split; [exact Hi|]. simpl.
      apply Bool.negb_false_iff. now apply Qle_bool_iff. }
  split; [|split; [|split; [|split; [|split; [|split]]]]].
  - rewrite Hrun. f_equal. f_equal. lia.
  - reflexivity.
  - exact Hin.
  - simpl. intros i k e seconds Hi Httl Hage.
    rewrite (Hin i k e Hi). unfold age. rewrite Httl.
    now apply total_seconds_le_whole.
  - simpl. lia.
  - reflexivity.
  - reflexivity.
Qed.

End Expiry.

Section Hits.
Import data_processor.
Context {T V : Type} `{Input T} `{DataValidator V T}.
Implicit Types (w : World T V) (e : ProcessedData T) (d : dict (ProcessedData T)).

Lemma add_to_cache_removed w key e r w' :
  dict_wf (_cache (self w)) ->
  dict_get key (_cache (self w)) = None ->
  _add_to_cache key e w = (r, w') ->
  forall k0 e0,
    In (k0, e0) (_cache (self w)) -> ~ In (k0, e0) (_cache (self w')) ->
    _max_cache_size (self w) <= len (_cache (self w)) /\
    forall k' e', In (k', e') (_cache (self w)) -> timestamp e0 <= timestamp e'.
Proof.
  intros Hwf Hnew Hrun k0 e0 Hin Hout.
  destruct (Z.leb_spec (_max_cache_size (self w)) (len (_cache (self w))))
    as [Hcap|Hlt].
  - split; [exact Hcap|].
    assert (Hne : _cache (self w) <> []) by (intros E; rewrite E in Hin; inversion Hin).
    destruct (add_to_cache_evicts w key e Hwf Hnew Hcap Hne)
      as (l1 & ok & oe & l2 & w2 & Hrun2 & Hsplit & Hmin & Hc & _).
    rewrite Hrun2 in Hrun. injection Hrun as <- <-.
    rewrite Hc in Hout. rewrite Hsplit in Hin.
    apply in_app_iff in Hin. simpl in Hin.
    destruct Hin as [Hin|[Heq|Hin]].
    + exfalso. apply Hout. apply in_app_iff. now left.
    + injection Heq as <- <-. exact Hmin.
    + exfalso. apply Hout. rewrite !in_app_iff. auto.
  - exfalso. rewrite (add_to_cache_below w key e Hlt) in Hrun.
    injection Hrun as <- <-. apply Hout. simpl.
    rewrite (dict_set_new _ _ _ Hnew). apply in_app_iff. now left.
Qed.

Lemma process_miss_shape w data r w' :
  dict_get (_get_cache_key data) (_cache (self w)) = None ->
  process data w = (r, w') ->
  _cache (self w') = _cache (self w) \/
  exists e (wa : World T V) ra,
    _cache (self wa) = _cache (self w) /\
    _max_cache_size (self wa) = _max_cache_size (self w) /\
    _add_to_cache (_get_cache_key data) e wa = (ra, w').
Proof.
  intros Hnew Hrun.
  unfold process, pre_process, _do_processing, post_process, record in Hrun.
  unfold bind at 1 2 3 4 in Hrun. unfold gets, on_self, modify, ret in Hrun.
  simpl in Hrun. rewrite Hnew in Hrun.
  apply bind_cases in Hrun as [(ex & Hm & ->)|(a & s1 & Hm & Hrun)];
    [discriminate|]. injection Hm as <- <-.
  assert (Hval : forall rv wv,
    match _validator (self w) with
    | Some v =>
        (fun s : World T V =>
           (Returned tt,
            {| self := self s; clock := clock s;
               calls := calls s ++ [CallValidate data] |})) ;;
        (if validate v data
         then fun s : World T V => (Returned tt, s)
         else
           (fun s : World T V =>
              (Returned tt,
               {| self := self s; clock := clock s;
                  calls := calls s ++ [CallGetValidationErrors data] |})) ;;
           raise (ValueError
                    ("Invalid data: " ++ str_of_list (get_validation_errors v data))%string))
    | None => fun s : World T V => (Returned tt, s)
    end
      {| self := set_stats (add_miss (_stats (self w)))
                  {| _processing_count := _processing_count (self w) + 1;
                     _cache := _cache (self w); _stats := _stats (self w);
                     _validator := _validator (self w);
                     _max_cache_size := _max_cache_size (self w) |};
         clock := clock w; calls := calls w |} = (rv, wv) ->
    _cache (self wv) = _cache (self w) /\
    _max_cache_size (self wv) = _max_cache_size (self w)).
  { intros rv wv. destruct (_validator (self w)) as [v|].
    - unfold bind, raise. simpl. destruct (validate v data); intros [= <- <-]; now simpl.
    - intros [= <- <-]. now simpl. }
  apply bind_cases in Hrun as [(ex & Hm & ->)|(a & s1 & Hm & Hrun)];
    apply Hval in Hm; destruct Hm as [Hc Hmax].
  { now left. }
  clear Hval. do 4 pure_step Hrun. right.
  apply bind_cases in Hrun as [(ex & Hm & ->)|(a' & s2 & Hm & Hrun)].
  - eexists _, _, _. split; [|split; [|exact Hm]]; assumption.
  - injection Hrun as <- <-.
    eexists _, _, _. split; [|split; [|exact Hm]]; assumption.
Qed.

Lemma process_miss_removed w data r w' :
  dict_wf (_cache (self w)) ->
  dict_get (_get_cache_key data) (_cache (self w)) = None ->
  process data w = (r, w') ->
  forall k0 e0,
    In (k0, e0) (_cache (self w)) -> ~ In (k0, e0) (_cache (self w')) ->
    _max_cache_size (self w) <= len (_cache (self w)) /\
    forall k' e', In (k', e') (_cache (self w)) -> timestamp e0 <= timestamp e'.
Proof.
  intros Hwf Hnew Hrun k0 e0 Hin Hout.
  destruct (process_miss_shape w data r w' Hnew Hrun)
    as [Hsame|(e & wa & ra & Hc & Hmax & Hadd)].
  - exfalso. apply Hout. now rewrite Hsame.
  - rewrite <- Hc, <- Hmax. rewrite <- Hc in Hwf, Hnew, Hin.
    exact (add_to_cache_removed wa _ e ra w' Hwf Hnew Hadd k0 e0 Hin Hout).
Qed.

Lemma process_removes_only_oldest w data r w' :
  dict_wf (_cache (self w)) ->
  process data w = (r, w') ->
  forall k e,
    In (k, e) (_cache (self w)) -> ~ In (k, e) (_cache (self w')) ->
    dict_get (_get_cache_key data) (_cache (self w)) = None /\
    _max_cache_size (self w) <= len (_cache (self w)) /\
    forall k' e', In (k', e') (_cache (self w)) -> timestamp e <= timestamp e'.
Proof.
  intros Hwf Hrun k e Hin Hout.
  destruct (dict_get (_get_cache_key data) (_cache (self w))) as [c|] eqn:Hget.
  - exfalso. destruct (process_hit w data c Hget) as (w2 & Hrun2 & Hc & _).
    rewrite Hrun2 in Hrun. injection Hrun as <- <-. apply Hout. now rewrite Hc.
  - split; [reflexivity|].
    exact (process_miss_removed w data r w' Hwf Hget Hrun k e Hin Hout).
Qed.

(** C10 (amended). [process] never looks at the age of an entry.  On a
    hit it returns the stored entry, counts the hit and leaves the cache
    and the clock as they were, however old the entry is.  The only entry
    a call of [process] can make disappear is one with the earliest
    [timestamp], on a miss with the cache at capacity; that entry may be
    an expired one.  [iter_valid_data] yields, in cache order, the
    entries whose age at their turn does not exceed the time to live,
    skipping the others, and removes nothing. *)
Theorem process_hit_ignores_age w data :
  dict_wf (_cache (self w)) ->
  (forall e,
     dict_get (_get_cache_key data) (_cache (self w)) = Some e ->
     exists w',
       process data w = (Returned e, w') /\
       hits (_stats (self w')) = hits (_stats (self w)) + 1 /\
       _cache (self w') = _cache (self w) /\
       clock w' = clock w) /\
  (forall r w' k e,
     process data w = (r, w') ->
     In (k, e) (_cache (self w)) -> ~ In (k, e) (_cache (self w')) ->
     dict_get (_get_cache_key data) (_cache (self w)) = None /\
     _max_cache_size (self w) <= len (_cache (self w)) /\
     forall k' e', In (k', e') (_cache (self w)) -> timestamp e <= timestamp e') /\
  (forall ttl,
     let entries := values (_cache (self w)) in
     let fresh (ie : nat * ProcessedData T) :=
       Qle_bool (total_seconds (reading (clock w) (reads (clock w) + fst ie)%nat
                                - timestamp (snd ie))) ttl in
     iter_valid_data ttl w =
       (Returned (map snd (filter fresh
                             (combine (seq 0 (List.length entries)) entries))),
        {| self := self w;
           clock := {| reading := reading (clock w);
                       reads := (reads (clock w) + List.length entries)%nat |};
           calls := calls w |})).
Proof.
  intros Hwf. split; [|split].
  - intros e Hget.
    destruct (process_hit w data e Hget) as (w' & Hrun & Hc & Hh & _ & _ & _ & Hcl).
    exists w'. auto.
  - intros r w' k e Hrun. exact (process_removes_only_oldest w data r w' Hwf Hrun k e).
  - intros ttl. cbv zeta. unfold iter_valid_data. unfold bind at 1. unfold gets.
    unfold bind at 1. rewrite valid_values_run. reflexivity.
Qed.

(** [process] returns whenever the validator, if there is one, accepts
    the input and the cache is below its bound or holds an entry. *)
Lemma process_returns w data :
  dict_wf (_cache (self w)) ->
  (forall v, _validator (self w) = Some v -> validate v data = true) ->
  len (_cache (self w)) < _max_cache_size (self w) \/ _cache (self w) <> [] ->
  exists e w', process data w = (Returned e, w').
Proof.
  intros Hwf Hval Hroom.
  destruct (dict_get (_get_cache_key data) (_cache (self w))) as [c|] eqn:Hget.
  { destruct (process_hit w data c Hget) as (w' & Hrun & _). eauto. }
  assert (Hadd : forall e (wa : World T V),
            _cache (self wa) = _cache (self w) ->
            _max_cache_size (self wa) = _max_cache_size (self w) ->
            exists wb, _add_to_cache (_get_cache_key data) e wa = (Returned tt, wb)).
  { intros e wa Hc Hmax.
    destruct (Z.leb_spec (_max_cache_size (self w)) (len (_cache (self w)))) as [Hcap|Hlt].
    - destruct Hroom as [Hlt|Hne]; [lia|].
      destruct (add_to_cache_full wa (_get_cache_key data) e)
        as (l1 & ok & oe & l2 & _ & _ & Hrun); rewrite ?Hc, ?Hmax; eauto.
    - rewrite add_to_cache_below by (rewrite Hc, Hmax; exact Hlt). eauto. }
  unfold process, pre_process, _do_processing, post_process, record.
  unfold bind at 1 2 3 4. unfold gets, on_self, modify, ret. simpl.
  rewrite Hget. unfold bind at 1. unfold bind at 1.
  destruct (_validator (self w)) as [v|] eqn:Hv.
  - rewrite (Hval v eq_refl). unfold bind at 1. unfold bind, now. simpl.
    match goal with
    | |- context [_add_to_cache ?k ?e ?wa] =>
        destruct (Hadd e wa eq_refl eq_refl) as (wb & ->)
    end. eauto.
  - unfold bind, now. simpl.
    match goal with
    | |- context [_add_to_cache ?k ?e ?wa] =>
        destruct (Hadd e wa eq_refl eq_refl) as (wb & ->)
    end. eauto.
Qed.

(** Keys stay unique: the cache remains a dict. *)
Lemma add_to_cache_keeps_wf w key e r w' :
  dict_wf (_cache (self w)) ->
  _add_to_cache key e w = (r, w') ->
  dict_wf (_cache (self w')).
Proof.
  intros Hwf. unfold _add_to_cache, bind, gets, on_self, modify, ret, raise. simpl.
  destruct (_max_cache_size (self w) <=? len (_cache (self w))).
  - destruct (py_min _ _) as [[ok oe]|]; [|now intros [= <- <-]].
    destruct (dict_del ok _) as [c|] eqn:Hdel; [|now intros [= <- <-]].
    intros [= <- <-]. simpl. apply dict_set_wf. now apply (dict_del_wf _ _ _ Hwf Hdel).
  - intros [= <- <-]. simpl. now apply dict_set_wf.
Qed.

Lemma process_keeps_wf w data r w' :
  dict_wf (_cache (self w)) ->
  process data w = (r, w') ->
  dict_wf (_cache (self w')).
Proof.
  intros Hwf Hrun.
  destruct (dict_get (_get_cache_key data) (_cache (self w))) as [c|] eqn:Hget.
  - destruct (process_hit w data c Hget) as (w2 & Hrun2 & Hc & _).
    rewrite Hrun2 in Hrun. injection Hrun as <- <-. now rewrite Hc.
  - destruct (process_miss_shape w data r w' Hget Hrun)
      as [Hsame|(e & wa & ra & Hc & _ & Hadd)].
    + now rewrite Hsame.
    + rewrite <- Hc in Hwf. exact (add_to_cache_keeps_wf wa _ e ra w' Hwf Hadd).
Qed.

End Hits.

(** ** The registry of user_service.py *)

Section Registry.
Import user_service.
Context {U L : Type} `{Identified U} `{UserListener L U}.
Implicit Types (w : World U L) (user : U) (event : UserEvent).

Local Abbreviation calling event user :=
  (fun listener =>
     try_except
       (emit (Notified listener event user) ;;
        fun w => (on_user_event listener event user, w))
       (fun e => emit (LoggedError ("Error notifying listener: " ++ str_exn e)%string))).

(** One turn of the loop of [_notify_listeners]. *)
Lemma notify_one_run listener event user w :
  calling event user listener w =
    match on_user_event listener event user with
    | Returned _ =>
        (Returned tt,
         {| self := self w; effects := effects w ++ [Notified listener event user] |})
    | Raised e =>
        if below_Exception e
        then (Returned tt,
              {| self := self w;
                 effects := effects w
                            ++ [Notified listener event user;
                                LoggedError ("Error notifying listener: "
                                             ++ str_exn e)%string] |})
        else (Raised e,
              {| self := self w;
                 effects := effects w ++ [Notified listener event user] |})
    end.
Proof.
  unfold try_except, emit, bind, modify. simpl.
  destruct (on_user_event listener event user) as [[]|e]; [reflexivity|].
  destruct (below_Exception e); simpl; [|reflexivity].
  now rewrite <- app_assoc.
Qed.

Lemma notify_each_caught event user (ls : list L) :
  (forall l e, In l ls -> on_user_event l event user = Raised e ->
               below_Exception e = true) ->
  forall w,
    for_each ls (calling event user) w =
      (Returned tt,
       {| self := self w; effects := effects w ++ deliveries ls event user |}).
Proof.
  induction ls as [|l ls IH]; intros Hls w; simpl.
  - unfold ret. rewrite app_nil_r. now destruct w.
  - unfold bind at 1. rewrite notify_one_run.
    assert (Hrest : forall l' e, In l' ls ->
                      on_user_event l' event user = Raised e ->
                      below_Exception e = true)
      by (intros l' e Hin; apply Hls; now right).
    destruct (on_user_event l event user) as [[]|e] eqn:Hl.
    + rewrite (IH Hrest). simpl. now rewrite <- app_assoc.
    + rewrite (Hls l e (or_introl eq_refl) Hl), (IH Hrest). simpl.
      now rewrite <- app_assoc.
Qed.

Lemma notify_each_escapes event user (before : list L) l (after : list L) e :
  (forall l' e', In l' before -> on_user_event l' event user = Raised e' ->
                 below_Exception e' = true) ->
  on_user_event l event user = Raised e -> below_Exception e = false ->
  forall w,
    for_each (before ++ l :: after) (calling event user) w =
      (Raised e,
       {| self := self w;
          effects := effects w ++ deliveries before event user
                     ++ [Notified l event user] |}).
Proof.
  intros Hbefore Hl He.
  induction before as [|l0 before IH]; intros w; simpl.
  - unfold bind at 1. rewrite notify_one_run, Hl, He. reflexivity.
  - unfold bind at 1. rewrite notify_one_run.
    assert (Hrest : forall l' e', In l' before ->
                      on_user_event l' event user = Raised e' ->
                      below_Exception e' = true)
      by (intros l' e' Hin; apply Hbefore; now right).
    destruct (on_user_event l0 event user) as [[]|e0] eqn:Hl0.
    + rewrite (IH Hrest). simpl. now rewrite <- app_assoc.
    + rewrite (Hbefore l0 e0 (or_introl eq_refl) Hl0), (IH Hrest). simpl.
      now rewrite <- !app_assoc.
Qed.

(** A notification, whatever comes of it, leaves the records, the
    listeners and the bound alone. *)
Lemma notify_each_self event user (ls : list L) : forall w,
  self (snd (for_each ls (calling event user) w)) = self w.
Proof.
  induction ls as [|l ls IH]; intros w; simpl; [reflexivity|].
  unfold bind at 1. rewrite notify_one_run.
  destruct (on_user_event l event user) as [[]|e];
    [|destruct (below_Exception e)]; try rewrite IH; reflexivity.
Qed.

Lemma notify_listeners_self w event user :
  self (snd (_notify_listeners event user w)) = self w.
Proof.
  unfold _notify_listeners. unfold bind at 1. unfold gets.
  apply notify_each_self.
Qed.


Lemma add_user_duplicate w user :
  dict_in (id_of user) (_users (self w)) = true ->
  add_user user w = (Returned false, w).
Proof.
  intros Hin. unfold add_user, bind, gets, ret. now rewrite Hin.
Qed.

Lemma add_user_full w user :
  dict_in (id_of user) (_users (self w)) = false ->
  max_users (self w) <= len (_users (self w)) ->
  add_user user w = (Raised (ValueError "Maximum users reached"), w).
Proof.
  intros Hin Hcap. unfold add_user, bind, gets, raise. rewrite Hin.
  destruct (Z.leb_spec (max_users (self w)) (len (_users (self w)))); [reflexivity|lia].
Qed.

(** [add_user] with a new identifier and room: the record is stored,
    then the listeners are notified, and what escapes the notification
    escapes [add_user]. *)
Lemma add_user_notifies w user :
  dict_in (id_of user) (_users (self w)) = false ->
  len (_users (self w)) < max_users (self w) ->
  add_user user w =
    let (r, w') :=
      _notify_listeners USER_ADDED user
        {| self := set_users (_users (self w) ++ [(id_of user, user)]) (self w);
           effects := effects w |} in
    (match r with Returned _ => Returned true | Raised e => Raised e end, w').
Proof.
  intros Hin Hcap. unfold add_user. unfold bind at 1. unfold gets at 1. rewrite Hin.
  destruct (Z.leb_spec (max_users (self w)) (len (_users (self w)))); [lia|].
  unfold bind at 1. unfold on_self, modify.
  unfold bind at 1. simpl.
  rewrite (dict_set_new _ _ _ (dict_in_false _ _ Hin)).
  now destruct (_notify_listeners USER_ADDED user _) as [[[]|e] w'].
Qed.

Lemma remove_user_absent w user_id :
  dict_get user_id (_users (self w)) = None ->
  remove_user user_id w = (Returned false, w).
Proof.
  intros Hget. unfold remove_user, bind, gets, ret. now rewrite Hget.
Qed.

Lemma remove_user_notifies w user_id user :
  dict_get user_id (_users (self w)) = Some user ->
  exists l1 l2,
    _users (self w) = l1 ++ (user_id, user) :: l2 /\
    dict_get user_id l1 = None /\
    remove_user user_id w =
      let (r, w') :=
        _notify_listeners USER_REMOVED user
          {| self := set_users (l1 ++ l2) (self w); effects := effects w |} in
      (match r with Returned _ => Returned true | Raised e => Raised e end, w').
Proof.
  intros Hget.
  destruct (dict_get_split _ _ _ Hget) as (l1 & l2 & Hsplit & Hn & Hdel).
  exists l1, l2. split; [exact Hsplit|]. split; [exact Hn|].
  unfold remove_user. unfold bind at 1. unfold gets at 1. rewrite Hget, Hdel.
  unfold bind at 1. unfold on_self, modify.
  unfold bind at 1. simpl.
  now destruct (_notify_listeners USER_REMOVED user _) as [[[]|e] w'].
Qed.

(** The service object after [add_user] and after [remove_user],
    whatever the listeners do. *)
Lemma add_user_self w user :
  self (snd (add_user user w)) =
    if dict_in (id_of user) (_users (self w)) then self w
    else if max_users (self w) <=? len (_users (self w)) then self w
    else set_users (_users (self w) ++ [(id_of user, user)]) (self w).
Proof.
  destruct (dict_in (id_of user) (_users (self w))) eqn:Hin.
  - now rewrite add_user_duplicate.
  - destruct (Z.leb_spec (max_users (self w)) (len (_users (self w)))).
    + now rewrite add_user_full.
    + rewrite add_user_notifies by assumption.
      match goal with
      | |- context [_notify_listeners ?ev ?u ?w0] =>
          pose proof (notify_listeners_self w0 ev u) as Hs;
          destruct (_notify_listeners ev u w0) as [r w']
      end.
      exact Hs.
Qed.

Lemma add_user_true w user :
  fst (add_user user w) = Returned true ->
  dict_in (id_of user) (_users (self w)) = false /\
  len (_users (self w)) < max_users (self w).
Proof.
  destruct (dict_in (id_of user) (_users (self w))) eqn:Hin.
  - rewrite add_user_duplicate by exact Hin. discriminate.
  - destruct (Z.leb_spec (max_users (self w)) (len (_users (self w)))).
    + rewrite add_user_full by assumption. discriminate.
    + auto.
Qed.

Lemma remove_user_self w user_id :
  self (snd (remove_user user_id w)) =
    match dict_get user_id (_users (self w)), dict_del user_id (_users (self w)) with
    | Some _, Some d => set_users d (self w)
    | _, _ => self w
    end.
Proof.
  destruct (dict_get user_id (_users (self w))) as [user|] eqn:Hget.
  - destruct (remove_user_notifies w user_id user Hget)
      as (l1 & l2 & Hsplit & Hn & Hrun).
    destruct (dict_get_split _ _ _ Hget) as (l1' & l2' & Hsplit' & Hn' & Hdel).
    rewrite Hdel.
    unfold remove_user. unfold bind at 1. unfold gets at 1. rewrite Hget, Hdel.
    unfold bind at 1. unfold on_self, modify.
    unfold bind at 1. simpl.
    match goal with
    | |- context [_notify_listeners ?ev ?u ?w0] =>
        pose proof (notify_listeners_self w0 ev u) as Hs;
        destruct (_notify_listeners ev u w0) as [[[]|e] w']
    end; exact Hs.
  - now rewrite remove_user_absent.
Qed.

(** *** Listeners whose failures are all caught *)

Section CaughtListeners.
Context `{!Caught L U}.

Lemma notify_each_run event user (ls : list L) : forall w,
  for_each ls (fun listener =>
    try_except
      (emit (Notified listener event user) ;;
       fun w => (on_user_event listener event user, w))
      (fun e => emit (LoggedError ("Error notifying listener: " ++ str_exn e)%string))) w =
  (Returned tt,
   {| self := self w; effects := effects w ++ deliveries ls event user |}).
Proof.
  apply notify_each_caught. intros l e _. apply caught.
Qed.

Lemma notify_listeners_run w event user :
  _notify_listeners event user w =
    (Returned tt,
     {| self := self w;
        effects := effects w
                   ++ deliveries (_UserService__listeners (self w)) event user |}).
Proof.
  unfold _notify_listeners. unfold bind at 1. unfold gets.
  apply notify_each_run.
Qed.

Lemma add_user_inserts w user :
  dict_in (id_of user) (_users (self w)) = false ->
  len (_users (self w)) < max_users (self w) ->
  add_user user w =
    (Returned true,
     {| self := set_users (_users (self w) ++ [(id_of user, user)]) (self w);
        effects := effects w
                   ++ deliveries (_UserService__listeners (self w)) USER_ADDED user |}).
Proof.
  intros Hin Hcap. rewrite (add_user_notifies w user Hin Hcap).
  now rewrite notify_listeners_run.
Qed.


Lemma remove_user_present w user_id user :
  dict_get user_id (_users (self w)) = Some user ->
  exists l1 l2,
    _users (self w) = l1 ++ (user_id, user) :: l2 /\
    dict_get user_id l1 = None /\
    remove_user user_id w =
      (Returned true,
       {| self := set_users (l1 ++ l2) (self w);
          effects := effects w
                     ++ deliveries (_UserService__listeners (self w))
                          USER_REMOVED user |}).
Proof.
  intros Hget.
  destruct (remove_user_notifies w user_id user Hget)
    as (l1 & l2 & Hsplit & Hn & Hrun).
  exists l1, l2. split; [exact Hsplit|]. split; [exact Hn|].
  rewrite Hrun. now rewrite notify_listeners_run.
Qed.

Lemma remove_user_returns w user_id :
  exists b w', remove_user user_id w = (Returned b, w').
Proof.
  destruct (dict_get user_id (_users (self w))) as [user|] eqn:Hget.
  - destruct (remove_user_present w user_id user Hget) as (l1 & l2 & _ & _ & Hrun).
    eauto.
  - rewrite (remove_user_absent w user_id Hget). eauto.
Qed.


End CaughtListeners.

(** C9 (amended). Listeners are kept in the order of their registration,
    and a notification calls them in that order.  A listener that raises an
    exception below [Exception] has its error logged and the next
    listener is called all the same: when every failure is of that kind,
    the notification calls every listener once and returns.  A listener
    that raises anything else, as [KeyboardInterrupt] or [SystemExit],
    ends the notification: its exception is raised to the caller,
    nothing is logged for it, and the listeners registered after it are
    not called.  [add_user] and [remove_user] notify once the record is
    stored or deleted, and raise what the notification raises. *)
Theorem notify_listeners_in_order w event user :
  let listeners := _UserService__listeners (self w) in
  let round (ls : list L) :=
    flat_map (fun l =>
      Notified l event user ::
      match on_user_event l event user with
      | Returned _ => []
      | Raised e => [LoggedError ("Error notifying listener: " ++ str_exn e)%string]
      end) ls in
  (forall listener,
     add_listener listener w =
       (Returned tt,
        {| self := {| _users := _users (self w);
                      _UserService__listeners := listeners ++ [listener];
                      max_users := max_users (self w) |};
           effects := effects w |})) /\
  ((forall l e, In l listeners -> on_user_event l event user = Raised e ->
                below_Exception e = true) ->
   _notify_listeners event user w =
     (Returned tt, {| self := self w; effects := effects w ++ round listeners |})) /\
  (forall before l after e,
     listeners = before ++ l :: after ->
     (forall l' e', In l' before -> on_user_event l' event user = Raised e' ->
                    below_Exception e' = true) ->
     on_user_event l event user = Raised e -> below_Exception e = false ->
     _notify_listeners event user w =
       (Raised e,
        {| self := self w;
           effects := effects w ++ round before ++ [Notified l event user] |})) /\
  (dict_in (id_of user) (_users (self w)) = false ->
   len (_users (self w)) < max_users (self w) ->
   add_user user w =
     let (r, w') :=
       _notify_listeners USER_ADDED user
         {| self := set_users (_users (self w) ++ [(id_of user, user)]) (self w);
            effects := effects w |} in
     (match r with Returned _ => Returned true | Raised e => Raised e end, w')) /\
  (forall user_id,
     dict_get user_id (_users (self w)) = Some user ->
     exists l1 l2,
       _users (self w) = l1 ++ (user_id, user) :: l2 /\
       dict_get user_id l1 = None /\
       remove_user user_id w =
         let (r, w') :=
           _notify_listeners USER_REMOVED user
             {| self := set_users (l1 ++ l2) (self w); effects := effects w |} in
         (match r with Returned _ => Returned true | Raised e => Raised e end, w')).
Proof.
  cbv zeta. split; [reflexivity|]. split; [|split; [|split]].
  - intros Hall. unfold _notify_listeners. unfold bind at 1. unfold gets.
    now apply notify_each_caught.
  - intros before l after e Hsplit Hbefore Hl He.
    unfold _notify_listeners. unfold bind at 1. unfold gets. rewrite Hsplit.
    now apply notify_each_escapes.
  - apply add_user_notifies.
  - intros user_id. apply remove_user_notifies.
Qed.
End Registry.

(** ** The facade of api_controller.py *)

Section Listing.
Import user api_controller.
Context {L : Type} `{user_service.UserListener L User} `{Runtime}.
Implicit Types (w : World L).

Lemma response_run status message data w :
  ApiResponse_new status message data "" w =
    (Returned {| status := status; message := message; data := data;
                 timestamp := isoformat (current (clock w)) |},
     with_clock (tick (clock w)) w).
Proof. reflexivity. Qed.

Lemma list_users_run role limit offset w :
  list_users role limit offset w =
    (Returned
       {| status := STATUS_SUCCESS;
          message := ("Found "
                      ++ str_int (len (py_slice (listed role w) offset (offset + limit)))
                      ++ " users")%string;
          data := Some (JDict
            [ ("users"%string,
               JList (map to_dict (py_slice (listed role w) offset (offset + limit))));
              ("total"%string, JInt (len (listed role w)));
              ("limit"%string, JInt limit);
              ("offset"%string, JInt offset) ]);
          timestamp := isoformat (current (clock w)) |},
     with_clock (tick (clock w)) w).
Proof.
  unfold list_users. unfold bind at 1.
  unfold in_service, zoom, user_service.get_all_users, bind, gets, ret. simpl.
  unfold success. rewrite response_run. unfold listed. simpl.
  destruct w as [[sv n] c u d o]. destruct sv as [sf ef]. simpl. reflexivity.
Qed.

(** C6 (amended). [parse_pagination_params] clamps the limit into
    [1, 1000] and the offset to at least 0: it returns
    [min(max(1, limit), 1000)] and [max(0, offset)] of the two ints it
    reads, and raises what [int] raises.  [list_users] does no
    clamping of its own: it answers with [users[offset:offset + limit]]
    of the selected records, under Python's slice rules, and reports the
    limit and offset it was given; with a limit and offset that are not
    negative, as the parser produces them, that slice is the [limit]
    records after the first [offset]. *)
Theorem list_users_slices_as_given w role limit offset :
  (forall S (s : S) query_params l0 o0,
     int (get_or "limit" "100" query_params) = Returned l0 ->
     int (get_or "offset" "0" query_params) = Returned o0 ->
     parse_pagination_params query_params s =
       (Returned (Z.min (Z.max 1 l0) 1000, Z.max 0 o0), s) /\
     1 <= Z.min (Z.max 1 l0) 1000 <= 1000 /\ 0 <= Z.max 0 o0) /\
  (forall S (s : S) query_params ex,
     int (get_or "limit" "100" query_params) = Raised ex \/
     (exists l0, int (get_or "limit" "100" query_params) = Returned l0 /\
                 int (get_or "offset" "0" query_params) = Raised ex) ->
     parse_pagination_params query_params s = (Raised ex, s)) /\
  (exists resp w',
     list_users role limit offset w = (Returned resp, w') /\
     status resp = STATUS_SUCCESS /\
     data resp = Some (JDict
       [ ("users"%string,
          JList (map to_dict (py_slice (listed role w) offset (offset + limit))));
         ("total"%string, JInt (len (listed role w)));
         ("limit"%string, JInt limit);
         ("offset"%string, JInt offset) ])) /\
  (0 <= offset -> 0 <= limit ->
   py_slice (listed role w) offset (offset + limit) =
     firstn (Z.to_nat limit) (skipn (Z.to_nat offset) (listed role w))).
Proof.
  split; [|split; [|split]].
  - intros S s qp l0 o0 Hl Ho.
    split; [|lia].
    unfold parse_pagination_params, bind, ret. now rewrite Hl, Ho.
  - intros S s qp ex [Hl|(l0 & Hl & Ho)];
      unfold parse_pagination_params, bind, ret.
    + now rewrite Hl.
    + now rewrite Hl, Ho.
  - eexists _, _. split; [apply list_users_run|]. split; reflexivity.
  - apply py_slice_in_range.
Qed.

End Listing.

Section Envelopes.
Import user api_controller.
Context {L : Type} `{user_service.UserListener L User} `{Runtime}.
Implicit Types (w : World L) (o : user.Object).

Lemma update_fields_accepted request o :
  acceptable request = true ->
  exists o',
    update_fields request o = (Returned tt, o') /\
    name (this o') = match up_name request with Some v => v | None => name (this o) end /\
    email (this o') = match up_email request with Some v => v | None => email (this o) end /\
    role (this o') = match up_role request with Some v => v | None => role (this o) end /\
    age (this o') = match up_age request with Some v => Some v | None => age (this o) end /\
    id (this o') = id (this o) /\ created_at (this o') = created_at (this o).
Proof.
  destruct request as [rn re rr ra]. unfold acceptable, update_fields. simpl.
  intros Hok. apply andb_prop in Hok. destruct Hok as [Hok Hage].
  apply andb_prop in Hok. destruct Hok as [Hname Hemail].
  destruct rn as [n|], re as [e|], rr as [r|], ra as [a|];
    unfold set_name, set_email, set_age;
    try (apply Bool.negb_true_iff in Hname; rewrite Hname);
    try rewrite Hemail;
    try (apply Z.leb_le in Hage; destruct (Z.ltb_spec a 0); [lia|]);
    eexists; (split; [reflexivity|]); simpl; repeat split; reflexivity.
Qed.

Lemma update_fields_rejected request o :
  acceptable request = false ->
  exists msg o', update_fields request o = (Raised (ValueError msg), o').
Proof.
  destruct request as [rn re rr ra]. unfold acceptable, update_fields. simpl.
  intros Hbad.
  destruct rn as [n|], re as [e|], rr as [r|], ra as [a|];
    unfold set_name, set_email, set_age;
    repeat match goal with
    | |- context [String.eqb ?x ""] => destruct (String.eqb x "")
    | |- context [_validate_email ?x] => destruct (_validate_email x)
    | |- context [?x <? 0] =>
        destruct (Z.ltb_spec x 0); [|destruct (Z.leb_spec 0 x); [|lia]]
    end; simpl in Hbad; try discriminate Hbad;
    eexists _, _; reflexivity.
Qed.

Lemma update_user_found w user_id request u :
  dict_get user_id (users_of w) = Some u ->
  update_user user_id request w =
    match update_fields request {| this := u; user.clock := clock w |} with
    | (Returned _, o') =>
        (Returned {| status := STATUS_SUCCESS; message := "User updated";
                     data := Some (to_dict (this o'));
                     timestamp := isoformat (current (user.clock o')) |},
         {| self := {| user_service :=
                         put_user user_id (this o') (user_service (self w));
                       _request_count := _request_count (self w) + 1 |};
            clock := tick (user.clock o'); uuid4_hex := uuid4_hex w;
            drawn := drawn w;
            stdout := stdout w ++ ["API request: update_user"%string] |})
    | (Raised ex, o') =>
        (Raised ex,
         {| self := {| user_service :=
                         put_user user_id (this o') (user_service (self w));
                       _request_count := _request_count (self w) + 1 |};
            clock := user.clock o'; uuid4_hex := uuid4_hex w;
            drawn := drawn w;
            stdout := stdout w ++ ["API request: update_user"%string] |})
    end.
Proof.
  intros Hget. unfold users_of in Hget.
  unfold update_user, log_request. unfold bind at 1 2.
  unfold on_self, print, modify. unfold bind at 1.
  unfold in_service, zoom, user_service.find_user. unfold bind at 1.
  unfold gets at 1. unfold ret at 1. simpl. rewrite Hget.
  unfold bind at 1. unfold on_user. simpl. unfold bind at 1.
  destruct (update_fields request {| this := u; user.clock := clock w |})
    as [[[]|ex] o']; reflexivity.
Qed.

(** C7 (amended). On a user that is found, [update_user] passes a
    present name, email and age to [set_name], [set_email] and [set_age]
    and assigns a present role directly, unchecked.  When the present
    name is not empty, the present email matches the pattern and the
    present age is not negative, the answer is a success envelope and the
    registry then holds, under the same key, the record with exactly the
    present fields replaced and the absent ones, the identifier and the
    creation time as they were.  Otherwise the call does not answer with
    an envelope. *)
Theorem update_user_applies_fields w user_id request u :
  dict_get user_id (users_of w) = Some u ->
  (acceptable request = true ->
   exists resp w' u',
     update_user user_id request w = (Returned resp, w') /\
     status resp = STATUS_SUCCESS /\
     data resp = Some (to_dict u') /\
     dict_get user_id (users_of w') = Some u' /\
     keys (users_of w') = keys (users_of w) /\
     name u' = match up_name request with Some v => v | None => name u end /\
     email u' = match up_email request with Some v => v | None => email u end /\
     role u' = match up_role request with Some v => v | None => role u end /\
     age u' = match up_age request with Some v => Some v | None => age u end /\
     id u' = id u /\ created_at u' = created_at u) /\
  (acceptable request = false ->
   forall resp w', update_user user_id request w <> (Returned resp, w')).
Proof.
  intros Hget. rewrite (update_user_found w user_id request u Hget). split.
  - intros Hok.
    destruct (update_fields_accepted request {| this := u; user.clock := clock w |} Hok)
      as (o' & Hrun & Hn & He & Hr & Ha & Hi & Hc).
    rewrite Hrun. eexists _, _, (this o'). split; [reflexivity|]. simpl.
    unfold users_of. simpl.
    split; [reflexivity|]. split; [reflexivity|].
    split; [apply dict_get_set_same|].
    split; [eapply dict_set_keys; exact Hget|].
    simpl in *. auto 10.
  - intros Hbad resp w'.
    destruct (update_fields_rejected request {| this := u; user.clock := clock w |} Hbad)
      as (msg & o' & Hrun).
    rewrite Hrun. discriminate.
Qed.

Lemma error_returns message w :
  exists resp w', error message None w = (Returned resp, w') /\
                  status resp = STATUS_ERROR /\ api_controller.message resp = message.
Proof. unfold error. rewrite response_run. eexists _, _. repeat split. Qed.

Lemma get_user_answers user_id w :
  exists resp w', get_user user_id w = (Returned resp, w').
Proof.
  unfold get_user, log_request. unfold bind at 1 2.
  unfold on_self, print, modify. unfold bind at 1.
  unfold in_service, zoom, user_service.find_user, bind, gets, ret. simpl.
  destruct (dict_get user_id _); unfold success, error; rewrite response_run; eauto.
Qed.

Lemma list_users_answers role limit offset w :
  exists resp w', list_users role limit offset w = (Returned resp, w').
Proof. rewrite list_users_run. eauto. Qed.

(** What [create_user] answers when the registry is full. *)
Lemma create_user_full name email role w :
  name <> ""%string -> email <> ""%string ->
  let uid := ("user_" ++ substring 0 8 (uuid4_hex w (drawn w)))%string in
  dict_in uid (users_of w) = false ->
  user_service.max_users (user_service.self (user_service (self w)))
    <= len (users_of w) ->
  exists resp w',
    create_user {| cr_name := Some name; cr_email := Some email; cr_role := role |} w
      = (Returned resp, w') /\
    status resp = STATUS_ERROR /\
    message resp = "Internal error: Maximum users reached"%string /\
    users_of w' = users_of w.
Proof.
  intros Hn He uid Hnew Hcap.
  unfold create_user, log_request. unfold bind at 1 2.
  unfold on_self, print, modify. unfold try_except. simpl.
  destruct (String.eqb_spec name ""); [contradiction|].
  destruct (String.eqb_spec email ""); [contradiction|]. simpl.
  unfold bind at 1. unfold _generate_user_id, bind at 1, uuid4, ret. simpl.
  unfold bind at 1. unfold new, bind at 1, now, ret. simpl.
  unfold bind at 1. unfold in_service, zoom. simpl.
  rewrite add_user_full; [| exact Hnew | exact Hcap].
  unfold error. rewrite response_run. eexists _, _. repeat split.
Qed.

End Envelopes.

(** ** The cache theorems at sample objects *)

Section CacheInstances.
Import data_processor samples.

Ltac wf_by_listing :=
  unfold dict_wf; simpl; repeat constructor; simpl; intuition discriminate.

Lemma full_cache_wf : dict_wf (_cache (self full_cache)).
Proof. wf_by_listing. Qed.

Lemma stale_cache_wf : dict_wf (_cache (self stale_cache)).
Proof. wf_by_listing. Qed.

(** The entry created at 2 s leaves the full cache for a third one. *)
Lemma add_to_cache_evicts_oldest_witness :
  let e := entry "ccc" 9000000 in
  let w' := snd (_add_to_cache "data_3" e full_cache) in
  _add_to_cache "data_3" e full_cache = (Returned tt, w') /\
  exists l1 oldest_key oldest l2,
    _cache (self full_cache) = l1 ++ (oldest_key, oldest) :: l2 /\
    (forall k' e', In (k', e') (_cache (self full_cache)) ->
                   timestamp oldest <= timestamp e') /\
    _cache (self w') = l1 ++ l2 ++ [("data_3"%string, e)] /\
    evictions (_stats (self w')) = evictions (_stats (self full_cache)) + 1.
Proof.
  intros e w'.
  assert (Hnew : dict_get "data_3" (_cache (self full_cache)) = None) by reflexivity.
  assert (Hcap : _max_cache_size (self full_cache) <= len (_cache (self full_cache)))
    by (vm_compute; discriminate).
  assert (Hrun : _add_to_cache "data_3" e full_cache = (Returned tt, w')) by reflexivity.
  split; [exact Hrun|].
  exact (proj2 (add_to_cache_evicts_oldest full_cache "data_3" e
                  full_cache_wf Hnew Hcap) w' Hrun).
Defined.

Example add_to_cache_sample :
  keys (_cache (self (snd (_add_to_cache "data_3" (entry "ccc" 9000000) full_cache))))
    = ["data_1"; "data_3"]%string.
Proof. reflexivity. Qed.

(** C2, as stated, fails: an input that the validator rejects is
    validated again and counted as a miss again by the second call, which
    raises as the first did. *)
Lemma process_twice_rejected :
  let w1 := snd (process "x" rejecting) in
  exists w2,
    process "x" w1 = (Raised (ValueError "Invalid data: ['rejected']"), w2) /\
    hits (_stats (self w2)) = hits (_stats (self w1)) /\
    misses (_stats (self w2)) = misses (_stats (self w1)) + 1 /\
    calls w2 = calls w1 ++ [CallValidate "x"%string; CallGetValidationErrors "x"%string].
Proof.
  vm_compute. eexists. split; [reflexivity|]. repeat split.
Qed.

Lemma process_twice_hits_witness :
  let e := entry "x" 10000000 in
  let w1 := snd (process "x" empty_cache) in
  process "x" empty_cache = (Returned e, w1) /\
  dict_get (_get_cache_key "x") (_cache (self w1)) = Some e /\
  exists w2,
    process "x" w1 = (Returned e, w2) /\
    hits (_stats (self w2)) = hits (_stats (self w1)) + 1 /\
    misses (_stats (self w2)) = misses (_stats (self w1)) /\
    _cache (self w2) = _cache (self w1) /\
    calls w2 = calls w1.
Proof.
  intros e w1.
  assert (Hrun : process "x" empty_cache = (Returned e, w1)) by reflexivity.
  exact (conj Hrun (process_twice_hits empty_cache "x" e w1 Hrun)).
Defined.

(** What [total_seconds] makes of 2.3 seconds and of a microsecond: the
    doubles that Python prints as 2.3 and 1e-06. *)
Example total_seconds_rounds :
  (total_seconds 2300000 == 2589569785738035 # 1125899906842624)%Q /\
  (total_seconds 2300000 < 23 # 10)%Q /\
  (total_seconds 1 == 4722366482869645 # 4722366482869645213696)%Q /\
  (total_seconds 3600000000 == 3600)%Q.
Proof. repeat split. Qed.

(** An entry that is 2.3 seconds old is not expired for the float 2.3,
    which is the very double of its age and a little less than 23/10. *)
Example is_expired_at_the_same_float :
  fst (is_expired (entry "a" 7700000) (nearest_double (23 # 10)) full_cache)
    = Returned false /\
  (nearest_double (23 # 10) < (10000000 - 7700000) # 1000000)%Q.
Proof. split; vm_compute; reflexivity. Qed.

(** C3, as stated, fails: five hundred and forty-four years after an
    entry was cached, plus a microsecond, the entry is older than a time
    to live of [2^34] seconds, and [remove_expired] keeps it: the
    microsecond is lost when the age becomes a float. *)
Lemma remove_expired_rounds_the_age :
  let w := processor None 1 [ ("data_1"%string, entry "a" 0) ] 17179869184000001 in
  (17179869184 < (current (clock w) - timestamp (entry "a" 0)) # 1000000)%Q /\
  remove_expired 17179869184 w =
    (Returned 0,
     {| self := self w;
        clock := {| reading := reading (clock w); reads := 1 |};
        calls := calls w |}) /\
  In ("data_1"%string, entry "a" 0)
     (_cache (self (snd (remove_expired 17179869184 w)))).
Proof.
  split; [reflexivity|]. split; [vm_compute; reflexivity|].
  vm_compute. now left.
Qed.

(** At 10 s and a time to live of 5 s, the entry created at 2 s goes and
    the one created at 7 s stays. *)
Lemma remove_expired_removes_expired_witness :
  let w := full_cache in
  let cache := _cache (self w) in
  let now (i : nat) := reading (clock w) (reads (clock w) + i)%nat in
  let age (i : nat) (e : ProcessedData string) := total_seconds (now i - timestamp e) in
  let kept :=
    map snd (filter (fun ie => Qle_bool (age (fst ie) (snd (snd ie))) 5)
               (combine (seq 0 (List.length cache)) cache)) in
  exists w',
    remove_expired 5 w = (Returned (len cache - len kept), w') /\
    _cache (self w') = kept /\
    (forall i k e, nth_error cache i = Some (k, e) ->
       (In (k, e) (_cache (self w')) <-> (age i e <= 5)%Q)) /\
    (forall i k e seconds,
       nth_error cache i = Some (k, e) ->
       (5 == inject_Z seconds)%Q ->
       Z.abs (now i - timestamp e) < 2 ^ 34 * 1000000 ->
       (In (k, e) (_cache (self w')) <->
        now i - timestamp e <= seconds * 1000000)) /\
    evictions (_stats (self w')) =
      evictions (_stats (self w)) + (len cache - len kept) /\
    hits (_stats (self w')) = hits (_stats (self w)) /\
    misses (_stats (self w')) = misses (_stats (self w)).
Proof.
  apply (remove_expired_removes_expired full_cache 5). exact full_cache_wf.
Defined.

Example remove_expired_sample :
  fst (remove_expired 5 full_cache) = Returned 1 /\
  keys (_cache (self (snd (remove_expired 5 full_cache)))) = ["data_1"%string] /\
  evictions (_stats (self (snd (remove_expired 5 full_cache)))) = 1.
Proof. repeat split. Qed.

(** C10, as stated, fails: a call of [process] on a new input removes
    the entry of a full cache although, or rather because, it is the
    oldest: three hours old with a time to live of one hour. *)
Lemma process_evicts_expired_entry :
  In ("data_1"%string, entry "a" 0) (_cache (self stale_cache)) /\
  (CACHE_TTL_SECONDS < age_at (current (clock stale_cache)) (entry "a" 0))%Q /\
  ~ In ("data_1"%string, entry "a" 0)
       (_cache (self (snd (process "yy" stale_cache)))).
Proof.
  split; [now left|]. split; [reflexivity|].
  simpl. intros [Heq|[]]. discriminate Heq.
Qed.

Lemma process_hit_ignores_age_witness :
  (forall e,
     dict_get (_get_cache_key "a") (_cache (self stale_cache)) = Some e ->
     exists w',
       process "a" stale_cache = (Returned e, w') /\
       hits (_stats (self w')) = hits (_stats (self stale_cache)) + 1 /\
       _cache (self w') = _cache (self stale_cache) /\
       clock w' = clock stale_cache) /\
  (forall r w' k e,
     process "a" stale_cache = (r, w') ->
     In (k, e) (_cache (self stale_cache)) -> ~ In (k, e) (_cache (self w')) ->
     dict_get (_get_cache_key "a") (_cache (self stale_cache)) = None /\
     _max_cache_size (self stale_cache) <= len (_cache (self stale_cache)) /\
     forall k' e', In (k', e') (_cache (self stale_cache)) ->
                   timestamp e <= timestamp e') /\
  (forall ttl,
     let entries := values (_cache (self stale_cache)) in
     let fresh (ie : nat * ProcessedData string) :=
       Qle_bool (total_seconds (reading (clock stale_cache)
                                  (reads (clock stale_cache) + fst ie)%nat
                                - timestamp (snd ie))) ttl in
     iter_valid_data ttl stale_cache =
       (Returned (map snd (filter fresh
                             (combine (seq 0 (List.length entries)) entries))),
        {| self := self stale_cache;
           clock := {| reading := reading (clock stale_cache);
                       reads := (reads (clock stale_cache)
                                 + List.length entries)%nat |};
           calls := calls stale_cache |})).
Proof.
  apply (process_hit_ignores_age stale_cache "a"). exact stale_cache_wf.
Defined.

(** The valid-data iterator passes over the entry that is three hours
    old and leaves it in the cache. *)
Example iter_valid_data_skips_expired_entry :
  fst (iter_valid_data CACHE_TTL_SECONDS stale_cache) = Returned [] /\
  _cache (self (snd (iter_valid_data CACHE_TTL_SECONDS stale_cache)))
    = _cache (self stale_cache).
Proof. split; vm_compute; reflexivity. Qed.

Example process_hit_on_expired_entry :
  (CACHE_TTL_SECONDS < age_at (current (clock stale_cache)) (entry "a" 0))%Q /\
  fst (process "a" stale_cache) = Returned (entry "a" 0) /\
  hits (_stats (self (snd (process "a" stale_cache)))) = 1.
Proof. repeat split. Qed.

End CacheInstances.

(** ** The registry theorems at sample objects *)

(** The sample listeners [Quiet] and [Faulty] raise nothing but
    [Exception]. *)
#[global] Instance Listener_Caught {U : Type}
  : user_service.Caught samples.Listener U.
Proof.
  intros [] event user e; simpl; [discriminate|].
  intros [= <-]. reflexivity.
Qed.

Section RegistryInstances.
Import user_service samples.



(** The faulty listener, registered first, does not keep the quiet one
    from hearing that Bob was added. *)
Lemma notify_listeners_in_order_witness :
  let w := registry 2 [("user_1"%string, alice)] in
  _notify_listeners USER_ADDED bob w =
    (Returned tt,
     {| self := self w;
        effects :=
          [ Notified Faulty USER_ADDED bob;
            LoggedError "Error notifying listener: listener failed";
            Notified Quiet USER_ADDED bob ] |}) /\
  add_user bob w =
    (Returned true,
     {| self := set_users [("user_1"%string, alice); ("user_2"%string, bob)] (self w);
        effects :=
          [ Notified Faulty USER_ADDED bob;
            LoggedError "Error notifying listener: listener failed";
            Notified Quiet USER_ADDED bob ] |}).
Proof.
  intros w.
  destruct (notify_listeners_in_order w USER_ADDED bob)
    as (_ & Hcaught & _ & Hadd & _).
  split.
  - apply Hcaught. intros l e _. apply caught.
  - rewrite Hadd by reflexivity. reflexivity.
Defined.

(** C9, as stated, fails: a listener that is interrupted from the
    keyboard is not caught.  The exception leaves [add_user], although
    the record is stored by then; no error is logged, and the listener
    registered after it is never called. *)
Lemma interrupted_listener_escapes :
  let w : World user.User Signal :=
    {| self := {| _users := [("user_1"%string, alice)];
                  _UserService__listeners := [Steady; Interrupted; Steady];
                  max_users := 5 |};
       effects := [] |} in
  add_user bob w =
    (Raised KeyboardInterrupt,
     {| self := {| _users := [("user_1"%string, alice); ("user_2"%string, bob)];
                   _UserService__listeners := [Steady; Interrupted; Steady];
                   max_users := 5 |};
        effects := [ Notified Steady USER_ADDED bob;
                     Notified Interrupted USER_ADDED bob ] |}) /\
  remove_user "user_1" w =
    (Raised KeyboardInterrupt,
     {| self := {| _users := [];
                   _UserService__listeners := [Steady; Interrupted; Steady];
                   max_users := 5 |};
        effects := [ Notified Steady USER_REMOVED alice;
                     Notified Interrupted USER_REMOVED alice ] |}).
Proof. split; reflexivity. Qed.

End RegistryInstances.

(** ** The facade theorems at sample objects *)

Section FacadeInstances.
Import user api_controller samples.

(** C6, as stated, fails: with limit 0 the page is empty and the limit
    reported is 0, where a limit clamped to 1 gives one record; with
    offset -1 the page is the last record alone, where an offset clamped
    to 0 gives all three. *)
Lemma list_users_does_not_clamp :
  let w := facade 10 three_users in
  fst (list_users None 0 0 w) <>
    fst (list_users None (Z.min (Z.max 1 0) 1000) (Z.max 0 0) w) /\
  fst (list_users None 100 (-1) w) <>
    fst (list_users None (Z.min (Z.max 1 100) 1000) (Z.max 0 (-1)) w) /\
  fst (list_users None 0 0 w) =
    Returned {| status := "success"; message := "Found 0 users";
                data := Some (JDict [ ("users"%string, JList []);
                                      ("total"%string, JInt 3);
                                      ("limit"%string, JInt 0);
                                      ("offset"%string, JInt 0) ]);
                timestamp := "0" |} /\
  fst (list_users None 100 (-1) w) =
    Returned {| status := "success"; message := "Found 1 users";
                data := Some (JDict [ ("users"%string, JList [to_dict carol]);
                                      ("total"%string, JInt 3);
                                      ("limit"%string, JInt 100);
                                      ("offset"%string, JInt (-1)) ]);
                timestamp := "0" |}.
Proof.
  intros w. repeat split.
  - vm_compute. discriminate.
  - vm_compute. discriminate.
Qed.

Lemma list_users_slices_as_given_witness :
  let w := facade 10 three_users in
  parse_pagination_params
    [("limit"%string, "0"%string); ("offset"%string, "-5"%string)] w
    = (Returned (1, 0), w) /\
  parse_pagination_params
    [("limit"%string, "5000"%string); ("offset"%string, "7"%string)] w
    = (Returned (1000, 7), w) /\
  py_slice (listed None w) 1 (1 + 2) = [bob; carol].
Proof.
  intros w.
  destruct (list_users_slices_as_given w None 2 1) as (Hparse & _ & _ & Hslice).
  split; [|split].
  - apply (Hparse _ w [("limit"%string, "0"%string); ("offset"%string, "-5"%string)]
             0 (-5)); reflexivity.
  - apply (Hparse _ w [("limit"%string, "5000"%string); ("offset"%string, "7"%string)]
             5000 7); reflexivity.
  - rewrite Hslice by lia. reflexivity.
Defined.

Example list_users_page :
  fst (list_users None 2 1 (facade 10 five_users)) =
    Returned {| status := "success"; message := "Found 2 users";
                data := Some (JDict [ ("users"%string, JList [to_dict bob; to_dict carol]);
                                      ("total"%string, JInt 5);
                                      ("limit"%string, JInt 2);
                                      ("offset"%string, JInt 1) ]);
                timestamp := "0" |}.
Proof. reflexivity. Qed.

Example list_users_by_role :
  listed (Some "user"%string) (facade 10 five_users) = [bob; carol; erin].
Proof. reflexivity. Qed.

Example validate_email_accepts : _validate_email "a@b.co" = true.
Proof. reflexivity. Qed.

Example validate_email_rejects : _validate_email "not-an-email" = false.
Proof. reflexivity. Qed.

(** C7, as stated, fails: a role outside admin, user and guest is stored
    as it comes. *)
Lemma update_user_stores_any_role :
  existsb (String.eqb "superuser") ["admin"; "user"; "guest"]%string = false /\
  let run := update_user "user_1" (only_role "superuser") (facade 10 three_users) in
  exists resp u',
    fst run = Returned resp /\
    status resp = STATUS_SUCCESS /\
    dict_get "user_1" (users_of (snd run)) = Some u' /\
    role u' = "superuser"%string.
Proof.
  split; [reflexivity|]. vm_compute. eexists _, _.
  split; [reflexivity|]. repeat split.
Qed.

Lemma update_user_applies_fields_witness :
  let request := {| up_name := Some "Alicia"%string; up_email := None;
                    up_role := None; up_age := Some 30 |} in
  exists resp w' u',
    update_user "user_1" request (facade 10 three_users) = (Returned resp, w') /\
    status resp = STATUS_SUCCESS /\
    data resp = Some (to_dict u') /\
    dict_get "user_1" (users_of w') = Some u' /\
    keys (users_of w') = keys (users_of (facade 10 three_users)) /\
    name u' = "Alicia"%string /\
    email u' = email alice /\
    role u' = role alice /\
    age u' = Some 30 /\
    id u' = id alice /\ created_at u' = created_at alice.
Proof.
  intros request.
  assert (Hfound : dict_get "user_1" (users_of (facade 10 three_users)) = Some alice)
    by reflexivity.
  apply (proj1 (update_user_applies_fields (facade 10 three_users) "user_1"
                  request alice Hfound)).
  reflexivity.
Defined.

(** C5. [update_user] has no handler of its own: the [ValueError] of a
    setter leaves it as it is, and a field set before the failing one
    stays set; a [ValueError] raised inside [create_user] becomes an
    error envelope that carries its message. *)
Theorem update_user_error_escapes :
  let empty_name :=
    {| up_name := Some ""%string; up_email := None; up_role := None; up_age := None |} in
  let bad_email :=
    {| up_name := Some "Alicia"%string; up_email := Some "not-an-email"%string;
       up_role := None; up_age := None |} in
  let dan :=
    {| cr_name := Some "Dan"%string; cr_email := Some "dan@example.com"%string;
       cr_role := None |} in
  fst (update_user "user_1" empty_name (facade 10 three_users))
    = Raised (ValueError "Name cannot be empty") /\
  fst (update_user "user_1" bad_email (facade 10 three_users))
    = Raised (ValueError "Invalid email format") /\
  option_map name
    (dict_get "user_1"
       (users_of (snd (update_user "user_1" bad_email (facade 10 three_users)))))
    = Some "Alicia"%string /\
  option_map (fun resp => (status resp, message resp))
    (match fst (create_user dan (facade 3 three_users)) with
     | Returned resp => Some resp
     | Raised _ => None
     end)
    = Some ("error", "Internal error: Maximum users reached")%string.
Proof. repeat split. Qed.

End FacadeInstances.


(** * More of the package *)

(** ** Batches *)

Lemma firstn_plus {A} (a b : nat) (l : list A) :
  firstn (a + b)%nat l = firstn a l ++ firstn b (skipn a l).
Proof.
  revert l. induction a as [|a IH]; intros l; simpl; [reflexivity|].
  destruct l as [|x l]; simpl.
  - now rewrite firstn_nil.
  - now rewrite IH.
Qed.

Local Open Scope nat_scope.

Lemma chunks_concat {A} (b : nat) (l : list A) (k : nat) :
  List.concat (map (fun i => firstn b (skipn (i * b) l)) (seq 0 k))
  = firstn (k * b) l.
Proof.
  induction k as [|k IH]; [reflexivity|].
  rewrite seq_S, map_app, concat_app, IH. simpl. rewrite app_nil_r.
  rewrite (Nat.add_comm b (k * b)). symmetry. apply firstn_plus.
Qed.

Local Close Scope nat_scope.

Lemma py_range_steps (n b : Z) :
  0 < b -> 0 <= n ->
  py_range 0 n b =
    Some (map (fun i => Z.of_nat i * b) (seq 0 (Z.to_nat ((n + b - 1) / b)))).
Proof.
  intros Hb Hn. unfold py_range.
  destruct (Z.eqb_spec b 0); [lia|].
  destruct (Z.ltb_spec 0 b); [|lia].
  rewrite Z.sub_0_r. reflexivity.
Qed.

Lemma batch_count (n b : Z) :
  0 < b -> 0 <= n ->
  let k := (n + b - 1) / b in
  0 <= k /\ n <= k * b /\ (0 < k -> (k - 1) * b < n).
Proof.
  intros Hb Hn k.
  assert (Hdiv : b * k <= n + b - 1 < b * k + b).
  { unfold k. pose proof (Z.mul_div_le (n + b - 1) b Hb).
    pose proof (Z.mul_succ_div_gt (n + b - 1) b Hb). lia. }
  assert (0 <= k) by (unfold k; apply Z.div_pos; lia).
  nia.
Qed.

Section Batches.
Import data_processor.
Context {T V : Type} `{Input T} `{DataValidator V T}.

Lemma create_batches_run {St} (s : St) (data_list : list T) (batch_size : Z) :
  0 < batch_size ->
  _create_batches data_list batch_size s =
    (Returned
       (map (fun i => firstn (Z.to_nat batch_size)
                        (skipn (i * Z.to_nat batch_size) data_list))
            (seq 0 (Z.to_nat ((len data_list + batch_size - 1) / batch_size)))),
     s).
Proof.
  intros Hb. unfold _create_batches.
  rewrite py_range_steps by (unfold len; lia).
  unfold ret. f_equal. f_equal. rewrite map_map. apply map_ext. intros i.
  rewrite py_slice_in_range by lia. f_equal. f_equal. lia.
Qed.

Lemma batch_length (b n' i : nat) (l : list T) :
  List.length l = n' ->
  List.length (firstn b (skipn (i * b) l)) = Nat.min b (n' - i * b).
Proof. intros <-. now rewrite length_firstn, length_skipn. Qed.

Lemma create_batches_pieces {St} (s : St) (data_list : list T) (batch_size : Z) :
  0 < batch_size ->
  exists batches,
    _create_batches data_list batch_size s = (Returned batches, s) /\
    List.concat batches = data_list /\
    len batches = (len data_list + batch_size - 1) / batch_size /\
    Forall (fun batch => 0 < len batch <= batch_size) batches /\
    (forall i, (S i < List.length batches)%nat ->
               len (nth i batches []) = batch_size).
Proof.
  intros Hb. eexists. split; [apply (create_batches_run s _ _ Hb)|].
  destruct (batch_count (len data_list) batch_size Hb) as (Hk0 & Hcover & Hlast);
    [unfold len; lia|].
  set (k := (len data_list + batch_size - 1) / batch_size) in *.
  set (b := Z.to_nat batch_size).
  assert (Hbk : (Z.to_nat k * b)%nat = Z.to_nat (k * batch_size)) by (unfold b; nia).
  split; [|split; [|split]].
  - rewrite chunks_concat. apply firstn_all2. rewrite Hbk. unfold len in *. lia.
  - unfold len. rewrite length_map, length_seq. lia.
  - apply Forall_forall. intros batch Hin. apply in_map_iff in Hin.
    destruct Hin as (i & <- & Hi). apply in_seq in Hi.
    unfold len. rewrite (batch_length b _ i data_list eq_refl).
    assert (Z.of_nat i <= k - 1) by lia.
    assert (Z.of_nat i * batch_size <= (k - 1) * batch_size) by nia.
    assert (0 < k) by lia. specialize (Hlast ltac:(assumption)).
    unfold len in Hlast. unfold b. nia.
  - intros i Hi. rewrite length_map, length_seq in Hi.
    rewrite (nth_indep _ [] (firstn b (skipn (0 * b) data_list)))
      by (rewrite length_map, length_seq; lia).
    rewrite (map_nth (fun i => firstn b (skipn (i * b) data_list))).
    rewrite seq_nth by lia. simpl Nat.add.
    unfold len. rewrite (batch_length b _ i data_list eq_refl).
    assert (Z.of_nat i + 1 <= k - 1) by lia.
    assert ((Z.of_nat i + 1) * batch_size <= (k - 1) * batch_size) by nia.
    assert (0 < k) by lia. specialize (Hlast ltac:(assumption)).
    unfold len in Hlast. unfold b. nia.
Qed.


(** X1. With a positive batch size, the batches that [_create_batches]
    yields are the list cut into consecutive pieces: put end to end they
    give the list back, none is empty or longer than the batch size, and
    all but the last have exactly that size. *)
Theorem create_batches_partition {St} (s : St) (data_list : list T) (batch_size : Z) :
  0 < batch_size ->
  exists batches,
    _create_batches data_list batch_size s = (Returned batches, s) /\
    List.concat batches = data_list /\
    len batches = (len data_list + batch_size - 1) / batch_size /\
    Forall (fun batch => 0 < len batch <= batch_size) batches /\
    (forall i, (S i < List.length batches)%nat ->
               len (nth i batches []) = batch_size).
Proof. apply create_batches_pieces. Qed.

Lemma comprehension_app {St A B} (f : A -> M St B) (l1 l2 : list A) (s : St) :
  comprehension (l1 ++ l2) f s =
    bind (comprehension l1 f) (fun r1 =>
    bind (comprehension l2 f) (fun r2 => ret (r1 ++ r2))) s.
Proof.
  revert s. induction l1 as [|x l1 IH]; intros s; simpl.
  - unfold bind, ret. simpl. destruct (comprehension l2 f s) as [[r|ex] s']; reflexivity.
  - unfold bind, ret in *. destruct (f x s) as [[y|ex] s1]; [|reflexivity].
    rewrite IH.
    destruct (comprehension l1 f s1) as [[r1|ex] s2]; [|reflexivity].
    destruct (comprehension l2 f s2) as [[r2|ex] s3]; reflexivity.
Qed.

Lemma comprehension_length {St A B} (f : A -> M St B) (l : list A) :
  forall s results s',
    comprehension l f s = (Returned results, s') ->
    List.length results = List.length l.
Proof.
  induction l as [|x l IH]; intros s results s'; simpl.
  - now intros [= <- <-].
  - intros Hrun. bind_inv Hrun. bind_inv Hrun. injection Hrun as <- <-.
    simpl. f_equal. eapply IH. eassumption.
Qed.

Lemma batches_fold (batches : list (list T)) : forall acc w,
  for_fold batches acc (fun results batch =>
    batch_results <- comprehension batch process ;;
    ret (results ++ batch_results)) w =
  bind (comprehension (List.concat batches) process)
       (fun rs => ret (acc ++ rs)) w.
Proof.
  induction batches as [|batch batches IH]; intros acc w; simpl.
  - unfold bind, ret. now rewrite app_nil_r.
  - unfold bind, ret in *. rewrite comprehension_app. unfold bind, ret.
    destruct (comprehension batch process w) as [[r1|ex] w1]; [|reflexivity].
    rewrite IH.
    destruct (comprehension (List.concat batches) process w1) as [[r2|ex] w2];
      [|reflexivity].
    now rewrite app_assoc.
Qed.

(** X2. With a positive batch size, [process_batch] does what calling
    [process] on the items one after the other does, whatever the batch
    size: the same results in the same order, the same final state, the
    same exception when a call raises. *)
Theorem process_batch_is_sequential (data_list : list T) (batch_size : Z)
  (w : World T V) :
  0 < batch_size ->
  process_batch data_list batch_size w = comprehension data_list process w /\
  (forall results w',
     process_batch data_list batch_size w = (Returned results, w') ->
     len results = len data_list).
Proof.
  intros Hb.
  assert (Hrun : process_batch data_list batch_size w
                 = comprehension data_list process w).
  { unfold process_batch. unfold bind at 1.
    destruct (create_batches_pieces w data_list batch_size Hb)
      as (batches & -> & Hconcat & _).
    rewrite batches_fold, Hconcat. unfold bind, ret. simpl.
    destruct (comprehension data_list process w) as [[r|ex] w']; reflexivity. }
  split; [exact Hrun|].
  intros results w'. rewrite Hrun. intros Hc. unfold len.
  now rewrite (comprehension_length _ _ _ _ _ Hc).
Qed.

(** X3. A batch size of zero makes [process_batch] raise the
    [ValueError] of [range]; a negative one makes it return no result at
    all.  Either way no item is processed and the processor is left as it
    was. *)
Theorem process_batch_without_batches (data_list : list T) (batch_size : Z)
  (w : World T V) :
  batch_size <= 0 ->
  process_batch data_list batch_size w =
    (if batch_size =? 0
     then Raised (ValueError "range() arg 3 must not be zero")
     else Returned [],
     w).
Proof.
  intros Hb. unfold process_batch, _create_batches, py_range.
  destruct (Z.eqb_spec batch_size 0) as [->|Hne]; [reflexivity|].
  destruct (Z.ltb_spec 0 batch_size); [lia|].
  assert (Hneg : (0 - len data_list - batch_size - 1) / - batch_size <= 0).
  { apply Z.lt_succ_r. apply Z.div_lt_upper_bound; unfold len; lia. }
  replace (Z.to_nat ((0 - len data_list - batch_size - 1) / - batch_size))
    with 0%nat by lia.
  reflexivity.
Qed.

End Batches.

(** ** The cache between calls *)

Section CacheInvariants.
Import data_processor.
Context {T V : Type} `{Input T} `{DataValidator V T}.
Implicit Types (w : World T V) (data : T) (e : ProcessedData T).

Lemma process_miss_run w data :
  dict_get (_get_cache_key data) (_cache (self w)) = None ->
  process data w =
    let p0 :=
      set_stats (add_miss (_stats (self w)))
        {| _processing_count := _processing_count (self w) + 1;
           _cache := _cache (self w); _stats := _stats (self w);
           _validator := _validator (self w);
           _max_cache_size := _max_cache_size (self w) |} in
    let finish (cs : list (Call T)) :=
      let result := fresh_entry (reading (clock w)) (reads (clock w)) data in
      match _add_to_cache (_get_cache_key data) result
              {| self := p0; clock := tick (tick (tick (clock w)));
                 calls := cs ++ [CallDoProcessing data] |} with
      | (Returned _, wa) => (Returned result, wa)
      | (Raised ex, wa) => (Raised ex, wa)
      end in
    match _validator (self w) with
    | Some v =>
        if validate v data then finish (calls w ++ [CallValidate data])
        else
          (Raised (ValueError
                     ("Invalid data: " ++ str_of_list (get_validation_errors v data))%string),
           {| self := p0; clock := clock w;
              calls := (calls w ++ [CallValidate data])
                       ++ [CallGetValidationErrors data] |})
    | None => finish (calls w)
    end.
Proof.
  intros Hget. unfold process, pre_process, _do_processing, post_process, record.
  unfold bind at 1 2 3 4. unfold gets, on_self, modify, ret. simpl.
  rewrite Hget. unfold bind at 1. unfold bind at 1.
  destruct (_validator (self w)) as [v|].
  - destruct (validate v data).
    + unfold bind at 1. unfold bind, now, fresh_entry, current. simpl.
      match goal with
      | |- context [_add_to_cache ?k ?e ?wa] =>
          destruct (_add_to_cache k e wa) as [[[]|ex] wb]
      end; reflexivity.
    + reflexivity.
  - unfold bind, now, fresh_entry, current. simpl.
    match goal with
    | |- context [_add_to_cache ?k ?e ?wa] =>
        destruct (_add_to_cache k e wa) as [[[]|ex] wb]
    end; reflexivity.
Qed.


Lemma process_hit_run w data e :
  dict_get (_get_cache_key data) (_cache (self w)) = Some e ->
  process data w =
    (Returned e,
     {| self :=
          set_stats (add_hit (_stats (self w)))
            {| _processing_count := _processing_count (self w) + 1;
               _cache := _cache (self w); _stats := _stats (self w);
               _validator := _validator (self w);
               _max_cache_size := _max_cache_size (self w) |};
        clock := clock w; calls := calls w |}).
Proof.
  intros Hget. unfold process, pre_process, bind, gets, on_self, modify, ret. simpl.
  now rewrite Hget.
Qed.

Lemma dict_del_length {A} (d : dict A) k d' :
  dict_del k d = Some d' -> List.length d = S (List.length d').
Proof.
  revert d'. induction d as [|[k' v'] d IH]; simpl; intros d'; [discriminate|].
  destruct (String.eqb k k').
  - now intros [= <-].
  - destruct (dict_del k d) as [c|]; [|discriminate].
    intros [= <-]. simpl. f_equal. now apply IH.
Qed.

Lemma dict_set_length {A} (d : dict A) k v :
  (List.length d <= List.length (dict_set k v d) <= S (List.length d))%nat.
Proof.
  induction d as [|[k' v'] d IH]; simpl; [lia|].
  destruct (String.eqb k k'); simpl; lia.
Qed.

(** What [_add_to_cache] leaves alone and how far it moves the rest,
    whether it returns or raises. *)
Lemma add_to_cache_frame w key e r w' :
  _add_to_cache key e w = (r, w') ->
  hits (_stats (self w')) = hits (_stats (self w)) /\
  misses (_stats (self w')) = misses (_stats (self w)) /\
  size (_stats (self w')) = size (_stats (self w)) /\
  evictions (_stats (self w)) <= evictions (_stats (self w'))
    <= evictions (_stats (self w)) + 1 /\
  _processing_count (self w') = _processing_count (self w) /\
  _max_cache_size (self w') = _max_cache_size (self w) /\
  _validator (self w') = _validator (self w) /\
  clock w' = clock w /\ calls w' = calls w /\
  (len (_cache (self w)) <= _max_cache_size (self w) ->
   len (_cache (self w')) <= _max_cache_size (self w)).
Proof.
  unfold _add_to_cache, bind, gets, on_self, modify, ret, raise. simpl.
  destruct (Z.leb_spec (_max_cache_size (self w)) (len (_cache (self w)))).
  - destruct (py_min _ _) as [[ok oe]|].
    + destruct (dict_del ok _) as [c|] eqn:Hdel.
      * intros [= <- <-]. simpl. repeat split; try lia.
        intros Hle. apply dict_del_length in Hdel.
        pose proof (dict_set_length c key e). unfold len in *. lia.
      * intros [= <- <-]. repeat split; lia.
    + intros [= <- <-]. repeat split; lia.
  - intros [= <- <-]. simpl. repeat split; try lia.
    intros _. pose proof (dict_set_length (_cache (self w)) key e).
    unfold len in *. lia.
Qed.

(** What a call of [process] does to the counters and the bound,
    whether it returns or raises. *)
Lemma process_frame w data r w' :
  process data w = (r, w') ->
  hits (_stats (self w')) + misses (_stats (self w'))
    = hits (_stats (self w)) + misses (_stats (self w)) + 1 /\
  hits (_stats (self w)) <= hits (_stats (self w')) /\
  misses (_stats (self w)) <= misses (_stats (self w')) /\
  evictions (_stats (self w)) <= evictions (_stats (self w'))
    <= evictions (_stats (self w)) + 1 /\
  size (_stats (self w')) = size (_stats (self w)) /\
  _processing_count (self w') = _processing_count (self w) + 1 /\
  _max_cache_size (self w') = _max_cache_size (self w) /\
  _validator (self w') = _validator (self w) /\
  (len (_cache (self w)) <= _max_cache_size (self w) ->
   len (_cache (self w')) <= _max_cache_size (self w)).
Proof.
  destruct (dict_get (_get_cache_key data) (_cache (self w))) as [c|] eqn:Hget.
  - rewrite (process_hit_run w data c Hget). intros [= <- <-]. simpl.
    repeat split; lia.
  - rewrite (process_miss_run w data Hget). cbv zeta.
    assert (Hfin : forall cs r w',
      match _add_to_cache (_get_cache_key data)
              (fresh_entry (reading (clock w)) (reads (clock w)) data)
              {| self :=
                   set_stats (add_miss (_stats (self w)))
                     {| _processing_count := _processing_count (self w) + 1;
                        _cache := _cache (self w); _stats := _stats (self w);
                        _validator := _validator (self w);
                        _max_cache_size := _max_cache_size (self w) |};
                 clock := tick (tick (tick (clock w)));
                 calls := cs ++ [CallDoProcessing data] |} with
      | (Returned _, wa) =>
          (Returned (fresh_entry (reading (clock w)) (reads (clock w)) data), wa)
      | (Raised ex, wa) => (Raised ex, wa)
      end = (r, w') ->
      hits (_stats (self w')) + misses (_stats (self w'))
        = hits (_stats (self w)) + misses (_stats (self w)) + 1 /\
      hits (_stats (self w)) <= hits (_stats (self w')) /\
      misses (_stats (self w)) <= misses (_stats (self w')) /\
      evictions (_stats (self w)) <= evictions (_stats (self w'))
        <= evictions (_stats (self w)) + 1 /\
      size (_stats (self w')) = size (_stats (self w)) /\
      _processing_count (self w') = _processing_count (self w) + 1 /\
      _max_cache_size (self w') = _max_cache_size (self w) /\
      _validator (self w') = _validator (self w) /\
      (len (_cache (self w)) <= _max_cache_size (self w) ->
       len (_cache (self w')) <= _max_cache_size (self w))).
    { intros cs r0 w0.
      match goal with
      | |- context [_add_to_cache ?k ?e ?wa] =>
          destruct (_add_to_cache k e wa) as [ra wb] eqn:Hadd
      end.
      apply add_to_cache_frame in Hadd. simpl in Hadd.
      destruct Hadd as (Hh & Hm & Hs & He & Hc & Hx & Hv & _ & _ & Hb).
      destruct ra as [[]|ex]; intros [= <- <-]; repeat split; try lia; assumption. }
    destruct (_validator (self w)) as [v|].
    + destruct (validate v data); [apply Hfin|].
      intros [= <- <-]. simpl. repeat split; lia.
    + apply Hfin.
Qed.

(** X4. Every call of [process], whether it returns or raises, counts as
    exactly one lookup: hits plus misses grow by one, neither ever goes
    down, at most one entry is evicted, the processing count grows by
    one, and the recorded size, the bound and the validator stay as they
    were. *)
Theorem process_counts_one_lookup w data :
  let w' := snd (process data w) in
  hits (_stats (self w')) + misses (_stats (self w'))
    = hits (_stats (self w)) + misses (_stats (self w)) + 1 /\
  hits (_stats (self w)) <= hits (_stats (self w')) /\
  misses (_stats (self w)) <= misses (_stats (self w')) /\
  evictions (_stats (self w)) <= evictions (_stats (self w'))
    <= evictions (_stats (self w)) + 1 /\
  size (_stats (self w')) = size (_stats (self w)) /\
  _processing_count (self w') = _processing_count (self w) + 1 /\
  _max_cache_size (self w') = _max_cache_size (self w) /\
  _validator (self w') = _validator (self w).
Proof.
  intros w'. subst w'.
  destruct (process data w) as [r w'] eqn:Hrun. simpl.
  pose proof (process_frame w data r w' Hrun) as P. tauto.
Qed.


Lemma scan_kept_length r ttl (d : dict (ProcessedData T)) n :
  len (scan false r ttl n d) <= len d.
Proof.
  pose proof (scan_length r ttl d n). unfold len in *. lia.
Qed.

(** X5. A cache that is a dict of at most [_max_cache_size] entries stays
    one: after [process], [remove_expired] or [clear_cache], returned or
    raised, its keys are still unique and it still holds no more entries
    than the bound, which itself never changes. *)
Theorem cache_stays_within_bound w :
  dict_wf (_cache (self w)) ->
  len (_cache (self w)) <= _max_cache_size (self w) ->
  forall w',
    (exists data, w' = snd (process data w)) \/
    (exists ttl, w' = snd (remove_expired ttl w)) \/
    w' = snd (clear_cache w) ->
    dict_wf (_cache (self w')) /\
    len (_cache (self w')) <= _max_cache_size (self w') /\
    _max_cache_size (self w') = _max_cache_size (self w).
Proof.
  intros Hwf Hle w' [(data & ->)|[(ttl & ->)| ->]].
  - destruct (process data w) as [r w'] eqn:Hrun. simpl.
    pose proof (process_frame w data r w' Hrun) as (_ & _ & _ & _ & _ & _ & Hmax & _ & Hb).
    split; [exact (process_keeps_wf w data r w' Hwf Hrun)|].
    rewrite Hmax. auto.
  - rewrite (remove_expired_run w ttl Hwf). simpl.
    split; [now apply scan_wf|]. split; [|reflexivity].
    pose proof (scan_kept_length (reading (clock w)) ttl (_cache (self w))
                  (reads (clock w))). lia.
  - simpl. split; [constructor|]. split; [|reflexivity].
    change (len (@nil (string * ProcessedData T))) with 0. unfold len in Hle. lia.
Qed.

(** X6. On a miss that the validator, if there is one, lets through, and
    with room in the cache or an entry to evict, [process] returns a new
    entry: its id is the cache key, it holds the input and the digest of
    the input's string form after [processed_], and its times are the
    three readings of the clock that the call makes.  The entry is cached
    last, after entries that were cached before; the miss is counted; the
    validator, if any, was asked once and the transformation ran once. *)
Theorem process_miss_builds_entry w data :
  dict_wf (_cache (self w)) ->
  dict_get (_get_cache_key data) (_cache (self w)) = None ->
  (forall v, _validator (self w) = Some v -> validate v data = true) ->
  len (_cache (self w)) < _max_cache_size (self w) \/ _cache (self w) <> [] ->
  exists w' kept,
    let result := fresh_entry (reading (clock w)) (reads (clock w)) data in
    process data w = (Returned result, w') /\
    id result = _get_cache_key data /\
    original_data result = data /\
    processed_data result = ("processed_" ++ md5_hexdigest (str data))%string /\
    _cache (self w') = kept ++ [(_get_cache_key data, result)] /\
    (forall kv, In kv kept -> In kv (_cache (self w))) /\
    misses (_stats (self w')) = misses (_stats (self w)) + 1 /\
    hits (_stats (self w')) = hits (_stats (self w)) /\
    calls w' =
      calls w
      ++ match _validator (self w) with
         | Some _ => [CallValidate data]
         | None => []
         end
      ++ [CallDoProcessing data] /\
    reads (clock w') = (reads (clock w) + 3)%nat.
Proof.
  intros Hwf Hnew Hval Hroom.
  set (result := fresh_entry (reading (clock w)) (reads (clock w)) data).
  assert (Hadd : forall (wa : World T V),
            _cache (self wa) = _cache (self w) ->
            _max_cache_size (self wa) = _max_cache_size (self w) ->
            exists wb kept,
              _add_to_cache (_get_cache_key data) result wa = (Returned tt, wb) /\
              _cache (self wb) = kept ++ [(_get_cache_key data, result)] /\
              (forall kv, In kv kept -> In kv (_cache (self w)))).
  { intros wa Hc Hmax.
    destruct (Z.leb_spec (_max_cache_size (self w)) (len (_cache (self w)))) as [Hcap|Hlt].
    - destruct Hroom as [Hlt|Hne]; [lia|].
      destruct (add_to_cache_evicts wa (_get_cache_key data) result)
        as (l1 & ok & oe & l2 & wb & Hrun & Hsplit & _ & Hwb & _);
        rewrite ?Hc, ?Hmax; auto.
      exists wb, (l1 ++ l2). split; [exact Hrun|]. split; [now rewrite Hwb, app_assoc|].
      intros kv Hin. rewrite <- Hc, Hsplit. apply in_app_iff in Hin.
      apply in_app_iff. simpl. tauto.
    - rewrite add_to_cache_below by (rewrite Hc, Hmax; exact Hlt).
      eexists _, (_cache (self w)). split; [reflexivity|]. simpl.
      rewrite Hc, (dict_set_new _ _ _ Hnew). auto. }
  rewrite (process_miss_run w data Hnew). cbv zeta. fold result.
  destruct (_validator (self w)) as [v|] eqn:Hv.
  - rewrite (Hval v eq_refl).
    match goal with
    | |- context [_add_to_cache ?k ?e ?wa] =>
        destruct (Hadd wa eq_refl eq_refl) as (wb & kept & Hrun & Hc & Hin);
        pose proof (add_to_cache_frame wa k e _ wb Hrun)
          as (Hh & Hm & _ & _ & _ & _ & _ & Hcl & Hcs & _)
    end.
    rewrite Hrun. exists wb, kept. simpl in *.
    rewrite Hcl, Hcs, Hh, Hm. repeat split; auto;
      try (now rewrite <- app_assoc); unfold tick; simpl; lia.
  - match goal with
    | |- context [_add_to_cache ?k ?e ?wa] =>
        destruct (Hadd wa eq_refl eq_refl) as (wb & kept & Hrun & Hc & Hin);
        pose proof (add_to_cache_frame wa k e _ wb Hrun)
          as (Hh & Hm & _ & _ & _ & _ & _ & Hcl & Hcs & _)
    end.
    rewrite Hrun. exists wb, kept. simpl in *.
    rewrite Hcl, Hcs, Hh, Hm. repeat split; auto; unfold tick; simpl; lia.
Qed.

(** X7. [clear_cache] empties the cache and adds to the eviction counter
    the size that the last reading of [cache_stats] recorded, which is
    the number of entries dropped when [cache_stats] was read just
    before; [process] leaves that recorded size as it was. *)
Theorem clear_cache_counts_recorded_size w :
  _cache (self (snd (clear_cache w))) = [] /\
  size (_stats (self (snd (clear_cache w)))) = 0 /\
  evictions (_stats (self (snd (clear_cache w))))
    = evictions (_stats (self w)) + size (_stats (self w)) /\
  evictions (_stats (self (snd (clear_cache (snd (cache_stats w))))))
    = evictions (_stats (self w)) + len (_cache (self w)) /\
  (forall data,
     size (_stats (self (snd (process data w)))) = size (_stats (self w))).
Proof.
  repeat split.
  intros data. destruct (process data w) as [r w'] eqn:Hrun. simpl.
  pose proof (process_frame w data r w' Hrun) as P. tauto.
Qed.


Lemma scan_values_kept ttl (d : dict (ProcessedData T)) : forall w,
  comprehension_if (values d) (fun x => b <- is_expired x ttl ;; ret (negb b)) w =
    (Returned (values (scan false (reading (clock w)) ttl (reads (clock w)) d)),
     later (List.length d) w).
Proof.
  induction d as [|kv d IH]; intros w; simpl.
  - unfold ret. now rewrite later_0.
  - unfold bind at 1 2. rewrite is_expired_run. unfold ret at 1.
    unfold bind at 1. rewrite IH. unfold ret, later, current. simpl.
    rewrite Nat.add_1_r, Nat.add_succ_r. simpl.
    now destruct (negb (Qle_bool _ ttl)).
Qed.

Lemma iter_valid_data_run w ttl :
  iter_valid_data ttl w =
    (Returned (values (scan false (reading (clock w)) ttl (reads (clock w))
                         (_cache (self w)))),
     later (List.length (_cache (self w))) w).
Proof.
  unfold iter_valid_data. unfold bind at 1. unfold gets.
  unfold bind at 1. rewrite scan_values_kept. reflexivity.
Qed.

(** X8. Started from the same state, [iter_valid_data] yields, in cache
    order, exactly the entries that [remove_expired] keeps for the same
    time to live; unlike it, it leaves the cache as it is.  Both read the
    clock once per entry. *)
Theorem iter_valid_data_yields_the_kept w ttl :
  dict_wf (_cache (self w)) ->
  fst (iter_valid_data ttl w)
    = Returned (values (_cache (self (snd (remove_expired ttl w))))) /\
  _cache (self (snd (iter_valid_data ttl w))) = _cache (self w) /\
  clock (snd (iter_valid_data ttl w)) = clock (snd (remove_expired ttl w)) /\
  reads (clock (snd (iter_valid_data ttl w)))
    = (reads (clock w) + List.length (_cache (self w)))%nat.
Proof.
  intros Hwf. rewrite (remove_expired_run w ttl Hwf), iter_valid_data_run.
  simpl. repeat split.
Qed.

(** X9. [__validate_internal_state] compares the recorded size with the
    cache, and only [cache_stats] and [clear_cache] write the recorded
    size: a miss that stores its result leaves a state the check
    refuses, until [cache_stats] is read. *)
Theorem internal_state_waits_for_cache_stats w data :
  _DataProcessor__validate_internal_state (self w) = true ->
  dict_get (_get_cache_key data) (_cache (self w)) = None ->
  (forall v, _validator (self w) = Some v -> validate v data = true) ->
  len (_cache (self w)) < _max_cache_size (self w) ->
  let w' := snd (process data w) in
  _DataProcessor__validate_internal_state (self w') = false /\
  fst (cache_stats w') =
    Returned {| hits := hits (_stats (self w));
                misses := misses (_stats (self w)) + 1;
                evictions := evictions (_stats (self w));
                size := len (_cache (self w)) + 1 |} /\
  _DataProcessor__validate_internal_state (self (snd (cache_stats w'))) = true.
Proof.
  intros Hok Hnew Hval Hroom.
  unfold _DataProcessor__validate_internal_state in Hok.
  apply Bool.andb_true_iff in Hok. destruct Hok as [Hok Hsize].
  apply Bool.andb_true_iff in Hok. destruct Hok as [Hpos Hle].
  apply Z.ltb_lt in Hpos. apply Z.leb_le in Hle. apply Z.eqb_eq in Hsize.
  assert (Hlen : len (dict_set (_get_cache_key data)
                        (fresh_entry (reading (clock w)) (reads (clock w)) data)
                        (_cache (self w))) = len (_cache (self w)) + 1).
  { rewrite (dict_set_new _ _ _ Hnew). unfold len. rewrite length_app. simpl. lia. }
  rewrite (process_miss_run w data Hnew). cbv zeta.
  assert (Hrun : forall cs,
    _add_to_cache (_get_cache_key data)
      (fresh_entry (reading (clock w)) (reads (clock w)) data)
      {| self :=
           set_stats (add_miss (_stats (self w)))
             {| _processing_count := _processing_count (self w) + 1;
                _cache := _cache (self w); _stats := _stats (self w);
                _validator := _validator (self w);
                _max_cache_size := _max_cache_size (self w) |};
         clock := tick (tick (tick (clock w))); calls := cs |} =
    (Returned tt,
     {| self :=
          set_cache (dict_set (_get_cache_key data)
                       (fresh_entry (reading (clock w)) (reads (clock w)) data)
                       (_cache (self w)))
            (set_stats (add_miss (_stats (self w)))
               {| _processing_count := _processing_count (self w) + 1;
                  _cache := _cache (self w); _stats := _stats (self w);
                  _validator := _validator (self w);
                  _max_cache_size := _max_cache_size (self w) |});
        clock := tick (tick (tick (clock w))); calls := cs |})).
  { intros cs. now rewrite add_to_cache_below by exact Hroom. }
  destruct (_validator (self w)) as [v|] eqn:Hv.
  - rewrite (Hval v eq_refl), Hrun.
    unfold _DataProcessor__validate_internal_state, cache_stats, bind, on_self,
      modify, gets. simpl. rewrite Hlen.
    repeat split.
    + replace (size (_stats (self w)) =? len (_cache (self w)) + 1) with false
        by (symmetry; apply Z.eqb_neq; lia).
      apply Bool.andb_false_r.
    + rewrite Z.eqb_refl.
      replace (0 <? _max_cache_size (self w)) with true
        by (symmetry; apply Z.ltb_lt; lia).
      replace (len (_cache (self w)) + 1 <=? _max_cache_size (self w)) with true
        by (symmetry; apply Z.leb_le; lia).
      reflexivity.
  - rewrite Hrun.
    unfold _DataProcessor__validate_internal_state, cache_stats, bind, on_self,
      modify, gets. simpl. rewrite Hlen.
    repeat split.
    + replace (size (_stats (self w)) =? len (_cache (self w)) + 1) with false
        by (symmetry; apply Z.eqb_neq; lia).
      apply Bool.andb_false_r.
    + rewrite Z.eqb_refl.
      replace (0 <? _max_cache_size (self w)) with true
        by (symmetry; apply Z.ltb_lt; lia).
      replace (len (_cache (self w)) + 1 <=? _max_cache_size (self w)) with true
        by (symmetry; apply Z.leb_le; lia).
      reflexivity.
Qed.

End CacheInvariants.

(** ** Patterns and the strings they match *)

Section Strings.
Local Open Scope string_scope.

Lemma append_nil_r (s : string) : s ++ "" = s.
Proof. induction s as [|c s IH]; simpl; [reflexivity|now rewrite IH]. Qed.

Lemma append_assoc (s1 s2 s3 : string) : (s1 ++ s2) ++ s3 = s1 ++ (s2 ++ s3).
Proof. induction s1 as [|c s1 IH]; simpl; [reflexivity|now rewrite IH]. Qed.

Lemma append_eq_nil (s1 s2 : string) : s1 ++ s2 = "" -> s1 = "" /\ s2 = "".
Proof. destruct s1; simpl; [auto|discriminate]. Qed.

Lemma append_eq_cons (s1 s2 s : string) c :
  s1 ++ s2 = String c s ->
  (s1 = "" /\ s2 = String c s) \/ (exists s1', s1 = String c s1' /\ s = s1' ++ s2).
Proof.
  destruct s1 as [|c1 s1]; simpl; [auto|].
  intros [= -> <-]. right. eauto.
Qed.

Lemma list_ascii_append (s1 s2 : string) :
  list_ascii_of_string (s1 ++ s2)
  = (list_ascii_of_string s1 ++ list_ascii_of_string s2)%list.
Proof. induction s1 as [|c s1 IH]; simpl; [reflexivity|now rewrite IH]. Qed.

Lemma length_append (s1 s2 : string) :
  String.length (s1 ++ s2) = (String.length s1 + String.length s2)%nat.
Proof. induction s1 as [|c s1 IH]; simpl; [reflexivity|now rewrite IH]. Qed.

End Strings.

Section Patterns.
Import re.
Local Open Scope string_scope.

Lemma Matches_Never s : ~ Matches Never s.
Proof. intros Hm. inversion Hm. Qed.

Lemma Matches_Epsilon s : Matches Epsilon s <-> s = "".
Proof. split; [intros Hm; now inversion Hm|intros ->; constructor]. Qed.

Lemma Matches_Class p s : Matches (Class p) s <-> exists c, s = String c "" /\ p c = true.
Proof.
  split.
  - intros Hm. inversion Hm; subst. eauto.
  - intros (c & -> & Hp). now constructor.
Qed.

Lemma Matches_Seq r1 r2 s :
  Matches (Seq r1 r2) s <->
  exists s1 s2, s = s1 ++ s2 /\ Matches r1 s1 /\ Matches r2 s2.
Proof.
  split.
  - intros Hm. inversion Hm; subst. eauto.
  - intros (s1 & s2 & -> & H1 & H2). now constructor.
Qed.

Lemma Matches_Alt r1 r2 s : Matches (Alt r1 r2) s <-> Matches r1 s \/ Matches r2 s.
Proof.
  split.
  - intros Hm. inversion Hm; subst; auto.
  - intros [Hm|Hm]; [now apply MAltL|now apply MAltR].
Qed.

Lemma nullable_spec r : nullable r = true <-> Matches r "".
Proof.
  induction r as [| |p|r1 IH1 r2 IH2|r1 IH1 r2 IH2|r IH]; simpl.
  - split; [discriminate|]. intros Hm. inversion Hm.
  - split; [constructor|reflexivity].
  - split; [discriminate|]. intros Hm. inversion Hm.
  - rewrite Bool.andb_true_iff, IH1, IH2. split.
    + intros [H1 H2]. exact (MSeq r1 r2 "" "" H1 H2).
    + intros Hm. apply Matches_Seq in Hm.
      destruct Hm as (s1 & s2 & Heq & H1 & H2). symmetry in Heq.
      apply append_eq_nil in Heq. destruct Heq as [-> ->]. auto.
  - rewrite Bool.orb_true_iff, IH1, IH2, Matches_Alt. tauto.
  - split; [constructor|reflexivity].
Qed.

Lemma seq_spec r1 r2 s : Matches (seq r1 r2) s <-> Matches (Seq r1 r2) s.
Proof.
  destruct r1; simpl; try tauto.
  - split; [intros Hm; now apply Matches_Never in Hm|].
    intros Hm. apply Matches_Seq in Hm. destruct Hm as (s1 & s2 & _ & Hm & _).
    now apply Matches_Never in Hm.
  - split.
    + intros Hm. exact (MSeq Epsilon r2 "" s MEpsilon Hm).
    + intros Hm. apply Matches_Seq in Hm. destruct Hm as (s1 & s2 & -> & H1 & H2).
      apply Matches_Epsilon in H1. now subst.
Qed.

Lemma alt_spec r1 r2 s : Matches (alt r1 r2) s <-> Matches (Alt r1 r2) s.
Proof.
  rewrite Matches_Alt.
  destruct r1, r2; simpl; rewrite ?Matches_Alt;
    try tauto;
    split; intros Hm; auto;
    repeat match goal with
    | H : _ \/ _ |- _ => destruct H
    | H : Matches Never _ |- _ => now apply Matches_Never in H
    end; auto.
Qed.

(** A match of [Star r] that begins with [c] begins with a match of [r]
    that begins with [c]. *)
Lemma Matches_Star_cons r c s :
  Matches (Star r) (String c s) ->
  exists s1 s2, s = s1 ++ s2 /\ Matches r (String c s1) /\ Matches (Star r) s2.
Proof.
  intros Hm. remember (Star r) as r' eqn:Hr. remember (String c s) as s' eqn:Hs.
  revert s Hs.
  induction Hm as [| | | | | |r0 s1 s2 H1 _ H2 IH2]; try discriminate.
  injection Hr as ->. intros s Hs.
  destruct (append_eq_cons _ _ _ _ Hs) as [[-> ->]|(s1' & -> & ->)].
  - now apply IH2.
  - eauto.
Qed.

Lemma after_spec c r : forall s, Matches (after c r) s <-> Matches r (String c s).
Proof.
  induction r as [| |p|r1 IH1 r2 IH2|r1 IH1 r2 IH2|r IH]; intros s; simpl.
  - split; intros Hm; now apply Matches_Never in Hm.
  - split; intros Hm; [now apply Matches_Never in Hm|].
    apply Matches_Epsilon in Hm. discriminate.
  - rewrite Matches_Class. destruct (p c) eqn:Hp.
    + rewrite Matches_Epsilon. split.
      * intros ->. eauto.
      * intros (c' & [= <- ->] & _). reflexivity.
    + split; [intros Hm; now apply Matches_Never in Hm|].
      intros (c' & [= <- ->] & Hp'). congruence.
  - rewrite alt_spec, Matches_Alt, seq_spec, !Matches_Seq. split.
    + intros [(s1 & s2 & -> & H1 & H2)|Hm].
      * apply IH1 in H1. exists (String c s1), s2. auto.
      * destruct (nullable r1) eqn:Hn; [|now apply Matches_Never in Hm].
        apply nullable_spec in Hn. apply IH2 in Hm. exists "", (String c s). auto.
    + intros (s1 & s2 & Heq & H1 & H2). symmetry in Heq.
      destruct (append_eq_cons _ _ _ _ Heq) as [[-> ->]|(s1' & -> & ->)].
      * right. apply nullable_spec in H1. rewrite H1. now apply IH2.
      * left. exists s1', s2. split; [reflexivity|]. split; [now apply IH1|exact H2].
  - rewrite alt_spec, !Matches_Alt, IH1, IH2. tauto.
  - rewrite seq_spec, Matches_Seq. split.
    + intros (s1 & s2 & -> & H1 & H2). apply IH in H1.
      exact (MStarMore r (String c s1) s2 H1 H2).
    + intros Hm. apply Matches_Star_cons in Hm.
      destruct Hm as (s1 & s2 & -> & H1 & H2).
      exists s1, s2. split; [reflexivity|]. split; [now apply IH|exact H2].
Qed.

Lemma fullmatch_spec s : forall r, fullmatch r s = true <-> Matches r s.
Proof.
  induction s as [|c s IH]; intros r; simpl.
  - apply nullable_spec.
  - rewrite IH. apply after_spec.
Qed.

End Patterns.

Section Email.
Import re user.
Local Open Scope string_scope.

Lemma Matches_Star_Class p s :
  Matches (Star (Class p)) s <-> all_in p s = true.
Proof.
  unfold all_in. split.
  - intros Hm. remember (Star (Class p)) as r eqn:Hr.
    induction Hm as [| | | | | |r0 s1 s2 H1 _ H2 IH2]; try discriminate.
    + reflexivity.
    + injection Hr as ->. apply Matches_Class in H1. destruct H1 as (c & -> & Hp).
      simpl. rewrite Hp. now apply IH2.
  - induction s as [|c s IH]; simpl; [constructor|].
    intros Hall. apply Bool.andb_true_iff in Hall. destruct Hall as [Hp Hall].
    apply (MStarMore (Class p) (String c "") s); [now constructor|auto].
Qed.

Lemma Matches_Plus_Class p s :
  Matches (Plus (Class p)) s <-> s <> "" /\ all_in p s = true.
Proof.
  unfold Plus. rewrite Matches_Seq. split.
  - intros (s1 & s2 & -> & H1 & H2). apply Matches_Class in H1.
    destruct H1 as (c & -> & Hp). apply Matches_Star_Class in H2.
    split; [discriminate|]. unfold all_in in *. simpl. now rewrite Hp.
  - intros [Hne Hall]. destruct s as [|c s]; [contradiction|].
    unfold all_in in Hall. simpl in Hall. apply Bool.andb_true_iff in Hall.
    destruct Hall as [Hp Hall].
    exists (String c ""), s. split; [reflexivity|].
    split; [now constructor|now apply Matches_Star_Class].
Qed.

Lemma Matches_AtLeast2_Class p s :
  Matches (AtLeast2 (Class p)) s <->
  (2 <= String.length s)%nat /\ all_in p s = true.
Proof.
  unfold AtLeast2. rewrite Matches_Seq. split.
  - intros (s1 & s2 & -> & H1 & H2). apply Matches_Class in H1.
    destruct H1 as (c & -> & Hp). apply Matches_Plus_Class in H2.
    destruct H2 as [Hne Hall]. destruct s2 as [|c2 s2]; [contradiction|].
    split; [simpl; lia|]. unfold all_in in *. simpl in *. now rewrite Hp.
  - intros [Hlen Hall]. destruct s as [|c [|c2 s]]; simpl in Hlen; try lia.
    unfold all_in in Hall. simpl in Hall.
    apply Bool.andb_true_iff in Hall. destruct Hall as [Hp Hall].
    exists (String c ""), (String c2 s). split; [reflexivity|].
    split; [now constructor|]. apply Matches_Plus_Class.
    split; [discriminate|exact Hall].
Qed.

Lemma Matches_Lit c s : Matches (Lit c) s <-> s = String c "".
Proof.
  unfold Lit. rewrite Matches_Class. split.
  - intros (c' & -> & Heq). apply Ascii.eqb_eq in Heq. now subst.
  - intros ->. exists c. split; [reflexivity|apply Ascii.eqb_refl].
Qed.

Lemma Matches_Dollar s : Matches Dollar s <-> s = "" \/ s = String "010"%char "".
Proof. unfold Dollar. now rewrite Matches_Alt, Matches_Epsilon, Matches_Lit. Qed.

Lemma validate_email_shape (email : string) :
  _validate_email email = true <->
  exists local domain tld newline,
    email = (local ++ "@" ++ domain ++ "." ++ tld) ++ newline /\
    local <> "" /\
    all_in (fun c => alnum c || one_of "._%+-" c) local = true /\
    domain <> "" /\
    all_in (fun c => alnum c || one_of ".-" c) domain = true /\
    (2 <= String.length tld)%nat /\
    all_in letter tld = true /\
    (newline = "" \/ newline = String "010"%char "").
Proof.
  unfold _validate_email, match_anchored, pattern.
  rewrite fullmatch_spec, Matches_Seq. split.
  - intros (s & nl & -> & Hs & Hnl).
    apply Matches_Seq in Hs. destruct Hs as (local & s1 & -> & Hlocal & Hs).
    apply Matches_Seq in Hs. destruct Hs as (at_ & s2 & -> & Hat & Hs).
    apply Matches_Seq in Hs. destruct Hs as (domain & s3 & -> & Hdomain & Hs).
    apply Matches_Seq in Hs. destruct Hs as (dot & tld & -> & Hdot & Htld).
    apply Matches_Lit in Hat, Hdot. subst at_ dot.
    apply Matches_Plus_Class in Hlocal, Hdomain.
    apply Matches_AtLeast2_Class in Htld. apply Matches_Dollar in Hnl.
    exists local, domain, tld, nl. simpl. tauto.
  - intros (local & domain & tld & nl & -> & Hl1 & Hl2 & Hd1 & Hd2 & Ht1 & Ht2 & Hnl).
    eexists _, nl. split; [reflexivity|]. split; [|now apply Matches_Dollar].
    apply Matches_Seq. exists local, ("@" ++ domain ++ "." ++ tld).
    split; [reflexivity|]. split; [now apply Matches_Plus_Class|].
    apply Matches_Seq. exists "@", (domain ++ "." ++ tld).
    split; [reflexivity|]. split; [now apply Matches_Lit|].
    apply Matches_Seq. exists domain, ("." ++ tld).
    split; [reflexivity|]. split; [now apply Matches_Plus_Class|].
    apply Matches_Seq. exists ".", tld.
    split; [reflexivity|]. split; [now apply Matches_Lit|].
    now apply Matches_AtLeast2_Class.
Qed.


(** X10. The addresses that [_validate_email] accepts are exactly the
    strings made of a local part, [@], a domain, a dot and a top-level
    part, possibly followed by one newline: the local part is not empty
    and made of letters, digits and [._%+-]; the domain is not empty and
    made of letters, digits, dots and hyphens; the top-level part is two
    letters or more. *)
Theorem validate_email_accepts_exactly (email : string) :
  _validate_email email = true <->
  exists local domain tld newline,
    email = (local ++ "@" ++ domain ++ "." ++ tld) ++ newline /\
    local <> "" /\
    all_in (fun c => alnum c || one_of "._%+-" c) local = true /\
    domain <> "" /\
    all_in (fun c => alnum c || one_of ".-" c) domain = true /\
    (2 <= String.length tld)%nat /\
    all_in letter tld = true /\
    (newline = "" \/ newline = String "010"%char "").
Proof. apply validate_email_shape. Qed.

Lemma valid_email_has_at (email : string) :
  _validate_email email = true ->
  email <> "" /\ contains_char "@" email = true.
Proof.
  intros Hok. apply validate_email_shape in Hok.
  destruct Hok as (local & domain & tld & nl & -> & Hl & _).
  split.
  - destruct local; [contradiction|discriminate].
  - unfold contains_char. rewrite !list_ascii_append, !existsb_app. simpl.
    now rewrite !Bool.orb_true_r.
Qed.

(** X11. [validate_user_data] and [User.is_valid] agree: the first
    answers [True], with no message, exactly for the users for which the
    second holds; otherwise it names the first of identifier, name and
    email that is missing or, failing that, the bad format. *)
Theorem validate_user_data_agrees_with_is_valid (u : User) :
  fst (validate_user_data u) = is_valid u /\
  (snd (validate_user_data u) = None <-> is_valid u = true) /\
  (is_valid u = false ->
   snd (validate_user_data u) =
     Some (if String.eqb (id u) "" then "User ID is required"
           else if String.eqb (name u) "" then "User name is required"
           else if String.eqb (email u) "" then "User email is required"
           else "Invalid email format")).
Proof.
  unfold validate_user_data, is_valid.
  destruct (String.eqb_spec (id u) ""); simpl;
    [split; [reflexivity|split; [split; discriminate|reflexivity]]|].
  destruct (String.eqb_spec (name u) ""); simpl;
    [split; [reflexivity|split; [split; discriminate|reflexivity]]|].
  destruct (String.eqb_spec (email u) "") as [->|Hne]; simpl;
    [split; [reflexivity|split; [split; discriminate|reflexivity]]|].
  destruct (_validate_email (email u)); simpl.
  - split; [reflexivity|]. split; [tauto|discriminate].
  - split; [reflexivity|]. split; [split; discriminate|reflexivity].
Qed.

(** X12. A user that [is_valid] also [has_email]: an address that passes
    the pattern is not empty and holds an [@]. *)
Theorem valid_user_has_email (u : User) :
  is_valid u = true -> has_email u = true.
Proof.
  unfold is_valid, has_email. intros Hv.
  apply Bool.andb_true_iff in Hv. destruct Hv as [_ He].
  destruct (valid_email_has_at _ He) as [Hne Hat]. rewrite Hat.
  destruct (String.eqb_spec (email u) ""); [contradiction|reflexivity].
Qed.

Lemma is_valid_parts (u : User) :
  is_valid u = true <->
  id u <> "" /\ name u <> "" /\ _validate_email (email u) = true.
Proof.
  unfold is_valid. rewrite !Bool.andb_true_iff, !Bool.negb_true_iff.
  destruct (String.eqb_spec (id u) ""), (String.eqb_spec (name u) "");
    intuition congruence.
Qed.

Lemma set_name_keeps v (o : Object) :
  (is_valid (this o) = true -> is_valid (this (snd (set_name v o))) = true) /\
  (forall ex, fst (set_name v o) = Raised ex -> snd (set_name v o) = o).
Proof.
  unfold set_name. destruct (String.eqb_spec v "") as [->|Hne]; simpl.
  - auto.
  - split; [|discriminate]. rewrite !is_valid_parts. simpl. tauto.
Qed.

Lemma set_email_keeps v (o : Object) :
  (is_valid (this o) = true -> is_valid (this (snd (set_email v o))) = true) /\
  (forall ex, fst (set_email v o) = Raised ex -> snd (set_email v o) = o).
Proof.
  unfold set_email. destruct (_validate_email v) eqn:Hv; simpl.
  - split; [|discriminate]. rewrite !is_valid_parts. simpl. tauto.
  - auto.
Qed.

Lemma set_age_keeps v (o : Object) :
  (is_valid (this o) = true -> is_valid (this (snd (set_age v o))) = true) /\
  (forall ex, fst (set_age v o) = Raised ex -> snd (set_age v o) = o).
Proof.
  unfold set_age. destruct v as [a|]; [destruct (a <? 0)%Z|]; simpl; auto;
    split; auto; discriminate.
Qed.

(** X13. [set_name], [set_email] and [set_age] keep a valid user valid,
    whatever they are given and whether they return or raise; and a
    setter that raises leaves the user, and the clock, exactly as they
    were. *)
Theorem setters_keep_user_valid (o : Object) :
  is_valid (this o) = true ->
  forall o',
    (exists v, o' = snd (set_name v o)) \/
    (exists v, o' = snd (set_email v o)) \/
    (exists v, o' = snd (set_age v o)) ->
    is_valid (this o') = true /\
    ((forall v ex, fst (set_name v o) = Raised ex -> snd (set_name v o) = o) /\
     (forall v ex, fst (set_email v o) = Raised ex -> snd (set_email v o) = o) /\
     (forall v ex, fst (set_age v o) = Raised ex -> snd (set_age v o) = o)).
Proof.
  intros Hv o' Ho'. split.
  - destruct Ho' as [(v & ->)|[(v & ->)|(v & ->)]].
    + now apply set_name_keeps.
    + now apply set_email_keeps.
    + now apply set_age_keeps.
  - repeat split; intros v ex.
    + apply set_name_keeps.
    + apply set_email_keeps.
    + apply set_age_keeps.
Qed.

End Email.
(** ** The registry between calls *)

Section DictMore.
Context {V : Type}.
Implicit Types (d : dict V) (k : string) (v : V).

Lemma dict_get_set_other d k k' v :
  k <> k' -> dict_get k (dict_set k' v d) = dict_get k d.
Proof.
  intros Hne. induction d as [|[k0 v0] d IH]; simpl.
  - destruct (String.eqb_spec k k'); [contradiction|reflexivity].
  - destruct (String.eqb_spec k' k0) as [->|Hne0]; simpl.
    + destruct (String.eqb_spec k k0); [contradiction|reflexivity].
    + destruct (String.eqb_spec k k0); [reflexivity|exact IH].
Qed.

Lemma dict_get_del_other d k k' d' :
  k <> k' -> dict_del k' d = Some d' -> dict_get k d' = dict_get k d.
Proof.
  intros Hne. revert d'. induction d as [|[k0 v0] d IH]; simpl; intros d';
    [discriminate|].
  destruct (String.eqb_spec k' k0) as [->|Hne0].
  - intros [= <-]. destruct (String.eqb_spec k k0); [contradiction|reflexivity].
  - destruct (dict_del k' d) as [c|]; [|discriminate].
    intros [= <-]. simpl. destruct (String.eqb_spec k k0); [reflexivity|].
    now apply IH.
Qed.

Lemma dict_get_del_same d k d' :
  dict_wf d -> dict_del k d = Some d' -> dict_get k d' = None.
Proof.
  unfold dict_wf. revert d'.
  induction d as [|[k0 v0] d IH]; simpl; intros d' Hnd; [discriminate|].
  inversion Hnd as [|? ? Hk0 Hd]; subst.
  destruct (String.eqb_spec k k0) as [->|Hne].
  - intros [= <-]. now apply dict_get_None.
  - destruct (dict_del k d) as [c|]; [|discriminate].
    intros [= <-]. simpl. destruct (String.eqb_spec k k0); [contradiction|].
    now apply IH.
Qed.

Lemma dict_del_appended d k v :
  dict_get k d = None -> dict_del k (d ++ [(k, v)]) = Some d.
Proof.
  induction d as [|[k0 v0] d IH]; simpl.
  - now rewrite String.eqb_refl.
  - destruct (String.eqb_spec k k0); [discriminate|].
    intros Hg. now rewrite IH.
Qed.

Lemma dict_get_appended d k v :
  dict_get k d = None -> dict_get k (d ++ [(k, v)]) = Some v.
Proof.
  induction d as [|[k0 v0] d IH]; simpl.
  - now rewrite String.eqb_refl.
  - destruct (String.eqb_spec k k0); [discriminate|exact IH].
Qed.

Lemma dict_del_present d k v :
  dict_get k d = Some v -> exists d', dict_del k d = Some d'.
Proof.
  intros Hg. destruct (dict_get_split d k v Hg) as (l1 & l2 & _ & _ & Hdel). eauto.
Qed.

End DictMore.

Section RegistryInvariants.
Import user_service.
Context {U L : Type} `{Identified U} `{UserListener L U}.
Implicit Types (w : World U L) (user : U) (event : UserEvent).

(** X15. A registry with at most [max_users] records, each under its own
    key, stays so through [add_user] and [remove_user], whatever they
    answer; neither touches the bound or the listeners. *)
Theorem registry_stays_within_bound w :
  dict_wf (_users (self w)) ->
  len (_users (self w)) <= max_users (self w) ->
  forall w',
    (exists user, w' = snd (add_user user w)) \/
    (exists user_id, w' = snd (remove_user user_id w)) ->
    dict_wf (_users (self w')) /\
    len (_users (self w')) <= max_users (self w') /\
    max_users (self w') = max_users (self w) /\
    _UserService__listeners (self w') = _UserService__listeners (self w).
Proof.
  intros Hwf Hle w' [[user ->]|[user_id ->]].
  - rewrite add_user_self.
    destruct (dict_in (id_of user) (_users (self w))) eqn:Hin; [auto|].
    destruct (Z.leb_spec (max_users (self w)) (len (_users (self w)))); [auto|].
    simpl. split; [|split; [|auto]].
    + rewrite <- (dict_set_new _ _ _ (dict_in_false _ _ Hin)).
      now apply dict_set_wf.
    + unfold len in *. rewrite length_app. simpl. lia.
  - rewrite remove_user_self.
    destruct (dict_get user_id (_users (self w))) as [u|] eqn:Hg; [|auto].
    destruct (dict_del user_id (_users (self w))) as [d|] eqn:Hd; [|auto].
    simpl. split; [|split; [|auto]].
    + exact (dict_del_wf _ _ _ Hwf Hd).
    + apply dict_del_length in Hd. unfold len in *. lia.
Qed.

(** X16. [find_user] after a change: what [add_user] stored is found
    under its id, a removed id is found no more, and every other id
    answers as before; [find_user] itself changes nothing. *)
Theorem find_user_after_changes w user user_id :
  (forall k, snd (find_user k w) = w) /\
  (fst (add_user user w) = Returned true ->
   fst (find_user (id_of user) (snd (add_user user w))) = Returned (Some user)) /\
  (forall k, k <> id_of user ->
     fst (find_user k (snd (add_user user w))) = fst (find_user k w)) /\
  (dict_wf (_users (self w)) ->
   fst (find_user user_id (snd (remove_user user_id w))) = Returned None) /\
  (forall k, k <> user_id ->
     fst (find_user k (snd (remove_user user_id w))) = fst (find_user k w)).
Proof.
  unfold find_user, bind, gets, ret. simpl.
  rewrite add_user_self, remove_user_self.
  split; [reflexivity|]. split; [|split; [|split]].
  - intros Htrue. destruct (add_user_true w user Htrue) as [Hin Hroom].
    rewrite Hin. destruct (Z.leb_spec (max_users (self w)) (len (_users (self w)))); [lia|].
    simpl. now rewrite (dict_get_appended _ _ _ (dict_in_false _ _ Hin)).
  - intros k Hne.
    destruct (dict_in (id_of user) (_users (self w))) eqn:Hin; [reflexivity|].
    destruct (max_users (self w) <=? len (_users (self w))); [reflexivity|].
    simpl. rewrite <- (dict_set_new _ _ user (dict_in_false _ _ Hin)).
    now rewrite dict_get_set_other.
  - intros Hwf.
    destruct (dict_get user_id (_users (self w))) as [u|] eqn:Hg; simpl;
      [|now rewrite Hg].
    destruct (dict_del_present _ _ _ Hg) as [d Hd]. rewrite Hd. simpl.
    now rewrite (dict_get_del_same _ _ _ Hwf Hd).
  - intros k Hne.
    destruct (dict_get user_id (_users (self w))) as [u|] eqn:Hg; [|reflexivity].
    destruct (dict_del user_id (_users (self w))) as [d|] eqn:Hd; [|reflexivity].
    simpl. now rewrite (dict_get_del_other _ _ _ _ Hne Hd).
Qed.

(** *** Listeners whose failures are all caught *)

Section CaughtInvariants.
Context `{!Caught L U}.

Lemma add_user_run w user :
  add_user user w =
    if dict_in (id_of user) (_users (self w)) then (Returned false, w)
    else if max_users (self w) <=? len (_users (self w)) then
      (Raised (ValueError "Maximum users reached"), w)
    else
      (Returned true,
       {| self := set_users (_users (self w) ++ [(id_of user, user)]) (self w);
          effects := effects w
                     ++ deliveries (_UserService__listeners (self w)) USER_ADDED user |}).
Proof.
  destruct (dict_in (id_of user) (_users (self w))) eqn:Hin.
  - now apply add_user_duplicate.
  - destruct (Z.leb_spec (max_users (self w)) (len (_users (self w)))).
    + now apply add_user_full.
    + now apply add_user_inserts.
Qed.

Lemma remove_user_run w user_id :
  remove_user user_id w =
    match dict_get user_id (_users (self w)), dict_del user_id (_users (self w)) with
    | Some user, Some d =>
        (Returned true,
         {| self := set_users d (self w);
            effects := effects w
                       ++ deliveries (_UserService__listeners (self w))
                            USER_REMOVED user |})
    | Some user, None => (Raised (KeyError user_id), w)
    | None, _ => (Returned false, w)
    end.
Proof.
  destruct (dict_get user_id (_users (self w))) as [user|] eqn:Hget.
  - destruct (remove_user_present w user_id user Hget)
      as (l1 & l2 & Hsplit & Hn & Hrun).
    destruct (dict_get_split _ _ _ Hget) as (l1' & l2' & Hsplit' & Hn' & Hdel).
    rewrite Hdel.
    unfold remove_user. unfold bind at 1. unfold gets at 1. rewrite Hget, Hdel.
    unfold bind at 1. unfold on_self, modify.
    unfold bind. rewrite notify_listeners_run. reflexivity.
  - now apply remove_user_absent.
Qed.

(** X14. [user_count] follows the answers: it grows by one exactly when
    [add_user] returns [True], shrinks by one exactly when [remove_user]
    returns [True], and is otherwise as it was; [remove_user] never
    raises. *)
Theorem user_count_follows_the_answers w user user_id :
  user_count (self (snd (add_user user w))) =
    user_count (self w)
    + match fst (add_user user w) with Returned true => 1 | _ => 0 end /\
  user_count (self (snd (remove_user user_id w))) =
    user_count (self w)
    - match fst (remove_user user_id w) with Returned true => 1 | _ => 0 end /\
  (fst (remove_user user_id w) = Returned true <->
   dict_in user_id (_users (self w)) = true) /\
  (fst (remove_user user_id w) = Returned false <->
   dict_in user_id (_users (self w)) = false).
Proof.
  rewrite add_user_run, remove_user_run. unfold user_count, dict_in. split.
  - destruct (dict_get (id_of user) (_users (self w))); simpl; [lia|].
    destruct (max_users (self w) <=? len (_users (self w))); simpl; [lia|].
    unfold len. rewrite length_app. simpl. lia.
  - destruct (dict_get user_id (_users (self w))) as [u|] eqn:Hg; simpl.
    + destruct (dict_del_present _ _ _ Hg) as [d Hd]. rewrite Hd. simpl.
      apply dict_del_length in Hd. unfold len. rewrite Hd.
      split; [lia|]. split; split; congruence.
    + split; [lia|]. split; split; congruence.
Qed.

(** X17. Adding a new user and removing it again restores the records,
    in their order; what remains of the pair of calls is the two rounds
    of notifications. *)
Theorem add_then_remove_restores w user :
  dict_in (id_of user) (_users (self w)) = false ->
  len (_users (self w)) < max_users (self w) ->
  exists w1 w2,
    add_user user w = (Returned true, w1) /\
    remove_user (id_of user) w1 = (Returned true, w2) /\
    self w2 = self w /\
    effects w2 =
      effects w
      ++ deliveries (_UserService__listeners (self w)) USER_ADDED user
      ++ deliveries (_UserService__listeners (self w)) USER_REMOVED user.
Proof.
  intros Hin Hroom. rewrite (add_user_inserts _ _ Hin Hroom).
  eexists _, _. split; [reflexivity|].
  rewrite remove_user_run. simpl.
  rewrite (dict_get_appended _ _ _ (dict_in_false _ _ Hin)).
  rewrite (dict_del_appended _ _ _ (dict_in_false _ _ Hin)).
  split; [reflexivity|]. simpl. split.
  - now destruct (self w).
  - now rewrite app_assoc.
Qed.

End CaughtInvariants.

End RegistryInvariants.
(** ** The facade between calls *)

Section Facade.
Import user api_controller.
Context {L : Type} `{user_service.UserListener L User} `{Runtime}.
Implicit Types (w : World L) (o : user.Object).

Lemma get_user_run w user_id :
  get_user user_id w =
    (Returned
       match dict_get user_id (users_of w) with
       | Some u => answer STATUS_SUCCESS "User found" (Some (to_dict u)) w
       | None => answer STATUS_ERROR "User not found" None w
       end,
     after_request "get_user" (user_service (self w)) w).
Proof.
  unfold get_user, log_request. unfold bind at 1 2.
  unfold on_self, print, modify. simpl.
  unfold bind at 1. unfold in_service, zoom, user_service.find_user.
  unfold bind at 1. unfold gets, ret. simpl. unfold users_of.
  destruct (dict_get user_id _); unfold success, error; rewrite response_run;
    reflexivity.
Qed.

Lemma delete_user_run w user_id :
  delete_user user_id w =
    let (r, s) := user_service.remove_user user_id (user_service (self w)) in
    match r with
    | Returned removed =>
        (Returned (if removed then answer STATUS_SUCCESS "User deleted" None w
                   else answer STATUS_ERROR "User not found" None w),
         after_request "delete_user" s w)
    | Raised ex =>
        (Raised ex,
         {| self := {| user_service := s;
                       _request_count := _request_count (self w) + 1 |};
            clock := clock w; uuid4_hex := uuid4_hex w; drawn := drawn w;
            stdout := stdout w ++ ["API request: delete_user"%string] |})
    end.
Proof.
  unfold delete_user, log_request. unfold bind at 1 2.
  unfold on_self, print, modify. simpl.
  unfold bind at 1. unfold in_service, zoom. simpl.
  destruct (user_service.remove_user user_id (user_service (self w)))
    as [[[]|ex] s]; unfold success, error; rewrite ?response_run; reflexivity.
Qed.

Lemma update_user_absent w user_id request :
  dict_get user_id (users_of w) = None ->
  update_user user_id request w =
    (Returned (answer STATUS_ERROR "User not found" None w),
     after_request "update_user" (user_service (self w)) w).
Proof.
  intros Hg. unfold update_user, log_request. unfold bind at 1 2.
  unfold on_self, print, modify. simpl.
  unfold bind at 1. unfold in_service, zoom, user_service.find_user.
  unfold bind at 1. unfold gets, ret. simpl. unfold users_of in Hg. rewrite Hg.
  unfold error. rewrite response_run. reflexivity.
Qed.

Lemma create_user_rejected w request :
  truthy (cr_name request) = false \/ truthy (cr_email request) = false ->
  create_user request w =
    (Returned (answer STATUS_ERROR "Name and email are required" None w),
     after_request "create_user" (user_service (self w)) w).
Proof.
  intros Hreq. unfold create_user, log_request. unfold bind at 1 2.
  unfold on_self, print, modify, try_except. simpl.
  destruct (cr_name request) as [name|], (cr_email request) as [email|];
    simpl in Hreq;
    try (unfold error; rewrite response_run; reflexivity).
  replace (String.eqb name "" || String.eqb email "") with true.
  - unfold error. rewrite response_run. reflexivity.
  - symmetry. apply Bool.orb_true_iff.
    destruct Hreq as [Hx|Hx]; apply Bool.negb_false_iff in Hx; auto.
Qed.

(** What [create_user] does with a name and an email that are not
    empty: the answer depends on nothing but what [add_user] says, and
    what [add_user] raises from outside [Exception] is raised on. *)
Lemma create_user_run w name email role :
  name <> ""%string -> email <> ""%string ->
  create_user {| cr_name := Some name; cr_email := Some email; cr_role := role |} w =
    let user := created name email role w in
    let (r, s) := user_service.add_user user (user_service (self w)) in
    let after (c : Clock) : World L :=
      {| self := {| user_service := s;
                    _request_count := _request_count (self w) + 1 |};
         clock := c; uuid4_hex := uuid4_hex w; drawn := S (drawn w);
         stdout := stdout w ++ ["API request: create_user"%string] |} in
    let answered (status message : string) (data : option Json) :=
      (Returned {| status := status; message := message; data := data;
                   timestamp := isoformat (current (tick (clock w))) |},
       after (tick (tick (clock w)))) in
    match r with
    | Returned true => answered STATUS_SUCCESS "User created"%string (Some (to_dict user))
    | Returned false => answered STATUS_ERROR "User already exists"%string None
    | Raised ex =>
        if below_Exception ex
        then answered STATUS_ERROR ("Internal error: " ++ str_exn ex)%string None
        else (Raised ex, after (tick (clock w)))
    end.
Proof.
  intros Hn He.
  unfold create_user, log_request. unfold bind at 1 2.
  unfold on_self, print, modify. unfold try_except. simpl.
  destruct (String.eqb_spec name ""); [contradiction|].
  destruct (String.eqb_spec email ""); [contradiction|]. simpl.
  unfold bind at 1. unfold _generate_user_id, bind at 1, uuid4, ret. simpl.
  unfold bind at 1. unfold new, bind at 1, now, ret. simpl.
  unfold bind at 1. unfold in_service, zoom. simpl.
  unfold created. simpl.
  match goal with
  | |- context [user_service.add_user ?u ?s] =>
      destruct (user_service.add_user u s) as [[[]|ex] s']
  end; [| |destruct (below_Exception ex)];
    unfold success, error; rewrite ?response_run; reflexivity.
Qed.

(** X18. Every decorated method counts one request and prints one line,
    whatever it answers and also when it raises; [list_users], which is
    not decorated, counts and prints nothing. *)
Theorem request_count_counts_decorated_calls w :
  let counted (func_name : string) (w' : World L) :=
    _request_count (self w') = _request_count (self w) + 1 /\
    stdout w' = stdout w ++ [("API request: " ++ func_name)%string] in
  (forall request, counted "create_user"%string (snd (create_user request w))) /\
  (forall user_id, counted "get_user"%string (snd (get_user user_id w))) /\
  (forall user_id request,
     counted "update_user"%string (snd (update_user user_id request w))) /\
  (forall user_id, counted "delete_user"%string (snd (delete_user user_id w))) /\
  (forall role limit offset,
     _request_count (self (snd (list_users role limit offset w)))
       = _request_count (self w) /\
     stdout (snd (list_users role limit offset w)) = stdout w).
Proof.
  cbv zeta. split; [|split; [|split; [|split]]].
  - intros request.
    assert (Hrej : truthy (cr_name request) = false \/
                   truthy (cr_email request) = false ->
                   _request_count (self (snd (create_user request w)))
                     = _request_count (self w) + 1 /\
                   stdout (snd (create_user request w))
                     = stdout w ++ ["API request: create_user"%string]).
    { intros Hx. now rewrite (create_user_rejected _ _ Hx). }
    destruct request as [[name|] [email|] role]; try solve [apply Hrej; simpl; auto].
    destruct (String.eqb_spec name "") as [->|Hn]; [apply Hrej; simpl; auto|].
    destruct (String.eqb_spec email "") as [->|He]; [apply Hrej; simpl; auto|].
    rewrite (create_user_run _ _ _ _ Hn He). cbv zeta.
    destruct (user_service.add_user _ _) as [[[]|ex] s];
      [| |destruct (below_Exception ex)]; now split.
  - intros user_id. now rewrite get_user_run.
  - intros user_id request.
    destruct (dict_get user_id (users_of w)) as [u|] eqn:Hg.
    + rewrite (update_user_found _ _ _ _ Hg).
      now destruct (update_fields _ _) as [[[]|ex] o'].
    + now rewrite update_user_absent.
  - intros user_id. rewrite delete_user_run.
    now destruct (user_service.remove_user _ _) as [[[]|ex] s].
  - intros role limit offset. now rewrite list_users_run.
Qed.

(** X19. An id the registry does not hold: [get_user], [update_user]
    and [delete_user] all answer "User not found", and leave the
    registry, its listeners and its log as they were. *)
Theorem unknown_id_is_not_found w user_id :
  dict_get user_id (users_of w) = None ->
  get_user user_id w =
    (Returned (answer STATUS_ERROR "User not found" None w),
     after_request "get_user" (user_service (self w)) w) /\
  (forall request,
     update_user user_id request w =
       (Returned (answer STATUS_ERROR "User not found" None w),
        after_request "update_user" (user_service (self w)) w)) /\
  delete_user user_id w =
    (Returned (answer STATUS_ERROR "User not found" None w),
     after_request "delete_user" (user_service (self w)) w).
Proof.
  intros Hg. split; [|split].
  - now rewrite get_user_run, Hg.
  - intros request. now apply update_user_absent.
  - rewrite delete_user_run, remove_user_absent by exact Hg. reflexivity.
Qed.

(** X20. A request without a name or an email, or with an empty one, is
    turned down before anything else happens: no identifier is drawn
    and the registry is not consulted. *)
Theorem create_user_requires_name_and_email w request :
  truthy (cr_name request) = false \/ truthy (cr_email request) = false ->
  create_user request w =
    (Returned (answer STATUS_ERROR "Name and email are required" None w),
     after_request "create_user" (user_service (self w)) w).
Proof. apply create_user_rejected. Qed.

(** From here on the failures of the listeners are all caught. *)
Context `{!user_service.Caught L User}.

(** X21. Creating and reading back: with a name and an email, a fresh
    identifier and room in the registry, [create_user] appends the user
    it describes, and [get_user] on the identifier answers with the same
    data.  The email is stored unchecked: the stored user [is_valid]
    exactly when the email passes [_validate_email]. *)
Theorem create_then_get w name email role :
  name <> ""%string -> email <> ""%string ->
  let user := created name email role w in
  dict_in (id user) (users_of w) = false ->
  len (users_of w)
    < user_service.max_users (user_service.self (user_service (self w))) ->
  exists resp w1 resp2 w2,
    create_user {| cr_name := Some name; cr_email := Some email; cr_role := role |} w
      = (Returned resp, w1) /\
    status resp = STATUS_SUCCESS /\ message resp = "User created"%string /\
    data resp = Some (to_dict user) /\
    users_of w1 = users_of w ++ [(id user, user)] /\
    drawn w1 = S (drawn w) /\
    get_user (id user) w1 = (Returned resp2, w2) /\
    status resp2 = STATUS_SUCCESS /\ message resp2 = "User found"%string /\
    data resp2 = data resp /\
    users_of w2 = users_of w1 /\
    is_valid user = _validate_email email.
Proof.
  intros Hn He user Hnew Hroom.
  rewrite (create_user_run _ _ _ _ Hn He). cbv zeta. fold user.
  unfold users_of in *.
  change (id user) with (user_service.id_of user) in Hnew.
  rewrite (add_user_inserts _ user Hnew Hroom).
  eexists _, _, _, _. split; [reflexivity|].
  rewrite get_user_run. unfold users_of. simpl.
  rewrite (dict_get_appended _ _ _ (dict_in_false _ _ Hnew)).
  repeat split.
  unfold is_valid. simpl.
  destruct (String.eqb_spec name ""); [contradiction|reflexivity].
Qed.

(** X22. After [delete_user] an identifier is gone: [delete_user]
    answers "User deleted" exactly for an identifier the registry
    holds, and [get_user] on it then answers "User not found". *)
Theorem delete_then_get w user_id :
  dict_wf (users_of w) ->
  exists resp w1 resp2 w2,
    delete_user user_id w = (Returned resp, w1) /\
    (status resp, message resp) =
      (if dict_in user_id (users_of w)
       then (STATUS_SUCCESS, "User deleted"%string)
       else (STATUS_ERROR, "User not found"%string)) /\
    dict_wf (users_of w1) /\
    get_user user_id w1 = (Returned resp2, w2) /\
    status resp2 = STATUS_ERROR /\ message resp2 = "User not found"%string /\
    (forall k, k <> user_id -> dict_get k (users_of w2) = dict_get k (users_of w)).
Proof.
  intros Hwf. rewrite delete_user_run, remove_user_run.
  unfold users_of in *. unfold dict_in.
  destruct (dict_get user_id _) as [u|] eqn:Hg.
  - destruct (dict_del_present _ _ _ Hg) as [d Hd]. rewrite Hd.
    eexists _, _, _, _. split; [reflexivity|]. rewrite get_user_run.
    unfold users_of. simpl.
    rewrite (dict_get_del_same _ _ _ Hwf Hd).
    repeat split.
    + exact (dict_del_wf _ _ _ Hwf Hd).
    + intros k Hne. exact (dict_get_del_other _ _ _ _ Hne Hd).
  - eexists _, _, _, _. split; [reflexivity|]. rewrite get_user_run.
    unfold users_of. simpl. rewrite Hg. repeat split. exact Hwf.
Qed.

Lemma update_fields_keeps request o r o' :
  update_fields request o = (r, o') ->
  id (this o') = id (this o) /\
  (is_valid (this o) = true -> is_valid (this o') = true) /\
  (forall v, up_name request = Some v -> v <> ""%string -> name (this o') = v).
Proof.
  unfold update_fields, set_name, set_email, set_age, update_timestamp, on_this.
  destruct request as [[n|] [e|] [r0|] [a|]]; simpl;
    repeat match goal with
           | |- context [String.eqb ?x ""] => destruct (String.eqb_spec x "")
           | |- context [_validate_email ?x] =>
               let Hx := fresh "Hx" in destruct (_validate_email x) eqn:Hx
           | |- context [(?x <? 0)%Z] => destruct (x <? 0)%Z
           end;
    simpl; intros [= <- <-]; rewrite !is_valid_parts; simpl;
    (split; [reflexivity|split; [tauto|]]);
    intros v Hv; try discriminate; injection Hv as <-; intros; congruence.
Qed.

(** X23. [update_user] never leaves a worse record behind: whatever the
    request and whether the call returns or raises, the record of a
    valid user is still there, under the same identifier, and still
    valid.  It is not all-or-nothing: a name that passed is kept even
    when a later field makes the call raise. *)
Theorem update_user_keeps_record_valid w user_id request u :
  dict_get user_id (users_of w) = Some u ->
  is_valid u = true ->
  exists u',
    dict_get user_id (users_of (snd (update_user user_id request w))) = Some u' /\
    id u' = id u /\ is_valid u' = true /\
    keys (users_of (snd (update_user user_id request w))) = keys (users_of w) /\
    (forall v, up_name request = Some v -> v <> ""%string -> name u' = v).
Proof.
  intros Hg Hv. rewrite (update_user_found _ _ _ _ Hg).
  destruct (update_fields request {| this := u; user.clock := clock w |})
    as [r o'] eqn:Hrun.
  destruct (update_fields_keeps _ _ _ _ Hrun) as (Hid & Hval & Hname).
  exists (this o'). unfold users_of in *.
  destruct r as [[]|ex]; simpl;
    (split; [apply dict_get_set_same|]);
    (split; [exact Hid|]); (split; [exact (Hval Hv)|]);
    (split; [exact (dict_set_keys _ _ _ _ Hg)|exact Hname]).
Qed.

Lemma py_slice_tiles {A} (l : list A) (offset limit limit' : Z) :
  0 <= offset -> 0 <= limit -> 0 <= limit' ->
  py_slice l offset (offset + limit)
  ++ py_slice l (offset + limit) (offset + limit + limit')
  = py_slice l offset (offset + (limit + limit')).
Proof.
  intros Ho Hl Hl'.
  rewrite !py_slice_in_range by lia.
  rewrite (Z2Nat.inj_add limit limit'), (Z2Nat.inj_add offset limit) by lia.
  rewrite firstn_plus. f_equal.
  rewrite (Nat.add_comm (Z.to_nat offset)). now rewrite <- skipn_skipn.
Qed.

Lemma py_slice_length {A} (l : list A) (offset limit : Z) :
  0 <= offset -> 0 <= limit ->
  len (py_slice l offset (offset + limit)) = Z.min limit (Z.max 0 (len l - offset)).
Proof.
  intros Ho Hl. rewrite py_slice_in_range by lia.
  unfold len. rewrite length_firstn, length_skipn. lia.
Qed.

(** X24. Pages of [list_users] for arguments that are not negative:
    the page returned holds the [limit] selected records after the
    first [offset], or what is left of them; the page asked for next, at
    [offset + limit], continues it without gap or overlap, the two
    together being the page of [limit + limit'] at [offset]; the total
    reported is the number of selected records; and listing changes
    nothing that a later listing reads. *)
Theorem list_users_pages_tile w role limit limit' offset :
  0 <= offset -> 0 <= limit -> 0 <= limit' ->
  exists r1 w1 r2 w2 r3 w3 p1 p2,
    list_users role limit offset w = (Returned r1, w1) /\
    list_users role limit' (offset + limit) w1 = (Returned r2, w2) /\
    list_users role (limit + limit') offset w2 = (Returned r3, w3) /\
    data_at "users" r1 = Some (JList (map to_dict p1)) /\
    data_at "users" r2 = Some (JList (map to_dict p2)) /\
    data_at "users" r3 = Some (JList (map to_dict (p1 ++ p2))) /\
    data_at "total" r1 = Some (JInt (len (listed role w))) /\
    p1 = firstn (Z.to_nat limit) (skipn (Z.to_nat offset) (listed role w)) /\
    len p1 = Z.min limit (Z.max 0 (len (listed role w) - offset)) /\
    users_of w3 = users_of w.
Proof.
  intros Ho Hl Hl'. rewrite list_users_run.
  eexists _, _. rewrite list_users_run.
  eexists _, _. rewrite list_users_run.
  eexists _, _.
  exists (py_slice (listed role w) offset (offset + limit)),
         (py_slice (listed role w) (offset + limit) (offset + limit + limit')).
  split; [reflexivity|]. split; [reflexivity|]. split; [reflexivity|].
  split; [reflexivity|]. split; [reflexivity|]. split.
  - rewrite py_slice_tiles by assumption. reflexivity.
  - split; [reflexivity|]. split; [now apply py_slice_in_range|].
    split; [now apply py_slice_length|reflexivity].
Qed.

(** X25. Parsing and then listing: with the limit and offset that
    [parse_pagination_params] returns, the page that [list_users]
    returns is the [limit] selected records after the first [offset];
    it holds at most 1000 records, and at least one whenever the offset
    is below their number. *)
Theorem parsed_page_is_bounded w role query_params limit offset w0 :
  parse_pagination_params query_params w = (Returned (limit, offset), w0) ->
  exists resp w' page,
    list_users role limit offset w0 = (Returned resp, w') /\
    data_at "users" resp = Some (JList (map to_dict page)) /\
    data_at "limit" resp = Some (JInt limit) /\
    data_at "offset" resp = Some (JInt offset) /\
    page = firstn (Z.to_nat limit) (skipn (Z.to_nat offset) (listed role w)) /\
    len page <= 1000 /\
    (offset < len (listed role w) -> 1 <= len page).
Proof.
  unfold parse_pagination_params, bind, ret.
  destruct (int (get_or "limit" "100" query_params)) as [l0|ex]; [|discriminate].
  destruct (int (get_or "offset" "0" query_params)) as [o0|ex]; [|discriminate].
  intros [= <- <- <-]. rewrite list_users_run.
  eexists _, _, (py_slice (listed role w) _ _).
  split; [reflexivity|]. split; [reflexivity|]. split; [reflexivity|].
  split; [reflexivity|]. split; [apply py_slice_in_range; lia|].
  rewrite py_slice_length by lia. lia.
Qed.

End Facade.
(** ** The further theorems at sample objects *)

Section BatchInstances.
Import data_processor samples.

(** Three items in batches of two. *)
Lemma create_batches_partition_witness :
  exists batches,
    _create_batches ["a"; "bb"; "a"]%string 2 empty_cache
      = (Returned batches, empty_cache) /\
    List.concat batches = ["a"; "bb"; "a"]%string /\
    len batches = (len ["a"; "bb"; "a"]%string + 2 - 1) / 2 /\
    Forall (fun batch => 0 < len batch <= 2) batches /\
    (forall i, (S i < List.length batches)%nat -> len (nth i batches []) = 2).
Proof.
  apply (create_batches_partition empty_cache ["a"; "bb"; "a"]%string 2). lia.
Defined.

Example create_batches_sample :
  fst (_create_batches ["a"; "bb"; "a"]%string 2 empty_cache)
    = Returned [["a"; "bb"]; ["a"]]%string.
Proof. reflexivity. Qed.

Lemma process_batch_is_sequential_witness :
  process_batch ["a"; "bb"; "a"]%string 2 empty_cache
    = comprehension ["a"; "bb"; "a"]%string process empty_cache /\
  (forall results w',
     process_batch ["a"; "bb"; "a"]%string 2 empty_cache = (Returned results, w') ->
     len results = len ["a"; "bb"; "a"]%string).
Proof.
  apply (process_batch_is_sequential ["a"; "bb"; "a"]%string 2 empty_cache). lia.
Defined.

(** The third item is answered from the cache. *)
Example process_batch_sample :
  let w' := snd (process_batch ["a"; "bb"; "a"]%string 2 empty_cache) in
  hits (_stats (self w')) = 1 /\ misses (_stats (self w')) = 2 /\
  keys (_cache (self w')) = ["data_1"; "data_2"]%string.
Proof. repeat split. Qed.

Lemma process_batch_without_batches_witness :
  process_batch ["a"]%string 0 empty_cache =
    (if 0 =? 0
     then Raised (ValueError "range() arg 3 must not be zero")
     else Returned [],
     empty_cache).
Proof.
  apply (process_batch_without_batches ["a"]%string 0 empty_cache). lia.
Defined.

(** A third input in the full cache. *)
Lemma cache_stays_within_bound_witness :
  let w' := snd (process "ccc" full_cache) in
  dict_wf (_cache (self w')) /\
  len (_cache (self w')) <= _max_cache_size (self w') /\
  _max_cache_size (self w') = _max_cache_size (self full_cache).
Proof.
  intros w'.
  assert (Hle : len (_cache (self full_cache)) <= _max_cache_size (self full_cache))
    by (vm_compute; discriminate).
  apply (cache_stays_within_bound full_cache full_cache_wf Hle w').
  left. now exists "ccc"%string.
Defined.

Lemma process_miss_builds_entry_witness :
  exists w' kept,
    let result :=
      fresh_entry (reading (clock empty_cache)) (reads (clock empty_cache))
        "x"%string in
    process "x" empty_cache = (Returned result, w') /\
    id result = _get_cache_key "x"%string /\
    original_data result = "x"%string /\
    processed_data result = ("processed_" ++ md5_hexdigest (str "x"))%string /\
    _cache (self w') = kept ++ [(_get_cache_key "x"%string, result)] /\
    (forall kv, In kv kept -> In kv (_cache (self empty_cache))) /\
    misses (_stats (self w')) = misses (_stats (self empty_cache)) + 1 /\
    hits (_stats (self w')) = hits (_stats (self empty_cache)) /\
    calls w' =
      calls empty_cache
      ++ match _validator (self empty_cache) with
         | Some _ => [CallValidate "x"%string]
         | None => []
         end
      ++ [CallDoProcessing "x"%string] /\
    reads (clock w') = (reads (clock empty_cache) + 3)%nat.
Proof.
  apply (process_miss_builds_entry empty_cache "x"%string).
  - constructor.
  - reflexivity.
  - intros v Hv. discriminate Hv.
  - left. vm_compute. reflexivity.
Defined.

Lemma iter_valid_data_yields_the_kept_witness :
  fst (iter_valid_data 5 full_cache)
    = Returned (values (_cache (self (snd (remove_expired 5 full_cache))))) /\
  _cache (self (snd (iter_valid_data 5 full_cache))) = _cache (self full_cache) /\
  clock (snd (iter_valid_data 5 full_cache))
    = clock (snd (remove_expired 5 full_cache)) /\
  reads (clock (snd (iter_valid_data 5 full_cache)))
    = (reads (clock full_cache) + List.length (_cache (self full_cache)))%nat.
Proof.
  apply (iter_valid_data_yields_the_kept full_cache 5). exact full_cache_wf.
Defined.

Lemma internal_state_waits_for_cache_stats_witness :
  let w' := snd (process "x" empty_cache) in
  _DataProcessor__validate_internal_state (self w') = false /\
  fst (cache_stats w') =
    Returned {| hits := hits (_stats (self empty_cache));
                misses := misses (_stats (self empty_cache)) + 1;
                evictions := evictions (_stats (self empty_cache));
                size := len (_cache (self empty_cache)) + 1 |} /\
  _DataProcessor__validate_internal_state (self (snd (cache_stats w'))) = true.
Proof.
  apply (internal_state_waits_for_cache_stats empty_cache "x"%string).
  - reflexivity.
  - reflexivity.
  - intros v Hv. discriminate Hv.
  - vm_compute. reflexivity.
Defined.

End BatchInstances.

Section UserInstances.
Import user samples.

Lemma valid_user_has_email_witness : has_email alice = true.
Proof. apply (valid_user_has_email alice). vm_compute. reflexivity. Defined.

(** An address with an [@] that the pattern refuses: [has_email] does
    not make a user valid. *)
Example has_email_is_weaker :
  has_email (person "user_9" "Zed" "zed@localhost" "user") = true /\
  is_valid (person "user_9" "Zed" "zed@localhost" "user") = false.
Proof. split; vm_compute; reflexivity. Qed.

Lemma setters_keep_user_valid_witness :
  let o := {| this := alice; clock := {| reading := fun n => Z.of_nat n; reads := 0 |} |} in
  is_valid (this (snd (set_email "nobody" o))) = true /\
  ((forall v ex, fst (set_name v o) = Raised ex -> snd (set_name v o) = o) /\
   (forall v ex, fst (set_email v o) = Raised ex -> snd (set_email v o) = o) /\
   (forall v ex, fst (set_age v o) = Raised ex -> snd (set_age v o) = o)).
Proof.
  intros o.
  assert (Hv : is_valid (this o) = true) by (vm_compute; reflexivity).
  apply (setters_keep_user_valid o Hv (snd (set_email "nobody" o))).
  right. left. now exists "nobody"%string.
Defined.

End UserInstances.

Section MoreRegistryInstances.
Import user_service samples.

Ltac keys_by_listing :=
  unfold dict_wf; simpl; repeat constructor; simpl; intuition discriminate.

Lemma three_users_wf : dict_wf three_users.
Proof. keys_by_listing. Qed.

Lemma five_users_wf : dict_wf five_users.
Proof. keys_by_listing. Qed.

(** A fourth user in a registry of at most three. *)
Lemma registry_stays_within_bound_witness :
  let w := registry 3 three_users in
  let w' := snd (add_user dave w) in
  dict_wf (_users (self w')) /\
  len (_users (self w')) <= max_users (self w') /\
  max_users (self w') = max_users (self w) /\
  _UserService__listeners (self w') = _UserService__listeners (self w).
Proof.
  intros w w'.
  assert (Hle : len (_users (self w)) <= max_users (self w))
    by (vm_compute; discriminate).
  apply (registry_stays_within_bound w three_users_wf Hle w').
  left. now exists dave.
Defined.

Lemma user_count_follows_the_answers_witness :
  let w := registry 5 three_users in
  user_count (self (snd (add_user dave w))) =
    user_count (self w)
    + match fst (add_user dave w) with Returned true => 1 | _ => 0 end /\
  user_count (self (snd (remove_user "user_2" w))) =
    user_count (self w)
    - match fst (remove_user "user_2" w) with Returned true => 1 | _ => 0 end /\
  (fst (remove_user "user_2" w) = Returned true <->
   dict_in "user_2" (_users (self w)) = true) /\
  (fst (remove_user "user_2" w) = Returned false <->
   dict_in "user_2" (_users (self w)) = false).
Proof.
  intros w. apply (user_count_follows_the_answers w dave "user_2"%string).
Defined.

Lemma add_then_remove_restores_witness :
  let w := registry 5 three_users in
  exists w1 w2,
    add_user dave w = (Returned true, w1) /\
    remove_user (id_of dave) w1 = (Returned true, w2) /\
    self w2 = self w /\
    effects w2 =
      effects w
      ++ deliveries (_UserService__listeners (self w)) USER_ADDED dave
      ++ deliveries (_UserService__listeners (self w)) USER_REMOVED dave.
Proof.
  intros w. apply (add_then_remove_restores w dave).
  - reflexivity.
  - vm_compute. reflexivity.
Defined.

End MoreRegistryInstances.

Section MoreFacadeInstances.
Import user api_controller samples.

Lemma unknown_id_is_not_found_witness :
  let w := facade 5 three_users in
  get_user "user_9" w =
    (Returned (answer STATUS_ERROR "User not found" None w),
     after_request "get_user" (user_service (self w)) w) /\
  (forall request,
     update_user "user_9" request w =
       (Returned (answer STATUS_ERROR "User not found" None w),
        after_request "update_user" (user_service (self w)) w)) /\
  delete_user "user_9" w =
    (Returned (answer STATUS_ERROR "User not found" None w),
     after_request "delete_user" (user_service (self w)) w).
Proof.
  intros w. apply (unknown_id_is_not_found w "user_9"%string). reflexivity.
Defined.

(** A request with an empty name. *)
Lemma create_user_requires_name_and_email_witness :
  let w := facade 5 three_users in
  let request :=
    {| cr_name := Some ""%string; cr_email := Some "zed@example.com"%string;
       cr_role := None |} in
  create_user request w =
    (Returned (answer STATUS_ERROR "Name and email are required" None w),
     after_request "create_user" (user_service (self w)) w).
Proof.
  intros w request. apply (create_user_requires_name_and_email w request).
  left. reflexivity.
Defined.

(** Dave is created under the identifier cut from the first draw, with
    an address that the pattern refuses. *)
Lemma create_then_get_witness :
  let w := facade 5 three_users in
  let user := created "Dave" "dave@localhost" None w in
  exists resp w1 resp2 w2,
    create_user {| cr_name := Some "Dave"%string;
                   cr_email := Some "dave@localhost"%string;
                   cr_role := None |} w
      = (Returned resp, w1) /\
    status resp = STATUS_SUCCESS /\ message resp = "User created"%string /\
    data resp = Some (to_dict user) /\
    users_of w1 = users_of w ++ [(id user, user)] /\
    drawn w1 = S (drawn w) /\
    get_user (id user) w1 = (Returned resp2, w2) /\
    status resp2 = STATUS_SUCCESS /\ message resp2 = "User found"%string /\
    data resp2 = data resp /\
    users_of w2 = users_of w1 /\
    is_valid user = _validate_email "dave@localhost".
Proof.
  intros w user.
  apply (create_then_get w "Dave"%string "dave@localhost"%string None).
  - discriminate.
  - discriminate.
  - reflexivity.
  - vm_compute. reflexivity.
Defined.

Example create_user_stores_unchecked_email :
  id (created "Dave" "dave@localhost" None (facade 5 three_users))
    = "user_01234567"%string /\
  is_valid (created "Dave" "dave@localhost" None (facade 5 three_users)) = false.
Proof. split; vm_compute; reflexivity. Qed.

Lemma delete_then_get_witness :
  let w := facade 5 three_users in
  exists resp w1 resp2 w2,
    delete_user "user_2" w = (Returned resp, w1) /\
    (status resp, message resp) =
      (if dict_in "user_2" (users_of w)
       then (STATUS_SUCCESS, "User deleted"%string)
       else (STATUS_ERROR, "User not found"%string)) /\
    dict_wf (users_of w1) /\
    get_user "user_2" w1 = (Returned resp2, w2) /\
    status resp2 = STATUS_ERROR /\ message resp2 = "User not found"%string /\
    (forall k, k <> "user_2"%string ->
               dict_get k (users_of w2) = dict_get k (users_of w)).
Proof.
  intros w. apply (delete_then_get w "user_2"%string). exact three_users_wf.
Defined.

(** A new name next to an address that [set_email] refuses. *)
Lemma update_user_keeps_record_valid_witness :
  let w := facade 5 three_users in
  let request :=
    {| up_name := Some "Alicia"%string; up_email := Some "nobody"%string;
       up_role := None; up_age := None |} in
  exists u',
    dict_get "user_1" (users_of (snd (update_user "user_1" request w))) = Some u' /\
    id u' = id alice /\ is_valid u' = true /\
    keys (users_of (snd (update_user "user_1" request w))) = keys (users_of w) /\
    (forall v, up_name request = Some v -> v <> ""%string -> name u' = v).
Proof.
  intros w request.
  apply (update_user_keeps_record_valid w "user_1"%string request alice).
  - reflexivity.
  - vm_compute. reflexivity.
Defined.

Example update_user_is_not_atomic :
  let request :=
    {| up_name := Some "Alicia"%string; up_email := Some "nobody"%string;
       up_role := None; up_age := None |} in
  let (r, w') := update_user "user_1" request (facade 5 three_users) in
  r = Raised (ValueError "Invalid email format") /\
  option_map name (dict_get "user_1" (users_of w')) = Some "Alicia"%string /\
  option_map email (dict_get "user_1" (users_of w')) = Some "alice@example.com"%string.
Proof. vm_compute. repeat split. Qed.

(** Five users, two to a page, from the second on. *)
Lemma list_users_pages_tile_witness :
  let w := facade 5 five_users in
  exists r1 w1 r2 w2 r3 w3 p1 p2,
    list_users None 2 1 w = (Returned r1, w1) /\
    list_users None 2 (1 + 2) w1 = (Returned r2, w2) /\
    list_users None (2 + 2) 1 w2 = (Returned r3, w3) /\
    data_at "users" r1 = Some (JList (map to_dict p1)) /\
    data_at "users" r2 = Some (JList (map to_dict p2)) /\
    data_at "users" r3 = Some (JList (map to_dict (p1 ++ p2))) /\
    data_at "total" r1 = Some (JInt (len (listed None w))) /\
    p1 = firstn (Z.to_nat 2) (skipn (Z.to_nat 1) (listed None w)) /\
    len p1 = Z.min 2 (Z.max 0 (len (listed None w) - 1)) /\
    users_of w3 = users_of w.
Proof.
  intros w. apply (list_users_pages_tile w None 2 2 1); lia.
Defined.

Lemma parsed_page_is_bounded_witness :
  let w := facade 5 five_users in
  exists resp w' page,
    list_users None 2 1 w = (Returned resp, w') /\
    data_at "users" resp = Some (JList (map to_dict page)) /\
    data_at "limit" resp = Some (JInt 2) /\
    data_at "offset" resp = Some (JInt 1) /\
    page = firstn (Z.to_nat 2) (skipn (Z.to_nat 1) (listed None w)) /\
    len page <= 1000 /\
    (1 < len (listed None w) -> 1 <= len page).
Proof.
  intros w.
  apply (parsed_page_is_bounded w None
           [("limit", "2"); ("offset", "1")]%string 2 1 w).
  vm_compute. reflexivity.
Defined.

End MoreFacadeInstances.
